(** * Trigger detection and alert dispatch of the safety-detection app

    A shallow embedding of

    - [src/services/shakeDetectionService.ts]  (module [ShakeService]),
    - [src/services/voiceRecognitionService.ts] (module [VoiceService]),
    - [src/context/ShakeContext.tsx] and [src/context/VoiceContext.tsx]
      (modules [ShakeContext], [VoiceContext]),

    together with a small cooperative scheduler (module [App]) that
    interleaves the asynchronous functions at their [await] points, and the
    properties of the trigger engine proved or refuted on them.

    JavaScript numbers are IEEE 754 binary64 values: accelerometer readings
    and thresholds are primitive floats.  [Date.now()] is an integral number
    of milliseconds and is kept in [Z].

    React closures are explicit: a function of a provider reads the hook
    values ([currentLocation], [isEnabled], [sensitivity]) of the render
    that created it, so they are parameters of the embedded function, and
    the scheduler passes the values of the render the source takes the
    function from.

    Texts shown to the user or logged are kept without their emoji, and of
    the purely informative [console.log] lines only those are kept that
    mark a step the properties speak about. *)

From Stdlib Require Import ZArith Lia String.
From Stdlib Require Import Floats.PrimFloat.
From Stdlib Require Floats.SpecFloat Floats.FloatAxioms.
From stdpp Require Import base option list gmap strings.

Set Warnings "-inexact-float".
Local Open Scope string_scope.
Local Open Scope list_scope.
Local Open Scope Z_scope.

(** ** Shared data *)

(** ['low' | 'medium' | 'high'] *)
Inductive Sensitivity : Type := low | medium | high.

#[global] Instance Sensitivity_eq_dec : EqDecision Sensitivity.
Proof. solve_decision. Defined.

(** The payload of an accelerometer update. *)
Record AccelerometerData : Type := mkAccel {
  acc_x : float;
  acc_y : float;
  acc_z : float
}.

(** [LocationData] of the location context. *)
Record LocationData : Type := mkLocation {
  latitude  : float;
  longitude : float;
  address   : option string;
  timestamp : Z
}.

(** ** shakeDetectionService.ts *)

Module ShakeService.

Section WithCallback.

(** The type of the [onShake] callbacks handed to [start]. *)
Context {CB : Type}.

(** The fields of [ShakeDetectionService].  [subscription] holds the handle
    of the accelerometer listener registered by the last [start]. *)
Record t : Type := mk {
  subscription    : option nat;
  lastShakeTime   : Z;
  shakeThreshold  : float;
  shakeTimeout    : Z;
  onShakeCallback : option CB
}.

(** The accelerometer module: the listeners registered with
    [Accelerometer.addListener] (by handle), the next free handle and the
    update interval. *)
Record Accelerometer : Type := mkAccelerometer {
  listeners      : list nat;
  nextHandle     : nat;
  updateInterval : Z
}.

Definition initial : t :=
  {| subscription := None; lastShakeTime := 0;
     shakeThreshold := 2.5%float; shakeTimeout := 1000;
     onShakeCallback := None |}.

Definition noListeners : Accelerometer :=
  {| listeners := []; nextHandle := 0%nat; updateInterval := 0 |}.

(** The [switch (sensitivity)] of [start] and of [setSensitivity]. *)
Definition thresholdOf (s : Sensitivity) : float :=
  match s with
  | low => 3.5%float
  | medium => 2.5%float
  | high => 1.8%float
  end.

(** [start(onShake, sensitivity = 'medium')]: an omitted sensitivity is
    [None]. *)
Definition start (onShake : CB) (sensitivity : option Sensitivity)
    (a : Accelerometer) (s : t) : Accelerometer * t :=
  let sens := default medium sensitivity in
  let h := nextHandle a in
  ({| listeners := listeners a ++ [h];
      nextHandle := S h;
      updateInterval := 100 |},
   {| subscription := Some h;
      lastShakeTime := lastShakeTime s;
      shakeThreshold := thresholdOf sens;
      shakeTimeout := shakeTimeout s;
      onShakeCallback := Some onShake |}).

Definition stop (a : Accelerometer) (s : t) : Accelerometer * t :=
  match subscription s with
  | Some h =>
      ({| listeners := filter (fun h' => h' ≠ h) (listeners a);
          nextHandle := nextHandle a;
          updateInterval := updateInterval a |},
       {| subscription := None;
          lastShakeTime := lastShakeTime s;
          shakeThreshold := shakeThreshold s;
          shakeTimeout := shakeTimeout s;
          onShakeCallback := None |})
  | None => (a, s)
  end.

Definition isActive (s : t) : bool :=
  match subscription s with Some _ => true | None => false end.

Definition setSensitivity (sensitivity : Sensitivity) (s : t) : t :=
  {| subscription := subscription s;
     lastShakeTime := lastShakeTime s;
     shakeThreshold := thresholdOf sensitivity;
     shakeTimeout := shakeTimeout s;
     onShakeCallback := onShakeCallback s |}.

(** [Math.sqrt(x * x + y * y + z * z)], evaluated left to right in
    binary64. *)
Definition acceleration (d : AccelerometerData) : float :=
  PrimFloat.sqrt
    (acc_x d * acc_x d + acc_y d * acc_y d + acc_z d * acc_z d)%float.

(** The listener registered by [start], run on one accelerometer update
    when [Date.now()] is [now].  The second component is the callback that
    was invoked, if any. *)
Definition listener (now : Z) (d : AccelerometerData) (s : t)
    : t * option CB :=
  if PrimFloat.ltb (shakeThreshold s) (acceleration d) then
    if shakeTimeout s <? now - lastShakeTime s then
      ({| subscription := subscription s;
          lastShakeTime := now;
          shakeThreshold := shakeThreshold s;
          shakeTimeout := shakeTimeout s;
          onShakeCallback := onShakeCallback s |},
       onShakeCallback s)
    else (s, None)
  else (s, None).

(** One accelerometer update reaches every registered listener in turn;
    all of them are closures over the one service object. *)
Fixpoint deliver (hs : list nat) (now : Z) (d : AccelerometerData) (s : t)
    : t * list CB :=
  match hs with
  | [] => (s, [])
  | _ :: hs' =>
      let '(s1, fired) := listener now d s in
      let '(s2, rest) := deliver hs' now d s1 in
      (s2, match fired with Some cb => cb :: rest | None => rest end)
  end.

(** A run of the (single) listener over timed samples: for each sample,
    whether the callback was invoked. *)
Fixpoint feed (samples : list (Z * AccelerometerData)) (s : t)
    : list bool :=
  match samples with
  | [] => []
  | (now, d) :: rest =>
      let '(s', fired) := listener now d s in
      bool_decide (is_Some fired) :: feed rest s'
  end.

(** The time of the last sample of [samples] flagged in [flags], or [t0]
    when none is. *)
Fixpoint lastFired (t0 : Z) (samples : list (Z * AccelerometerData))
    (flags : list bool) : Z :=
  match samples, flags with
  | (now, _) :: samples', f :: flags' =>
      lastFired (if f then now else t0) samples' flags'
  | _, _ => t0
  end.

End WithCallback.

Arguments t : clear implicits.

End ShakeService.

(** ** Asynchronous functions

  An [async] function runs synchronously up to its next [await] of a
  primitive promise (a timer, a native call, a request), and is resumed
  with the value the promise settled to.  Each function below is split at
  its awaits: [f] is the code from the entry to the first await,
  [f_resume k v] the code that runs after the await named by the
  continuation [k] settled to [v].  Awaiting a call of another async
  function embeds the callee's continuation in the caller's. *)

(** What is kept in [AsyncStorage] (values are JSON texts in the source;
    they are kept parsed here). *)
Record Guardian : Type := mkGuardian {
  g_name  : string;
  g_phone : string
}.

Record AlertRecord : Type := mkAlert {
  a_id          : Z;        (* `alert-${Date.now()}` *)
  a_triggerType : string;
  a_status      : string;
  a_latitude    : float;
  a_longitude   : float;
  a_address     : option string;
  a_message     : string;
  a_createdAt   : Z
}.

Inductive Stored : Type :=
| SText (s : string)
| SGuardians (gs : list Guardian)
| SAlerts (als : list AlertRecord).

(** [response.data] of the transcription endpoint; absent fields are
    [None]. *)
Record ResponseData : Type := mkResponse {
  d_success         : bool;
  d_transcript      : option string;
  d_containsKeyword : option bool;
  d_hasVoice        : option bool
}.

Inductive Error : Type :=
| ECONNABORTED                 (* error.code === 'ECONNABORTED' *)
| NetworkError                 (* error.message === 'Network Error' *)
| BadStatus (status : Z)       (* error.response *)
| NoAuthToken                  (* new Error('No auth token') *)
| TypeError                    (* a property of null or undefined *)
| SyntaxError                  (* JSON.parse *)
| OtherError.

(** The primitive promises the code awaits. *)
Inductive Op : Type :=
| Timeout (ms : Z)             (* new Promise(r => setTimeout(r, ms)) *)
| RequestPermissionsAsync
| SetAudioModeAsync
| PrepareToRecordAsync (r : nat)
| StartAsync (r : nat)
| StopAndUnloadAsync (r : nat)
| GetStatusAsync (r : nat)
| GetItem (key : string)
| SetItem (key : string) (v : Stored)
| Post (uri : nat).            (* axios.post(.../speech/transcribe) *)

Inductive Value : Type :=
| VUnit
| VPermission (granted : bool)
| VRecStatus (isRecording isDoneRecording : bool)
| VItem (item : option Stored)
| VResponse (data : option ResponseData).

Inductive Settled : Type :=
| Fulfilled (v : Value)
| Rejected (e : Error).

(** How far a function got: suspended at an await with the rest of its
    body, returned, or thrown. *)
Inductive Step (K R : Type) : Type :=
| Await (op : Op) (k : K)
| Return (r : R)
| Throw (e : Error).
Arguments Await {K R} op k.
Arguments Return {K R} r.
Arguments Throw {K R} e.

(** What the user and the console see. *)
Inductive ToastType : Type := toast_error | toast_info | toast_success.

Inductive Event : Type :=
| ToastShow (type : ToastType) (text1 : string)
| AlertAlert (title : string)
| ConsoleLog (msg : string)
| ConsoleError (msg : string).

(** The closure handed to [shakeDetectionService.start]: it calls the
    [handleShakeDetected] of the render that created it, whose
    [currentLocation] is the one of that render. *)
Record ShakeCallback : Type := mkShakeCallback {
  cb_currentLocation : option LocationData
}.

(** The fields of [VoiceRecognitionService].  [created] counts the
    [Audio.Recording] objects constructed so far and names the next one;
    a recording's URI is identified with its number. *)
Record VoiceServiceState : Type := mkVoice {
  recording     : option nat;
  isRecording   : bool;
  isInitialized : bool;
  recordingLock : bool;
  created       : nat
}.

(** Everything the two providers and the two services can read or write. *)
Record World : Type := mkWorld {
  voice            : VoiceServiceState;
  listeningLoopRef : bool;           (* VoiceProvider: useRef(false) *)
  isListening      : bool;           (* VoiceProvider state *)
  voiceEnabled     : bool;           (* VoiceProvider state isEnabled *)
  shake            : ShakeService.t ShakeCallback;
  accelerometer    : ShakeService.Accelerometer;
  shakeEnabled     : bool;           (* ShakeProvider state isEnabled *)
  sensitivity      : Sensitivity;    (* ShakeProvider state *)
  shakeClosure     : option LocationData;
      (* currentLocation as seen by the closures of ShakeProvider's
         current effect *)
  currentLocation  : option LocationData;   (* LocationProvider state *)
  storage          : gmap string Stored;    (* AsyncStorage *)
  clock            : Z;                     (* Date.now() *)
  log              : list Event
}.

Definition set_voice (f : VoiceServiceState -> VoiceServiceState)
    (w : World) : World :=
  mkWorld (f (voice w)) (listeningLoopRef w) (isListening w)
    (voiceEnabled w) (shake w) (accelerometer w) (shakeEnabled w)
    (sensitivity w) (shakeClosure w) (currentLocation w) (storage w)
    (clock w) (log w).

Definition set_recording (r : option nat) : World -> World :=
  set_voice (fun v => mkVoice r (isRecording v) (isInitialized v)
                        (recordingLock v) (created v)).
Definition set_isRecording (b : bool) : World -> World :=
  set_voice (fun v => mkVoice (recording v) b (isInitialized v)
                        (recordingLock v) (created v)).
Definition set_isInitialized (b : bool) : World -> World :=
  set_voice (fun v => mkVoice (recording v) (isRecording v) b
                        (recordingLock v) (created v)).
Definition set_recordingLock (b : bool) : World -> World :=
  set_voice (fun v => mkVoice (recording v) (isRecording v)
                        (isInitialized v) b (created v)).
(** [this.recording = new Audio.Recording()] *)
Definition new_recording : World -> World :=
  set_voice (fun v => mkVoice (Some (created v)) (isRecording v)
                        (isInitialized v) (recordingLock v)
                        (S (created v))).

Definition set_listeningLoopRef (b : bool) (w : World) : World :=
  mkWorld (voice w) b (isListening w) (voiceEnabled w) (shake w)
    (accelerometer w) (shakeEnabled w) (sensitivity w) (shakeClosure w)
    (currentLocation w) (storage w) (clock w) (log w).
Definition setIsListening (b : bool) (w : World) : World :=
  mkWorld (voice w) (listeningLoopRef w) b (voiceEnabled w) (shake w)
    (accelerometer w) (shakeEnabled w) (sensitivity w) (shakeClosure w)
    (currentLocation w) (storage w) (clock w) (log w).
Definition setVoiceEnabled (b : bool) (w : World) : World :=
  mkWorld (voice w) (listeningLoopRef w) (isListening w) b (shake w)
    (accelerometer w) (shakeEnabled w) (sensitivity w) (shakeClosure w)
    (currentLocation w) (storage w) (clock w) (log w).
Definition set_shake
    (p : ShakeService.Accelerometer * ShakeService.t ShakeCallback)
    (w : World) : World :=
  mkWorld (voice w) (listeningLoopRef w) (isListening w) (voiceEnabled w)
    (snd p) (fst p) (shakeEnabled w) (sensitivity w) (shakeClosure w)
    (currentLocation w) (storage w) (clock w) (log w).
Definition setShakeEnabled (b : bool) (w : World) : World :=
  mkWorld (voice w) (listeningLoopRef w) (isListening w) (voiceEnabled w)
    (shake w) (accelerometer w) b (sensitivity w) (shakeClosure w)
    (currentLocation w) (storage w) (clock w) (log w).
Definition setSensitivityState (s : Sensitivity) (w : World) : World :=
  mkWorld (voice w) (listeningLoopRef w) (isListening w) (voiceEnabled w)
    (shake w) (accelerometer w) (shakeEnabled w) s (shakeClosure w)
    (currentLocation w) (storage w) (clock w) (log w).
Definition set_shakeClosure (l : option LocationData) (w : World) : World :=
  mkWorld (voice w) (listeningLoopRef w) (isListening w) (voiceEnabled w)
    (shake w) (accelerometer w) (shakeEnabled w) (sensitivity w) l
    (currentLocation w) (storage w) (clock w) (log w).
Definition setCurrentLocation (l : option LocationData) (w : World)
    : World :=
  mkWorld (voice w) (listeningLoopRef w) (isListening w) (voiceEnabled w)
    (shake w) (accelerometer w) (shakeEnabled w) (sensitivity w)
    (shakeClosure w) l (storage w) (clock w) (log w).
Definition set_storage (m : gmap string Stored) (w : World) : World :=
  mkWorld (voice w) (listeningLoopRef w) (isListening w) (voiceEnabled w)
    (shake w) (accelerometer w) (shakeEnabled w) (sensitivity w)
    (shakeClosure w) (currentLocation w) m (clock w) (log w).
Definition set_clock (t : Z) (w : World) : World :=
  mkWorld (voice w) (listeningLoopRef w) (isListening w) (voiceEnabled w)
    (shake w) (accelerometer w) (shakeEnabled w) (sensitivity w)
    (shakeClosure w) (currentLocation w) (storage w) t (log w).
(** [Toast.show], [Alert.alert], [console.log] and [console.error] append
    to the log. *)
Definition emit (e : Event) (w : World) : World :=
  mkWorld (voice w) (listeningLoopRef w) (isListening w) (voiceEnabled w)
    (shake w) (accelerometer w) (shakeEnabled w) (sensitivity w)
    (shakeClosure w) (currentLocation w) (storage w) (clock w)
    (log w ++ [e]).

(** [await callee(...)] inside the caller: the callee's suspension becomes
    the caller's (wrapped by [wrap]); its return value or exception goes
    on into the caller's code. *)
Definition await_call {K1 K2 R1 R2 : Type}
    (callee : World * Step K1 R1) (wrap : K1 -> K2)
    (onReturn : R1 -> World -> World * Step K2 R2)
    (onThrow : Error -> World -> World * Step K2 R2)
    : World * Step K2 R2 :=
  match callee with
  | (w, Await op k) => (w, Await op (wrap k))
  | (w, Return r) => onReturn r w
  | (w, Throw e) => onThrow e w
  end.

(** ** voiceRecognitionService.ts *)

Module VoiceService.

(** *** initialize *)

Inductive KInitialize : Type :=
| KI_permissions          (* await Audio.requestPermissionsAsync() *)
| KI_audioMode.           (* await Audio.setAudioModeAsync(...) *)

Definition initialize_catch (w : World) : World * Step KInitialize bool :=
  (emit (ConsoleError "Audio initialization error") w, Return false).

Definition initialize (w : World) : World * Step KInitialize bool :=
  if isInitialized (voice w) then (w, Return true)
  else (w, Await RequestPermissionsAsync KI_permissions).

Definition initialize_resume (k : KInitialize) (v : Settled) (w : World)
    : World * Step KInitialize bool :=
  match k, v with
  | KI_permissions, Fulfilled (VPermission granted) =>
      if granted then (w, Await SetAudioModeAsync KI_audioMode)
      else (emit (AlertAlert "Microphone Permission Required") w,
            Return false)
  | KI_permissions, _ => initialize_catch w
  | KI_audioMode, Fulfilled _ =>
      (emit (ConsoleLog "Audio initialized with permissions")
         (set_isInitialized true w),
       Return true)
  | KI_audioMode, Rejected _ => initialize_catch w
  end.

(** *** forceCleanup *)

Inductive KForceCleanup : Type :=
| KF_stop                 (* await this.recording.stopAndUnloadAsync() *)
| KF_delay.               (* await setTimeout 50 *)

Definition forceCleanup_rest (w : World) : World * Step KForceCleanup unit :=
  (set_isRecording false w, Await (Timeout 50) KF_delay).

Definition forceCleanup (w : World) : World * Step KForceCleanup unit :=
  match recording (voice w) with
  | Some r => (w, Await (StopAndUnloadAsync r) KF_stop)
  | None => forceCleanup_rest w
  end.

Definition forceCleanup_resume (k : KForceCleanup) (v : Settled) (w : World)
    : World * Step KForceCleanup unit :=
  match k, v with
  | KF_stop, _ =>           (* a rejection is ignored *)
      forceCleanup_rest (set_recording None w)
  | KF_delay, Fulfilled _ => (w, Return ())
  | KF_delay, Rejected e => (w, Throw e)
  end.

(** *** recordChunk *)

Inductive KRecordChunk : Type :=
| KR_forceCleanup (durationMs : Z) (k : KForceCleanup)
| KR_prepare (durationMs : Z)   (* await prepareToRecordAsync(...) *)
| KR_start (durationMs : Z)     (* await this.recording.startAsync() *)
| KR_wait                       (* await setTimeout durationMs *)
| KR_stop                       (* await stopAndUnloadAsync() *)
| KR_release (uri : nat)        (* await setTimeout 100 *)
| KR_catchStop.                 (* catch: await stopAndUnloadAsync() *)

(** [finally { this.recordingLock = false; }] *)
Definition recordChunk_finally {K R : Type} (res : World * Step K R)
    : World * Step K R :=
  match res with
  | (w, Await op k) => (w, Await op k)
  | (w, r) => (set_recordingLock false w, r)
  end.

Definition recordChunk_catchEnd (w : World)
    : World * Step KRecordChunk (option nat) :=
  (set_isRecording false w, Return None).

Definition recordChunk_catch (e : Error) (w : World)
    : World * Step KRecordChunk (option nat) :=
  let w := emit (ConsoleError "Recording error") w in
  match recording (voice w) with
  | Some r => (w, Await (StopAndUnloadAsync r) KR_catchStop)
  | None => recordChunk_catchEnd w
  end.

Definition recordChunk_create (durationMs : Z) (w : World)
    : World * Step KRecordChunk (option nat) :=
  (new_recording w,
   Await (PrepareToRecordAsync (created (voice w))) (KR_prepare durationMs)).

(** The body of the [try] block, from its start. *)
Definition recordChunk_try (durationMs : Z) (w : World)
    : World * Step KRecordChunk (option nat) :=
  await_call (forceCleanup w) (KR_forceCleanup durationMs)
    (fun _ => recordChunk_create durationMs)
    recordChunk_catch.

Definition recordChunk (durationMs : Z) (w : World)
    : World * Step KRecordChunk (option nat) :=
  if recordingLock (voice w) then
    (emit (ConsoleLog "Recording locked, waiting...") w, Return None)
  else
    recordChunk_finally (recordChunk_try durationMs (set_recordingLock true w)).

Definition recordChunk_resume (k : KRecordChunk) (v : Settled) (w : World)
    : World * Step KRecordChunk (option nat) :=
  recordChunk_finally
    match k, v with
    | KR_forceCleanup d kf, _ =>
        await_call (forceCleanup_resume kf v w) (KR_forceCleanup d)
          (fun _ => recordChunk_create d)
          recordChunk_catch
    | KR_prepare d, Fulfilled _ =>
        let w := set_isRecording true w in
        match recording (voice w) with
        | Some r => (w, Await (StartAsync r) (KR_start d))
        | None => recordChunk_catch TypeError w
        end
    | KR_start d, Fulfilled _ => (w, Await (Timeout d) KR_wait)
    | KR_wait, Fulfilled _ =>
        match recording (voice w) with
        | Some r => (w, Await (StopAndUnloadAsync r) KR_stop)
        | None => (set_isRecording false w, Return None)
        end
    | KR_stop, Fulfilled _ =>
        match recording (voice w) with
        | Some r =>                      (* uri = this.recording.getURI() *)
            (set_isRecording false (set_recording None w),
             Await (Timeout 100) (KR_release r))
        | None => recordChunk_catch TypeError w
        end
    | KR_release uri, Fulfilled _ => (w, Return (Some uri))
    | KR_catchStop, _ =>                 (* a rejection is ignored *)
        recordChunk_catchEnd (set_recording None w)
    | _, Rejected e => recordChunk_catch e w
    end.

(** *** transcribeAudio *)

Record TranscriptionResult : Type := mkResult {
  success         : bool;
  transcript      : string;
  containsKeyword : bool;
  hasVoice        : bool
}.

Inductive KTranscribe : Type :=
| KT_token (audioUri : nat)     (* await AsyncStorage.getItem('token') *)
| KT_post.                      (* await axios.post(...) *)

Definition failure : TranscriptionResult :=
  {| success := false; transcript := ""; containsKeyword := false;
     hasVoice := false |}.

(** A stored text is truthy unless it is the empty string. *)
Definition truthy (item : option Stored) : bool :=
  match item with
  | None => false
  | Some (SText s) => negb (String.eqb s "")
  | Some _ => true
  end.

Definition transcribeAudio_catch (e : Error) (w : World)
    : World * Step KTranscribe TranscriptionResult :=
  let w :=
    match e with
    | ECONNABORTED =>
        emit (ConsoleError "Transcription timeout - backend took too long") w
    | NetworkError =>
        emit (ConsoleError "Make sure backend is running and accessible from your device")
          (emit (ConsoleError "Backend URL")
             (emit (ConsoleError "Network error - check backend connection") w))
    | _ => emit (ConsoleError "Transcription error") w
    end in
  (w, Return failure).

Definition transcribeAudio (audioUri : nat) (w : World)
    : World * Step KTranscribe TranscriptionResult :=
  (w, Await (GetItem "token") (KT_token audioUri)).

Definition transcribeAudio_resume (k : KTranscribe) (v : Settled) (w : World)
    : World * Step KTranscribe TranscriptionResult :=
  match k, v with
  | KT_token audioUri, Fulfilled (VItem token) =>
      if truthy token then (w, Await (Post audioUri) KT_post)
      else transcribeAudio_catch NoAuthToken
             (emit (ConsoleError "No auth token found") w)
  | KT_post, Fulfilled (VResponse (Some data)) =>
      (emit (ConsoleLog "Transcription response received") w,
       Return {| success := d_success data;
                 transcript := default "" (d_transcript data);
                 containsKeyword := default false (d_containsKeyword data);
                 hasVoice := match d_hasVoice data with
                             | Some false => false
                             | _ => true
                             end |})
  | _, Rejected e => transcribeAudio_catch e w
  | _, Fulfilled _ => transcribeAudio_catch TypeError w
  end.

(** *** stopRecording *)

Inductive KStopRecording : Type :=
| KS_status               (* await this.recording.getStatusAsync() *)
| KS_stop                 (* await this.recording.stopAndUnloadAsync() *)
| KS_retry.               (* catch (e): await stopAndUnloadAsync() *)

Definition stopRecording_end (w : World) : World * Step KStopRecording unit :=
  (set_isRecording false (set_recording None w), Return ()).

(** The inner [catch (e)]. *)
Definition stopRecording_retry (w : World)
    : World * Step KStopRecording unit :=
  match recording (voice w) with
  | Some r => (w, Await (StopAndUnloadAsync r) KS_retry)
  | None => stopRecording_end w
  end.

Definition stopRecording (w : World) : World * Step KStopRecording unit :=
  match recording (voice w) with
  | Some r => (w, Await (GetStatusAsync r) KS_status)
  | None => (set_isRecording false w, Return ())
  end.

Definition stopRecording_resume (k : KStopRecording) (v : Settled)
    (w : World) : World * Step KStopRecording unit :=
  match k, v with
  | KS_status, Fulfilled (VRecStatus isRec isDone) =>
      if isRec || isDone then
        match recording (voice w) with
        | Some r => (w, Await (StopAndUnloadAsync r) KS_stop)
        | None => stopRecording_retry w
        end
      else stopRecording_end w
  | KS_status, _ => stopRecording_retry w
  | KS_stop, Fulfilled _ => stopRecording_end w
  | KS_stop, Rejected _ => stopRecording_retry w
  | KS_retry, _ => stopRecording_end w
  end.

(** *** cleanup *)

Inductive KCleanup : Type :=
| KC_stopRecording (k : KStopRecording)
| KC_forceCleanup (k : KForceCleanup).

Definition cleanup_end (w : World) : World * Step KCleanup unit :=
  (emit (ConsoleLog "Voice service cleaned up") (set_isInitialized false w),
   Return ()).

Definition cleanup_force (w : World) : World * Step KCleanup unit :=
  await_call (forceCleanup w) KC_forceCleanup
    (fun _ => cleanup_end) (fun e w => (w, Throw e)).

Definition cleanup (w : World) : World * Step KCleanup unit :=
  await_call (stopRecording (set_recordingLock false w)) KC_stopRecording
    (fun _ => cleanup_force) (fun e w => (w, Throw e)).

Definition cleanup_resume (k : KCleanup) (v : Settled) (w : World)
    : World * Step KCleanup unit :=
  match k with
  | KC_stopRecording ks =>
      await_call (stopRecording_resume ks v w) KC_stopRecording
        (fun _ => cleanup_force) (fun e w => (w, Throw e))
  | KC_forceCleanup kf =>
      await_call (forceCleanup_resume kf v w) KC_forceCleanup
        (fun _ => cleanup_end) (fun e w => (w, Throw e))
  end.

End VoiceService.

(** ** Alert dispatch, common to both providers *)

(** ['active' | 'background' | 'inactive' | 'unknown' | 'extension'] *)
Inductive AppStateStatus : Type :=
| active | background | inactive | unknown | extension.

(** The awaits of [handleShakeDetected] and of [triggerEmergencyAlert],
    with the locals that are live across each. *)
Inductive KDispatch : Type :=
| KD_guardians (loc : LocationData)
    (* await AsyncStorage.getItem('demo_guardians') *)
| KD_alerts (loc : LocationData) (guardians : list Guardian)
    (newAlert : AlertRecord)
    (* await AsyncStorage.getItem('demo_alerts') *)
| KD_save (loc : LocationData) (guardians : list Guardian)
    (* await AsyncStorage.setItem('demo_alerts', ...) *)
| KD_sms (loc : LocationData) (guardians : list Guardian).
    (* await setTimeout 1000 *)

(** The one-character string holding a double quote. *)
Definition dquote : string := String (Ascii.ascii_of_nat 34) EmptyString.

(** [stored ? JSON.parse(stored) : []]; [None] when the text does not parse
    to a list of the expected records. *)
Definition parseGuardians (item : option Stored) : option (list Guardian) :=
  match item with
  | None => Some []
  | Some (SText s) => if String.eqb s "" then Some [] else None
  | Some (SGuardians gs) => Some gs
  | Some (SAlerts _) => None
  end.

Definition parseAlerts (item : option Stored) : option (list AlertRecord) :=
  match item with
  | None => Some []
  | Some (SText s) => if String.eqb s "" then Some [] else None
  | Some (SAlerts als) => Some als
  | Some (SGuardians _) => None
  end.

(** ** ShakeContext.tsx *)

Module ShakeContext.

Section Provider.

(** The values of the hooks in the render whose closures run. *)
Variable currentLocation : option LocationData.
Variable isEnabled : bool.
Variable sensitivity : Sensitivity.

Definition startShakeDetection (w : World) : World :=
  if ShakeService.isActive (shake w) then w
  else set_shake
         (ShakeService.start (mkShakeCallback currentLocation)
            (Some sensitivity) (accelerometer w) (shake w)) w.

Definition stopShakeDetection (w : World) : World :=
  set_shake (ShakeService.stop (accelerometer w) (shake w)) w.

Definition handleAppStateChange (nextAppState : AppStateStatus) (w : World)
    : World :=
  match nextAppState with
  | active => if isEnabled then startShakeDetection w else w
  | background | inactive => stopShakeDetection w
  | _ => w
  end.

(** The effect of [useEffect(..., [isEnabled, sensitivity])] and its
    cleanup. *)
Definition effect (w : World) : World :=
  if isEnabled then startShakeDetection w else w.

Definition effect_cleanup (w : World) : World := stopShakeDetection w.

Definition handleShakeDetected_catch (w : World) : World * Step KDispatch unit :=
  (emit (ToastShow toast_error "Failed to send alert")
     (emit (ConsoleError "Error sending emergency alert") w),
   Return ()).

Definition handleShakeDetected (w : World) : World * Step KDispatch unit :=
  let w := emit (ConsoleLog "SHAKE DETECTED! Triggering emergency alert...") w in
  let w := emit (ToastShow toast_error "Shake Detected!") w in
  match currentLocation with
  | None => (emit (ToastShow toast_error "Location not available") w,
             Return ())
  | Some loc => (w, Await (GetItem "demo_guardians") (KD_guardians loc))
  end.

Definition handleShakeDetected_resume (k : KDispatch) (v : Settled)
    (w : World) : World * Step KDispatch unit :=
  match k, v with
  | KD_guardians loc, Fulfilled (VItem storedGuardians) =>
      match parseGuardians storedGuardians with
      | Some guardians =>
          let newAlert :=
            {| a_id := clock w;
               a_triggerType := "manual";
               a_status := "ACTIVE";
               a_latitude := latitude loc;
               a_longitude := longitude loc;
               a_address := address loc;
               a_message := "Emergency alert triggered by shake detection";
               a_createdAt := clock w |} in
          (w, Await (GetItem "demo_alerts") (KD_alerts loc guardians newAlert))
      | None => handleShakeDetected_catch w
      end
  | KD_alerts loc guardians newAlert, Fulfilled (VItem storedAlerts) =>
      match parseAlerts storedAlerts with
      | Some alerts =>
          (w, Await (SetItem "demo_alerts" (SAlerts (newAlert :: alerts)))
                (KD_save loc guardians))
      | None => handleShakeDetected_catch w
      end
  | KD_save loc guardians, Fulfilled _ =>
      (w, Await (Timeout 1000) (KD_sms loc guardians))
  | KD_sms loc guardians, Fulfilled _ =>
      let w :=
        match guardians with
        | [] => emit (ToastShow toast_info "No Guardians") w
        | _ :: _ =>
            emit (ToastShow toast_success "DEMO: Emergency Alert Sent!")
              (emit (AlertAlert "DEMO: Shake Alert Sent!") w)
        end in
      (emit (ConsoleLog "Emergency alert sent via shake detection") w,
       Return ())
  | _, _ => handleShakeDetected_catch w
  end.

Definition toggleShakeDetection (w : World) : World :=
  let newState := negb isEnabled in
  let w := setShakeEnabled newState w in
  if newState then startShakeDetection w else stopShakeDetection w.

Definition setSensitivity (newSensitivity : Sensitivity) (w : World)
    : World :=
  let w := setSensitivityState newSensitivity w in
  set_shake (accelerometer w,
             ShakeService.setSensitivity newSensitivity (shake w)) w.

End Provider.

End ShakeContext.

(** ** VoiceContext.tsx *)

Module VoiceContext.

Import VoiceService.

Inductive KStopListening : Type :=
| KSL_wait                      (* await setTimeout 500 *)
| KSL_cleanup (k : KCleanup).   (* await voiceRecognitionService.cleanup() *)

Inductive KStartListening : Type :=
| KL_initialize (k : KInitialize)
| KL_record (k : KRecordChunk)
| KL_retry                      (* recording failed: await setTimeout 1000 *)
| KL_transcribe (k : KTranscribe)
| KL_trigger (k : KDispatch)    (* await triggerEmergencyAlert() *)
| KL_stop (k : KStopListening)  (* await stopListening() *)
| KL_delay                      (* await setTimeout 300 *)
| KL_backoff.                   (* catch: await setTimeout 2000 *)

Inductive KToggle : Type :=
| KG_stop (k : KStopListening)  (* await stopListening() *)
| KG_wait                       (* await setTimeout 500 *)
| KG_start (k : KStartListening). (* await startListening() *)

(** *** stopListening *)

Definition stopListening_catch (w : World) : World * Step KStopListening unit :=
  (setIsListening false
     (set_listeningLoopRef false
        (emit (ConsoleError "Error stopping voice recognition") w)),
   Return ()).

Definition stopListening_end (w : World) : World * Step KStopListening unit :=
  (emit (ConsoleLog "Voice detection stopped cleanly")
     (setIsListening false w),
   Return ()).

Definition stopListening (w : World) : World * Step KStopListening unit :=
  let w := emit (ConsoleLog "Stopping voice detection...") w in
  (set_listeningLoopRef false w, Await (Timeout 500) KSL_wait).

Definition stopListening_resume (k : KStopListening) (v : Settled)
    (w : World) : World * Step KStopListening unit :=
  match k, v with
  | KSL_wait, Fulfilled _ =>
      await_call (cleanup w) KSL_cleanup
        (fun _ => stopListening_end) (fun _ => stopListening_catch)
  | KSL_wait, Rejected _ => stopListening_catch w
  | KSL_cleanup kc, _ =>
      await_call (cleanup_resume kc v w) KSL_cleanup
        (fun _ => stopListening_end) (fun _ => stopListening_catch)
  end.

Section Provider.

(** The values of the hooks in the render whose closures run. *)
Variable currentLocation : option LocationData.
Variable isEnabled : bool.

(** *** triggerEmergencyAlert *)

Definition triggerEmergencyAlert_catch (w : World)
    : World * Step KDispatch unit :=
  (emit (ToastShow toast_error "Failed to send alert")
     (emit (ConsoleError "Error sending emergency alert") w),
   Return ()).

Definition triggerEmergencyAlert (w : World) : World * Step KDispatch unit :=
  match currentLocation with
  | None => (emit (ToastShow toast_error "Location not available") w,
             Return ())
  | Some loc => (w, Await (GetItem "demo_guardians") (KD_guardians loc))
  end.

Definition triggerEmergencyAlert_resume (k : KDispatch) (v : Settled)
    (w : World) : World * Step KDispatch unit :=
  match k, v with
  | KD_guardians loc, Fulfilled (VItem storedGuardians) =>
      match parseGuardians storedGuardians with
      | Some guardians =>
          let newAlert :=
            {| a_id := clock w;
               a_triggerType := "voice";
               a_status := "ACTIVE";
               a_latitude := latitude loc;
               a_longitude := longitude loc;
               a_address := address loc;
               a_message :=
                 String.append "Emergency alert triggered by voice command "
                   (String.append dquote (String.append "Astra" dquote));
               a_createdAt := clock w |} in
          (w, Await (GetItem "demo_alerts") (KD_alerts loc guardians newAlert))
      | None => triggerEmergencyAlert_catch w
      end
  | KD_alerts loc guardians newAlert, Fulfilled (VItem storedAlerts) =>
      match parseAlerts storedAlerts with
      | Some alerts =>
          (w, Await (SetItem "demo_alerts" (SAlerts (newAlert :: alerts)))
                (KD_save loc guardians))
      | None => triggerEmergencyAlert_catch w
      end
  | KD_save loc guardians, Fulfilled _ =>
      (w, Await (Timeout 1000) (KD_sms loc guardians))
  | KD_sms loc guardians, Fulfilled _ =>
      let w :=
        match guardians with
        | [] => emit (ToastShow toast_info "No Guardians") w
        | _ :: _ =>
            emit (ToastShow toast_success "DEMO: Emergency Alert Sent!")
              (emit (AlertAlert "DEMO: Voice Alert Sent!") w)
        end in
      (emit (ConsoleLog "Emergency alert sent via voice activation") w,
       Return ())
  | _, _ => triggerEmergencyAlert_catch w
  end.

(** *** startListening *)

(** The outer [catch (error)]. *)
Definition startListening_catch (e : Error) (w : World)
    : World * Step KStartListening unit :=
  (emit (ToastShow toast_error "Voice Detection Error")
     (setIsListening false
        (set_listeningLoopRef false
           (emit (ConsoleError "Error starting voice recognition") w))),
   Return ()).

(** The [catch (error)] inside the loop. *)
Definition loop_catch (e : Error) (w : World)
    : World * Step KStartListening unit :=
  (emit (ConsoleError "Listening loop error") w,
   Await (Timeout 2000) KL_backoff).

(** After the loop. *)
Definition loop_exit (w : World) : World * Step KStartListening unit :=
  (emit (ConsoleLog "Voice detection stopped") (setIsListening false w),
   Return ()).

Definition loop_delay (w : World) : World * Step KStartListening unit :=
  (w, Await (Timeout 300) KL_delay).

Definition afterStop (_ : unit) (w : World)
    : World * Step KStartListening unit :=
  loop_exit w.                                  (* break *)

Definition afterTrigger (_ : unit) (w : World)
    : World * Step KStartListening unit :=
  await_call (stopListening w) KL_stop afterStop loop_catch.

Definition afterTranscribe (result : TranscriptionResult) (w : World)
    : World * Step KStartListening unit :=
  if success result then
    if hasVoice result && negb (String.eqb (transcript result) "") then
      let w := emit (ConsoleLog "You said:") w in
      if containsKeyword result then
        let w := emit (ConsoleLog "ASTRA DETECTED! Triggering SOS...") w in
        let w := emit (ToastShow toast_error "EMERGENCY ALERT") w in
        await_call (triggerEmergencyAlert w) KL_trigger afterTrigger
          loop_catch
      else loop_delay w
    else loop_delay w
  else loop_delay (emit (ConsoleLog "Transcription failed") w).

Definition afterRecord (audioUri : option nat) (w : World)
    : World * Step KStartListening unit :=
  match audioUri with
  | None => (w, Await (Timeout 1000) KL_retry)
  | Some uri =>
      if negb (listeningLoopRef w) then loop_exit w        (* break *)
      else await_call (transcribeAudio uri w) KL_transcribe
             afterTranscribe loop_catch
  end.

(** [while (listeningLoopRef.current) { try { ... } ... }] from the test
    of its condition. *)
Definition loop (w : World) : World * Step KStartListening unit :=
  if listeningLoopRef w then
    await_call (recordChunk 3000 w) KL_record afterRecord loop_catch
  else loop_exit w.

Definition afterInitialize (initialized : bool) (w : World)
    : World * Step KStartListening unit :=
  if negb initialized then
    (emit (ToastShow toast_error "Microphone Access Required") w, Return ())
  else
    let w := set_listeningLoopRef true w in
    let w := setIsListening true w in
    let w := emit (ConsoleLog "Voice detection started (real-time)") w in
    let w := emit (ToastShow toast_info "Voice Detection Active") w in
    loop w.

Definition startListening (w : World) : World * Step KStartListening unit :=
  if listeningLoopRef w then
    (emit (ConsoleLog "Already listening, skipping...") w, Return ())
  else
    await_call (initialize w) KL_initialize afterInitialize
      startListening_catch.

Definition startListening_resume (k : KStartListening) (v : Settled)
    (w : World) : World * Step KStartListening unit :=
  match k with
  | KL_initialize ki =>
      await_call (initialize_resume ki v w) KL_initialize afterInitialize
        startListening_catch
  | KL_record kr =>
      await_call (recordChunk_resume kr v w) KL_record afterRecord
        loop_catch
  | KL_transcribe kt =>
      await_call (transcribeAudio_resume kt v w) KL_transcribe
        afterTranscribe loop_catch
  | KL_trigger kd =>
      await_call (triggerEmergencyAlert_resume kd v w) KL_trigger
        afterTrigger loop_catch
  | KL_stop ks =>
      await_call (stopListening_resume ks v w) KL_stop afterStop loop_catch
  | KL_retry | KL_delay =>
      match v with
      | Fulfilled _ => loop w                   (* next iteration *)
      | Rejected e => loop_catch e w
      end
  | KL_backoff =>
      match v with
      | Fulfilled _ => loop w
      | Rejected e => startListening_catch e w
      end
  end.

(** *** toggleVoiceDetection *)

Definition toggle_disabled (_ : unit) (w : World) : World * Step KToggle unit :=
  (emit (ToastShow toast_info "Voice Detection Disabled")
     (setVoiceEnabled false w),
   Return ()).

Definition toggle_throw (e : Error) (w : World) : World * Step KToggle unit :=
  (w, Throw e).

Definition toggleVoiceDetection (w : World) : World * Step KToggle unit :=
  let newState := negb isEnabled in
  if negb newState then
    await_call (stopListening w) KG_stop toggle_disabled toggle_throw
  else
    (setVoiceEnabled true w, Await (Timeout 500) KG_wait).

Definition toggleVoiceDetection_resume (k : KToggle) (v : Settled)
    (w : World) : World * Step KToggle unit :=
  match k with
  | KG_stop ks =>
      await_call (stopListening_resume ks v w) KG_stop toggle_disabled
        toggle_throw
  | KG_wait =>
      match v with
      | Fulfilled _ =>
          await_call (startListening w) KG_start (fun _ w => (w, Return ()))
            toggle_throw
      | Rejected e => (w, Throw e)
      end
  | KG_start kl =>
      await_call (startListening_resume kl v w) KG_start
        (fun _ w => (w, Return ())) toggle_throw
  end.

(** *** The app-state listener of the mount effect

    Neither call is awaited: a call that suspends goes on as a task of
    its own, returned here. *)
Inductive Spawned : Type :=
| SpawnNone
| SpawnStart (op : Op) (k : KStartListening)
| SpawnStop (op : Op) (k : KStopListening).

Definition handleAppStateChange (nextAppState : AppStateStatus) (w : World)
    : World * Spawned :=
  let resume :=
    match nextAppState with active => true | _ => false end
    && isEnabled && listeningLoopRef w in
  if resume then
    (* Resume if was listening before *)
    match startListening w with
    | (w', Await op k) => (w', SpawnStart op k)
    | (w', _) => (w', SpawnNone)
    end
  else
    match nextAppState with
    | background | inactive =>
        (* Pause when app goes to background *)
        match stopListening w with
        | (w', Await op k) => (w', SpawnStop op k)
        | (w', _) => (w', SpawnNone)
        end
    | _ => (w, SpawnNone)
    end.

End Provider.

End VoiceContext.

(** ** The running app

  The providers of [App.tsx], the pending awaits of their asynchronous
  functions, and what can happen next: time passes, a pending await
  settles, the accelerometer delivers a sample, the app state changes,
  the user presses a toggle or picks a sensitivity, the location provider
  publishes a location. *)

Module App.

Import VoiceService VoiceContext.

(** The asynchronous calls nobody awaits, each with the
    [currentLocation] of the closure it runs in where it can read it. *)
Inductive Task : Type :=
| TInit (k : KInitialize)
    (* init() of VoiceProvider's mount effect *)
| TToggleVoice (loc : option LocationData) (k : KToggle)
    (* onPress={toggleVoiceDetection} *)
| TStartListening (loc : option LocationData) (k : KStartListening)
| TStopListening (k : KStopListening)
    (* startListening() and stopListening() of handleAppStateChange *)
| THandleShake (k : KDispatch).
    (* the callback of shakeDetectionService *)

(** A suspended task: the promise it awaits and when it began to. *)
Record Pending : Type := mkPending {
  task     : Task;
  awaiting : Op;
  since    : Z
}.

Record State : Type := mkState {
  world   : World;
  pending : list Pending
}.

(** How the outside settles a promise. *)
Inductive Answer : Type :=
| Resolves
| Rejects (e : Error)
| Permission (granted : bool)
| RecStatus (isRecording isDoneRecording : bool)
| Response (data : option ResponseData).

Definition settle (op : Op) (a : Answer) (w : World) : World * Settled :=
  match a with
  | Rejects e => (w, Rejected e)
  | Resolves =>
      match op with
      | GetItem key => (w, Fulfilled (VItem (storage w !! key)))
      | SetItem key v =>
          (set_storage (<[key := v]> (storage w)) w, Fulfilled VUnit)
      | _ => (w, Fulfilled VUnit)
      end
  | Permission granted => (w, Fulfilled (VPermission granted))
  | RecStatus r d => (w, Fulfilled (VRecStatus r d))
  | Response data => (w, Fulfilled (VResponse data))
  end.

(** A timer does not fire before its delay has passed. *)
Definition ready (p : Pending) (now : Z) : bool :=
  match awaiting p with
  | Timeout ms => since p + ms <=? now
  | _ => true
  end.

Definition as_task {K R : Type} (wrap : K -> Task) (r : World * Step K R)
    : World * Step Task unit :=
  match r with
  | (w, Await op k) => (w, Await op (wrap k))
  | (w, Return _) => (w, Return ())
  | (w, Throw e) => (w, Throw e)
  end.

Definition resumeTask (t : Task) (v : Settled) (w : World)
    : World * Step Task unit :=
  match t with
  | TInit k => as_task TInit (initialize_resume k v w)
  | TToggleVoice loc k =>
      as_task (TToggleVoice loc) (toggleVoiceDetection_resume loc k v w)
  | TStartListening loc k =>
      as_task (TStartListening loc) (startListening_resume loc k v w)
  | TStopListening k => as_task TStopListening (stopListening_resume k v w)
  | THandleShake k =>
      as_task THandleShake (ShakeContext.handleShakeDetected_resume k v w)
  end.

(** A call that nobody awaits runs to its first await and is then
    pending; an exception it ends with is an unhandled rejection. *)
Definition spawn (r : World * Step Task unit) (ps : list Pending)
    : State :=
  match r with
  | (w, Await op t) => mkState w (ps ++ [mkPending t op (clock w)])
  | (w, Return _) => mkState w ps
  | (w, Throw _) =>
      mkState (emit (ConsoleError "Unhandled promise rejection") w) ps
  end.

(** The callbacks the shake service invoked, in order. *)
Fixpoint invoke (cbs : list ShakeCallback) (s : State) : State :=
  match cbs with
  | [] => s
  | cb :: rest =>
      invoke rest
        (spawn (as_task THandleShake
                  (ShakeContext.handleShakeDetected
                     (cb_currentLocation cb) (world s)))
           (pending s))
  end.

(** ShakeProvider re-renders with changed dependencies: the cleanup of
    its previous effect runs, then the effect of the new render. *)
Definition rerunShakeEffect (w : World) : World :=
  let w := ShakeContext.effect_cleanup w in
  let w := set_shakeClosure (currentLocation w) w in
  ShakeContext.effect (currentLocation w) (shakeEnabled w) (sensitivity w) w.

Inductive Action : Type :=
| Tick (ms : Z)
| Settle (i : nat) (a : Answer)
| AccelerometerUpdate (d : AccelerometerData)
| AppStateChanged (next : AppStateStatus)
| PressToggleVoice
| PressToggleShake
| SelectSensitivity (s : Sensitivity)
| LocationChanged (loc : LocationData).

Definition step (a : Action) (s : State) : State :=
  let w := world s in
  match a with
  | Tick ms =>
      if ms <? 0 then s
      else mkState (set_clock (clock w + ms) w) (pending s)
  | Settle i ans =>
      match pending s !! i with
      | Some p =>
          if ready p (clock w) then
            let '(w1, v) := settle (awaiting p) ans w in
            match resumeTask (task p) v w1 with
            | (w2, Await op t) =>
                mkState w2 (<[i := mkPending t op (clock w2)]> (pending s))
            | (w2, Return _) => mkState w2 (delete i (pending s))
            | (w2, Throw _) =>
                mkState (emit (ConsoleError "Unhandled promise rejection") w2)
                  (delete i (pending s))
            end
          else s
      | None => s
      end
  | AccelerometerUpdate d =>
      let '(sh, cbs) :=
        ShakeService.deliver (ShakeService.listeners (accelerometer w))
          (clock w) d (shake w) in
      invoke cbs (mkState (set_shake (accelerometer w, sh) w) (pending s))
  | AppStateChanged next =>
      (* VoiceProvider's listener is the one of the mount effect: its
         isEnabled and currentLocation are those of the first render *)
      let '(w1, sp) := VoiceContext.handleAppStateChange None false next w in
      let ps :=
        match sp with
        | SpawnNone => pending s
        | SpawnStart op k =>
            pending s ++ [mkPending (TStartListening None k) op (clock w1)]
        | SpawnStop op k =>
            pending s ++ [mkPending (TStopListening k) op (clock w1)]
        end in
      mkState
        (ShakeContext.handleAppStateChange (shakeClosure w1)
           (shakeEnabled w1) (sensitivity w1) next w1)
        ps
  | PressToggleVoice =>
      spawn (as_task (TToggleVoice (currentLocation w))
               (toggleVoiceDetection (voiceEnabled w) w))
        (pending s)
  | PressToggleShake =>
      mkState
        (rerunShakeEffect
           (ShakeContext.toggleShakeDetection (currentLocation w)
              (shakeEnabled w) (sensitivity w) w))
        (pending s)
  | SelectSensitivity sens =>
      let w1 := ShakeContext.setSensitivity sens w in
      mkState
        (if bool_decide (sens = sensitivity w) then w1
         else rerunShakeEffect w1)
        (pending s)
  | LocationChanged loc =>
      mkState (setCurrentLocation (Some loc) w) (pending s)
  end.

Definition run (acts : list Action) (s : State) : State :=
  foldl (fun s a => step a s) s acts.

(** Before the providers mount. *)
Definition blank : World :=
  {| voice := mkVoice None false false false 0;
     listeningLoopRef := false;
     isListening := false;
     voiceEnabled := false;
     shake := ShakeService.initial;
     accelerometer := ShakeService.noListeners;
     shakeEnabled := true;
     sensitivity := medium;
     shakeClosure := None;
     currentLocation := None;
     storage := ∅;
     clock := 0;
     log := [] |}.

(** The app once its providers have mounted at time [now] with [store]
    in AsyncStorage: ShakeProvider's effect has started shake detection,
    VoiceProvider's has called [init()]. *)
Definition mounted (now : Z) (store : gmap string Stored) : State :=
  let w := set_storage store (set_clock now blank) in
  let s := spawn (as_task TInit (initialize w)) [] in
  mkState (ShakeContext.effect (currentLocation w) (shakeEnabled w)
             (sensitivity w) (world s))
    (pending s).

(** *** What is outstanding in a state *)

Definition loopOf (t : Task) : option KStartListening :=
  match t with
  | TToggleVoice _ (KG_start k) => Some k
  | TStartListening _ k => Some k
  | _ => None
  end.

(** Inside [recordChunk], past its lock. *)
Definition capturing (t : Task) : bool :=
  match loopOf t with Some (KL_record _) => true | _ => false end.

(** Inside [transcribeAudio]. *)
Definition transcribing (t : Task) : bool :=
  match loopOf t with Some (KL_transcribe _) => true | _ => false end.

(** Inside [handleShakeDetected] or [triggerEmergencyAlert], past the
    location check. *)
Definition dispatching (t : Task) : bool :=
  match t with
  | THandleShake _ => true
  | _ => match loopOf t with Some (KL_trigger _) => true | _ => false end
  end.

Definition outstanding (which : Task -> bool) (s : State) : nat :=
  length (filter (fun p => which (task p) = true) (pending s)).

(** The alerts persisted under ['demo_alerts']. *)
Definition savedAlerts (s : State) : list AlertRecord :=
  match storage (world s) !! "demo_alerts" with
  | Some (SAlerts als) => als
  | _ => []
  end.

End App.

(** ** Measures and single-task runs used to state the properties *)

Module Runs.

Import VoiceService VoiceContext App.

(** The continuations of [startListening] after a keyword match: inside
    [triggerEmergencyAlert] or inside the [stopListening] that follows. *)
Definition post_keyword (k : KStartListening) : bool :=
  match k with
  | KL_trigger _ | KL_stop _ => true
  | _ => false
  end.

(** A bound on the awaits that are left before the function returns. *)
Definition left_forceCleanup (k : KForceCleanup) : nat :=
  match k with KF_stop => 2 | KF_delay => 1 end.

Definition left_stopRecording (k : KStopRecording) : nat :=
  match k with KS_status => 5 | KS_stop => 4 | KS_retry => 3 end.

Definition left_cleanup (k : KCleanup) : nat :=
  match k with
  | KC_stopRecording ks => left_stopRecording ks
  | KC_forceCleanup kf => left_forceCleanup kf
  end.

Definition left_stopListening (k : KStopListening) : nat :=
  match k with
  | KSL_wait => 6
  | KSL_cleanup kc => left_cleanup kc
  end.

Definition left_dispatch (k : KDispatch) : nat :=
  match k with
  | KD_guardians _ => 10
  | KD_alerts _ _ _ => 9
  | KD_save _ _ => 8
  | KD_sms _ _ => 7
  end.

Definition awaits_left (k : KStartListening) : nat :=
  match k with
  | KL_trigger kd => left_dispatch kd
  | KL_stop ks => left_stopListening ks
  | _ => 0
  end.

(** A call of [startListening] suspended at [op] with continuation [k],
    run with nothing else in between: its awaits settle in turn as
    [answers] say. *)
Fixpoint listenAlone (loc : option LocationData) (answers : list Answer)
    (w : World) (op : Op) (k : KStartListening)
    : World * Step KStartListening unit :=
  match answers with
  | [] => (w, Await op k)
  | a :: rest =>
      let '(w1, v) := settle op a w in
      match startListening_resume loc k v w1 with
      | (w2, Await op' k') => listenAlone loc rest w2 op' k'
      | r => r
      end
  end.

(** The same for a dispatch handler, given by its resume function. *)
Fixpoint dispatchAlone
    (resume : KDispatch -> Settled -> World -> World * Step KDispatch unit)
    (answers : list Answer) (r : World * Step KDispatch unit)
    : World * Step KDispatch unit :=
  match answers, r with
  | a :: rest, (w, Await op k) =>
      let '(w1, v) := settle op a w in
      dispatchAlone resume rest (resume k v w1)
  | _, _ => r
  end.

(** One turn of the listening loop from its inter-chunk delay, in which
    the capture succeeds and the transcription request fails with [e]:
    the delay; [forceCleanup]'s delay; prepare, start, the 3000 ms, stop
    and the 100 ms of [recordChunk]; the token; the request. *)
Definition failingTurn (e : Error) : list Answer :=
  [Resolves; Resolves; Resolves; Resolves; Resolves; Resolves; Resolves;
   Resolves; Rejects e].

(** What the loop needs to start a capture at its head: it was not asked
    to stop, the recording lock is free, no recording is left over, and
    there is an auth token. *)
Definition can_capture (w : World) : Prop :=
  listeningLoopRef w = true
  /\ recordingLock (voice w) = false
  /\ recording (voice w) = None
  /\ truthy (storage w !! "token") = true.

(** What the closures of the providers depend on, and a task's
    [currentLocation] where its closure has one. *)
Definition closures (w : World) :=
  (currentLocation w, shakeClosure w,
   ShakeService.onShakeCallback (shake w)).

Definition taskLocation (t : Task) : option (option LocationData) :=
  match t with
  | TToggleVoice loc _ | TStartListening loc _ => Some loc
  | _ => None
  end.

(** No closure that can dispatch holds a location: not those of
    ShakeProvider's effect, not the callback registered with the shake
    service, not a pending call of the voice provider. *)
Definition no_location_seen (s : State) : Prop :=
  shakeClosure (world s) = None
  /\ (forall cb, ShakeService.onShakeCallback (shake (world s)) = Some cb ->
                cb_currentLocation cb = None)
  /\ (forall p loc, p ∈ pending s -> taskLocation (task p) = Some loc ->
                   loc = None).

End Runs.

(** ** Concrete inputs used in the examples *)

(** A sample of 4 g along the z axis. *)
Definition strongSample : AccelerometerData := mkAccel 0 0 4.

(** The service after [start(onShake, 'medium')], with a callback that
    carries nothing. *)
Definition startedMedium : ShakeService.t unit :=
  snd (ShakeService.start () (Some medium) ShakeService.noListeners
         ShakeService.initial).

Definition home : LocationData :=
  {| latitude := 12.5; longitude := 77.25; address := Some "Home";
     timestamp := 999000 |}.

(** AsyncStorage holding an auth token and nothing else. *)
Definition tokenOnly : gmap string Stored := <["token" := SText "tok"]> ∅.

(** A response of the transcription endpoint that reports the keyword but
    carries no transcript and no [hasVoice] field. *)
Definition keywordNoTranscript : ResponseData :=
  {| d_success := true; d_transcript := None;
     d_containsKeyword := Some true; d_hasVoice := None |}.

(** A world in which the listening loop runs. *)
Definition listeningWorld : World :=
  set_listeningLoopRef true (set_storage tokenOnly App.blank).

(** A transcription result that reports the keyword in the transcript
    [Astra]. *)
Definition heardAstra : VoiceService.TranscriptionResult :=
  {| VoiceService.success := true; VoiceService.transcript := "Astra";
     VoiceService.containsKeyword := true; VoiceService.hasVoice := true |}.

(** ** Schedules used in the examples

  Each runs from [App.mounted 1000000 tokenOnly], where the only pending
  await (number 0) is the permission request of [init()]. *)

Module Schedules.

Import App.

Definition start0 : State := mounted 1000000 tokenOnly.

(** The location arrives and the user picks the high sensitivity, which
    re-runs ShakeProvider's effect with the location in its closures.  A
    shake at 1000000 starts a dispatch (pending await 1); its three
    storage operations take 5 ms, so its 1000 ms timer runs until
    1001005.  A second shake arrives at 1001001. *)
Definition shakeAlertSaved : list Action :=
  [ LocationChanged home; SelectSensitivity high;
    AccelerometerUpdate strongSample;
    Tick 2; Settle 1 Resolves;        (* getItem('demo_guardians') *)
    Tick 2; Settle 1 Resolves;        (* getItem('demo_alerts') *)
    Tick 1; Settle 1 Resolves ].      (* setItem('demo_alerts') *)

Definition untilSecondShake : list Action := shakeAlertSaved ++ [Tick 996].

Definition twoShakes : list Action :=
  untilSecondShake ++ [AccelerometerUpdate strongSample].

(** The second dispatch (pending await 2) runs up to its timer. *)
Definition secondDispatchSaves : list Action :=
  [ Settle 2 Resolves; Settle 2 Resolves; Settle 2 Resolves ].

(** [init()] is granted the microphone; the user enables voice
    detection; after the 500 ms of the toggle [startListening] runs
    (pending await 0) and its first [recordChunk] goes through
    [forceCleanup]'s delay, prepare and start: from 1000550 it waits the
    3000 ms of the chunk. *)
Definition listeningUp : list Action :=
  [ Settle 0 (Permission true); Settle 0 Resolves;
    PressToggleVoice; Tick 500; Settle 0 Resolves;
    Tick 50; Settle 0 Resolves;       (* forceCleanup's 50 ms *)
    Settle 0 Resolves;                (* prepareToRecordAsync *)
    Settle 0 Resolves ].              (* startAsync *)

(** A [stopListening] that is pending await 1 runs to its end: its
    500 ms, then [cleanup] (the status of the recording, stop and unload,
    [forceCleanup]'s 50 ms). *)
Definition stopCompletes : list Action :=
  [ Tick 500; Settle 1 Resolves;
    Settle 1 (RecStatus true false); Settle 1 Resolves;
    Tick 50; Settle 1 Resolves ].

(** The app goes to the background at 1001000, while the chunk is being
    recorded. *)
Definition backgrounded : list Action :=
  listeningUp ++ [Tick 450; AppStateChanged background].

(** [stopListening] completes; the loop's 3000 ms end at 1003550, its
    [recordChunk] finds no recording and returns null, and after the
    1000 ms retry delay the loop sees [listeningLoopRef] cleared and
    ends.  Then the app comes back to the foreground. *)
Definition foregrounded : list Action :=
  backgrounded ++ stopCompletes
  ++ [Tick 2000; Settle 0 Resolves; Tick 1000; Settle 0 Resolves]
  ++ [AppStateChanged active].

(** The user disables voice detection at 1001000, while the chunk is
    being recorded, and enables it again at 1001600, once
    [stopListening] has completed.  After the 500 ms of the toggle the
    second [startListening] (pending await 1) initializes the audio
    again and calls [recordChunk] at 1002100, 1450 ms before the first
    call's 3000 ms end. *)
Definition stopThenStart : list Action :=
  listeningUp ++ [Tick 450; PressToggleVoice] ++ stopCompletes
  ++ [ Tick 50; PressToggleVoice; Tick 500; Settle 1 Resolves;
       Settle 1 (Permission true); Settle 1 Resolves ].

(** The second call records (its 3000 ms run from 1002150); at 1003550
    the first call's 3000 ms end: it stops the recording it finds, waits
    its 100 ms and returns, and the first loop goes on to transcribe. *)
Definition firstLoopGoesOn : list Action :=
  stopThenStart
  ++ [ Tick 50; Settle 1 Resolves; Settle 1 Resolves; Settle 1 Resolves;
       Tick 1400; Settle 0 Resolves; Settle 0 Resolves;
       Tick 100; Settle 0 Resolves ].

End Schedules.

(** ** Progress of the asynchronous functions, and what the shake
    provider keeps *)

Module Progress.

Import VoiceService VoiceContext App Runs.

(** What a function did when it ran from a point with at most [bound]
    awaits ahead: it suspended with fewer awaits ahead, it returned [x]
    in a world [w] with [returns w x], or it threw [e] in a world [w] with
    [throws w e]. *)
Definition advances {K R : Type} (left : K -> nat) (bound : nat)
    (returns : World -> R -> Prop) (throws : World -> Error -> Prop)
    (r : World * Step K R) : Prop :=
  match r with
  | (_, Await _ k) => (left k < bound)%nat
  | (w, Return x) => returns w x
  | (w, Throw e) => throws w e
  end.

Definition never {A : Type} (_ : World) (_ : A) : Prop := False.

(** [r] is not an exception, or it is one that [allowed] admits. *)
Definition throws_only {K R : Type} (allowed : Error -> Prop)
    (r : World * Step K R) : Prop :=
  match r with
  | (_, Throw e) => allowed e
  | _ => True
  end.

Definition left_initialize (k : KInitialize) : nat :=
  match k with KI_permissions => 2 | KI_audioMode => 1 end.

Definition left_recordChunk (k : KRecordChunk) : nat :=
  match k with
  | KR_forceCleanup _ kf => 6 + left_forceCleanup kf
  | KR_prepare _ => 6
  | KR_start _ => 5
  | KR_wait => 4
  | KR_stop => 3
  | KR_release _ => 2
  | KR_catchStop => 1
  end.

(** The fields of the shake service, of the accelerometer module and of
    ShakeProvider. *)
Definition shakeSide (w : World) :=
  (shake w, accelerometer w, shakeEnabled w, sensitivity w).

(** The shake service as ShakeProvider keeps it: the debounce is 1000 ms,
    the threshold is that of the selected sensitivity, and the
    accelerometer has the listener of the subscription, with the callback
    set and shake detection enabled, or no listener and no callback. *)
Definition shake_consistent (w : World) : Prop :=
  ShakeService.shakeTimeout (shake w) = 1000
  /\ ShakeService.shakeThreshold (shake w)
     = ShakeService.thresholdOf (sensitivity w)
  /\ match ShakeService.subscription (shake w) with
     | Some h =>
         ShakeService.listeners (accelerometer w) = [h]
         /\ is_Some (ShakeService.onShakeCallback (shake w))
         /\ shakeEnabled w = true
     | None =>
         ShakeService.listeners (accelerometer w) = []
         /\ ShakeService.onShakeCallback (shake w) = None
     end.

End Progress.

(** ** Further concrete inputs *)

(** The alerts the two handlers build at time [t] with the location
    [home]. *)
Definition shakeAlertAt (t : Z) : AlertRecord :=
  mkAlert t "manual" "ACTIVE" (latitude home) (longitude home)
    (address home) "Emergency alert triggered by shake detection" t.

Definition voiceAlertAt (t : Z) : AlertRecord :=
  mkAlert t "voice" "ACTIVE" (latitude home) (longitude home)
    (address home)
    (String.append "Emergency alert triggered by voice command "
       (String.append dquote (String.append "Astra" dquote))) t.

(** ** The dispatch a task is in *)

Module Dispatches.

Import VoiceService VoiceContext App.

(** The continuation of the dispatch handler a task is suspended in:
    [handleShakeDetected] itself, or [triggerEmergencyAlert] awaited by
    the listening loop, whichever call started the loop. *)
Definition dispatchOf (t : Task) : option KDispatch :=
  match t with
  | THandleShake k => Some k
  | _ => match loopOf t with
         | Some (KL_trigger k) => Some k
         | _ => None
         end
  end.

(** The handler that runs when such a task is resumed. *)
Definition handlerOf (t : Task)
    : KDispatch -> Settled -> World -> World * Step KDispatch unit :=
  match t with
  | THandleShake _ => ShakeContext.handleShakeDetected_resume
  | _ => triggerEmergencyAlert_resume
  end.

End Dispatches.

(** ** Further schedules *)

(** A response of the transcription endpoint that heard the keyword. *)
Definition astraResponse : ResponseData :=
  {| d_success := true; d_transcript := Some "Astra";
     d_containsKeyword := Some true; d_hasVoice := Some true |}.

Module Schedules2.

Import App Schedules.

(** The audio is initialized and the user enables voice detection; the
    first chunk is recorded (the 3000 ms run from 1000550) and, at
    1003650, is about to be sent: the loop has asked for the token. *)
Definition untilTranscribing : list Action :=
  [ Settle 0 (Permission true); Settle 0 Resolves;
    PressToggleVoice; Tick 500; Settle 0 Resolves;
    Tick 50; Settle 0 Resolves;       (* forceCleanup's 50 ms *)
    Settle 0 Resolves;                (* prepareToRecordAsync *)
    Settle 0 Resolves;                (* startAsync *)
    Tick 3000; Settle 0 Resolves;     (* the 3000 ms of the chunk *)
    Settle 0 Resolves;                (* stopAndUnloadAsync *)
    Tick 100; Settle 0 Resolves ].    (* the 100 ms before the return *)

(** The token is read, the audio is sent and the endpoint reports the
    keyword. *)
Definition heard : list Action :=
  [ Settle 0 Resolves; Settle 0 (Response (Some astraResponse)) ].

(** The location arrives and the user picks the high sensitivity before
    enabling voice detection, so that both handlers hold the location.
    The keyword is heard and the phone is shaken in the same millisecond:
    the dispatch of the loop (pending await 0) and the shake handler
    (pending await 1) both read the guardians and ask for the saved
    alerts. *)
Definition keywordAndShake : list Action :=
  [ LocationChanged home; SelectSensitivity high ]
  ++ untilTranscribing ++ heard
  ++ [ AccelerometerUpdate strongSample;
       Settle 0 Resolves; Settle 1 Resolves ].



End Schedules2.

(** ** The listening loop after a stop request *)

Module Stopping.

Import VoiceService VoiceContext Runs Progress.

(** [startListening] is past its call of [initialize] (after which it
    sets [listeningLoopRef] itself). *)
Definition past_initialize (k : KStartListening) : bool :=
  match k with KL_initialize _ => false | _ => true end.

(** A bound on the awaits that are left to the loop while
    [listeningLoopRef] is clear. *)
Definition left_stopped (k : KStartListening) : nat :=
  match k with
  | KL_initialize _ => 0
  | KL_record kr => 2 + left_recordChunk kr
  | KL_retry | KL_delay => 2
  | KL_backoff => 1
  | KL_transcribe (KT_token _) => 12
  | KL_transcribe KT_post => 11
  | KL_trigger kd => left_dispatch kd
  | KL_stop ks => left_stopListening ks
  end.

End Stopping.


(** * Properties *)

(** ** The shake detector *)

Module ShakeFacts.

Import ShakeService.

Section WithCallback.

Context {CB : Type}.
Implicit Types (s : ShakeService.t CB) (d : AccelerometerData).

(** The listener fires, that is invokes the registered callback, exactly
    on a sample above the threshold that comes more than [shakeTimeout]
    after [lastShakeTime]. *)
Lemma listener_fires s now d cb :
  onShakeCallback s = Some cb ->
  snd (listener now d s) = Some cb <->
  PrimFloat.ltb (shakeThreshold s) (acceleration d) = true
  /\ shakeTimeout s < now - lastShakeTime s.
Proof.
  intros Hcb. unfold listener.
  destruct (PrimFloat.ltb _ _); [|cbn; split; [discriminate|intros []; discriminate]].
  destruct (Z.ltb_spec (shakeTimeout s) (now - lastShakeTime s)); cbn.
  - rewrite Hcb. split; auto.
  - split; [discriminate|]. intros [_ ?]; lia.
Qed.

(** What a sample leaves of the service: only [lastShakeTime] can change,
    and it becomes the time of the sample exactly when the sample is
    taken for a shake. *)
Lemma listener_state s now d :
  let s' := fst (listener now d s) in
  subscription s' = subscription s
  /\ shakeThreshold s' = shakeThreshold s
  /\ shakeTimeout s' = shakeTimeout s
  /\ onShakeCallback s' = onShakeCallback s
  /\ lastShakeTime s' =
       if PrimFloat.ltb (shakeThreshold s) (acceleration d)
          && (shakeTimeout s <? now - lastShakeTime s)
       then now else lastShakeTime s.
Proof.
  unfold listener.
  destruct (PrimFloat.ltb _ _); cbn; [|tauto].
  destruct (_ <? _); cbn; tauto.
Qed.

Lemma feed_cons s now d rest :
  feed ((now, d) :: rest) s =
  bool_decide (is_Some (snd (listener now d s)))
    :: feed rest (fst (listener now d s)).
Proof. cbn. destruct (listener now d s); reflexivity. Qed.

Lemma fired_flag s now d cb :
  onShakeCallback s = Some cb ->
  bool_decide (is_Some (snd (listener now d s))) =
  PrimFloat.ltb (shakeThreshold s) (acceleration d)
  && (shakeTimeout s <? now - lastShakeTime s).
Proof.
  intros Hcb. unfold listener.
  destruct (PrimFloat.ltb _ _); [|reflexivity].
  destruct (_ <? _); [|reflexivity].
  cbn [snd andb]. rewrite Hcb. reflexivity.
Qed.

(** The flag [feed] computes for the sample at position [i]:
    [lastShakeTime] is, all along, the time of the last sample taken for
    a shake. *)
Lemma feed_lookup samples : forall s i now d cb,
  onShakeCallback s = Some cb ->
  samples !! i = Some (now, d) ->
  feed samples s !! i =
    Some (PrimFloat.ltb (shakeThreshold s) (acceleration d)
          && (shakeTimeout s <?
                now - lastFired (lastShakeTime s) (take i samples)
                        (take i (feed samples s)))).
Proof.
  induction samples as [|[now0 d0] rest IH]; intros s i now d cb Hcb Hi.
  - discriminate.
  - rewrite feed_cons, (fired_flag _ _ _ cb Hcb).
    destruct (listener_state s now0 d0) as (_ & Hth & Hto & Hcb' & Hlast).
    destruct i as [|i]; cbn in Hi.
    + injection Hi as -> ->. reflexivity.
    + cbn [take lastFired].
      change ((?x :: ?l) !! S i) with (l !! i).
      rewrite (IH _ i now d cb); [|congruence|assumption].
      rewrite Hth, Hto, Hlast. reflexivity.
Qed.

(** C2, as amended: for every sequence of timed samples fed to the
    listener of a detector started with sensitivity [sens], the callback
    is invoked on the sample at position [i] if and only if the sample's
    magnitude exceeds [thresholdOf sens] and MORE THAN 1000 ms have passed
    since the last sample taken for a shake (since [lastShakeTime] when
    there was none).  In particular three shakes at [T], [T + 500] and
    [T + 1100] invoke it on the first and the third only. *)
Theorem shake_fires_iff (s0 : ShakeService.t CB) (a : Accelerometer)
    (cb : CB) (sens : Sensitivity)
    (samples : list (Z * AccelerometerData)) (i : nat) (now : Z) d
    (T : Z) (d1 d2 d3 : AccelerometerData) :
  let s := snd (start cb (Some sens) a s0) in
  shakeTimeout s0 = 1000 ->
  samples !! i = Some (now, d) ->
  PrimFloat.ltb (thresholdOf sens) (acceleration d1) = true ->
  PrimFloat.ltb (thresholdOf sens) (acceleration d2) = true ->
  PrimFloat.ltb (thresholdOf sens) (acceleration d3) = true ->
  1000 < T - lastShakeTime s0 ->
  (feed samples s !! i = Some true <->
     PrimFloat.ltb (thresholdOf sens) (acceleration d) = true
     /\ 1000 < now - lastFired (lastShakeTime s0) (take i samples)
                       (take i (feed samples s)))
  /\ feed [(T, d1); (T + 500, d2); (T + 1100, d3)] s = [true; false; true].
Proof.
  intros s Hto Hi H1 H2 H3 HT.
  assert (Hcb : onShakeCallback s = Some cb) by reflexivity.
  split.
  - rewrite (feed_lookup samples s i now d cb Hcb Hi).
    change (shakeThreshold s) with (thresholdOf sens).
    change (shakeTimeout s) with (shakeTimeout s0).
    change (lastShakeTime s) with (lastShakeTime s0).
    rewrite Hto. split.
    + intros [= H]. apply andb_true_iff in H as [? ?]. split; [assumption|lia].
    + intros [-> H]. f_equal. apply Z.ltb_lt in H. rewrite H. reflexivity.
  - pose proof (listener_state s T d1) as (_ & Hth1 & Hto1 & Hcb1 & Hl1).
    set (s1 := fst (listener T d1 s)) in *.
    pose proof (listener_state s1 (T + 500) d2)
      as (_ & Hth2 & Hto2 & Hcb2 & Hl2).
    set (s2 := fst (listener (T + 500) d2 s1)) in *.
    rewrite Hcb1 in Hcb2.
    rewrite !feed_cons. fold s1. fold s2.
    rewrite (fired_flag s _ _ cb Hcb), (fired_flag s1 _ _ cb Hcb1),
      (fired_flag s2 _ _ cb Hcb2).
    change (feed [] _) with (@nil bool).
    rewrite Hth2, Hto2, Hl2, Hth1, Hto1, Hl1.
    change (shakeThreshold s) with (thresholdOf sens).
    change (shakeTimeout s) with (shakeTimeout s0).
    change (lastShakeTime s) with (lastShakeTime s0).
    rewrite Hto, H1, H2, H3. cbn [andb].
    assert (E1 : (1000 <? T - lastShakeTime s0) = true) by (apply Z.ltb_lt; lia).
    rewrite E1.
    assert (E2 : (1000 <? T + 500 - T) = false) by (apply Z.ltb_ge; lia).
    rewrite E2.
    assert (E3 : (1000 <? T + 1100 - T) = true) by (apply Z.ltb_lt; lia).
    rewrite E3. reflexivity.
Qed.

(** C7: [start] and [setSensitivity] set the threshold to 3.5 for
    [low], 2.5 for [medium] and 1.8 for [high]; so a sample of magnitude
    3.0 that is not debounced invokes the callback under [medium] and
    [high] and not under [low], whether the sensitivity was given to
    [start] or set by [setSensitivity]. *)
Theorem sensitivity_thresholds (s : ShakeService.t CB) (a : Accelerometer)
    (cb : CB) (now : Z) d :
  acceleration d = 3.0%float ->
  shakeTimeout s < now - lastShakeTime s ->
  (thresholdOf low = 3.5 /\ thresholdOf medium = 2.5
   /\ thresholdOf high = 1.8)%float
  /\ (forall sens,
        shakeThreshold (snd (start cb (Some sens) a s)) = thresholdOf sens
        /\ shakeThreshold (setSensitivity sens s) = thresholdOf sens)
  /\ shakeThreshold (snd (start cb None a s)) = thresholdOf medium
  /\ (forall sens,
        snd (listener now d (snd (start cb (Some sens) a s))) =
          match sens with low => None | _ => Some cb end
        /\ snd (listener now d (setSensitivity sens s)) =
          match sens with low => None | _ => onShakeCallback s end).
Proof.
  intros Hmag Hdeb. apply Z.ltb_lt in Hdeb.
  split; [repeat split|].
  split; [intros sens; split; reflexivity|].
  split; [reflexivity|].
  intros sens. unfold listener.
  cbn [start setSensitivity snd shakeThreshold shakeTimeout lastShakeTime
       onShakeCallback].
  rewrite Hmag, Hdeb.
  destruct sens; split; reflexivity.
Qed.

End WithCallback.

End ShakeFacts.


Module ShakeExamples.

Import ShakeService ShakeFacts.

(** C2 as stated fails at the boundary: with medium sensitivity a second
    strong sample exactly 1000 ms after a shake exceeds the threshold, and
    at least 1000 ms have passed since the last shake, yet the callback is
    not invoked on it. *)
Lemma debounce_boundary_counterexample :
  feed [(5000, strongSample); (6000, strongSample)] startedMedium
    = [true; false]
  /\ PrimFloat.ltb (shakeThreshold startedMedium) (acceleration strongSample)
     = true
  /\ 1000 <= 6000 - lastFired (lastShakeTime startedMedium)
                      [(5000, strongSample)] [true].
Proof. repeat split. vm_compute. discriminate. Qed.

(** [shake_fires_iff] at medium sensitivity: shakes at 5000, 5500 and
    6100. *)
Lemma shake_fires_iff_witness :
  feed [(5000, strongSample); (5500, strongSample); (6100, strongSample)]
    startedMedium = [true; false; true].
Proof.
  apply (shake_fires_iff initial noListeners () medium
           [(5000, strongSample)] 0 5000 strongSample
           5000 strongSample strongSample strongSample);
    first [reflexivity | cbn; lia].
Defined.

(** [sensitivity_thresholds] at the sample (0, 0, 3), whose magnitude is
    exactly 3.0. *)
Lemma sensitivity_thresholds_witness :
  snd (listener 5000 (mkAccel 0 0 3) (setSensitivity low startedMedium))
    = None
  /\ snd (listener 5000 (mkAccel 0 0 3) (setSensitivity high startedMedium))
    = Some ().
Proof.
  assert (H : acceleration (mkAccel 0 0 3) = 3.0%float) by reflexivity.
  assert (H' : shakeTimeout startedMedium < 5000 - lastShakeTime startedMedium)
    by (cbn; lia).
  pose proof (sensitivity_thresholds startedMedium noListeners () 5000
                (mkAccel 0 0 3) H H') as (_ & _ & _ & Hl).
  split; [exact (proj2 (Hl low)) | exact (proj2 (Hl high))].
Defined.

End ShakeExamples.

(** ** The voice recognition service *)

Module VoiceServiceFacts.

Import VoiceService.

(** C10: [transcribeAudio] never throws.  Its entry suspends on the token
    lookup; whatever its awaits settle to it suspends again or returns;
    when an await rejects (a storage failure, a timeout of the request, a
    network error, a response with an error status) and when there is no
    auth token it returns
    [{success: false, transcript: '', containsKeyword: false, hasVoice: false}]. *)
Theorem transcribeAudio_total (audioUri : nat) (k : KTranscribe)
    (v : Settled) (e : Error) (token : option Stored) (w : World) :
  transcribeAudio audioUri w = (w, Await (GetItem "token") (KT_token audioUri))
  /\ (forall e', snd (transcribeAudio_resume k v w) <> Throw e')
  /\ snd (transcribeAudio_resume k (Rejected e) w) = Return failure
  /\ snd (transcribeAudio_resume (KT_token audioUri) (Fulfilled (VItem token)) w)
     = (if truthy token then Await (Post audioUri) KT_post
        else Return failure)
  /\ failure = {| success := false; transcript := EmptyString;
                  containsKeyword := false; hasVoice := false |}.
Proof.
  split; [reflexivity|].
  split.
  - intros e'. unfold transcribeAudio_resume, transcribeAudio_catch.
    destruct k, v as [[| | |item|[data|]]|err]; cbn;
      try destruct (truthy item); try destruct err; cbn; discriminate.
  - split; [destruct k, e; reflexivity|].
    split; [|reflexivity].
    cbn. destruct (truthy token); reflexivity.
Qed.

End VoiceServiceFacts.

(** ** The listening loop *)

Module VoiceLoopFacts.

Import VoiceService VoiceContext App Runs.

(** Unfolds the asynchronous functions of the voice provider and of the
    voice service down to their case analyses. *)
Ltac unfold_voice :=
  unfold startListening_resume, afterStop, afterTrigger, afterTranscribe,
    afterRecord, loop, loop_exit, loop_delay, loop_catch,
    stopListening_resume, stopListening, stopListening_end,
    stopListening_catch, triggerEmergencyAlert_resume,
    triggerEmergencyAlert, triggerEmergencyAlert_catch,
    cleanup_resume, cleanup, cleanup_force, cleanup_end,
    stopRecording_resume, stopRecording, stopRecording_retry,
    stopRecording_end, forceCleanup_resume, forceCleanup,
    forceCleanup_rest, await_call in *.

(** After a keyword match every resumption of the loop's task either
    ends the task or leaves it in the dispatch or in [stopListening],
    with fewer awaits left; it never throws. *)
Lemma post_keyword_step loc k v w :
  post_keyword k = true ->
  match startListening_resume loc k v w with
  | (_, Await _ k') =>
      post_keyword k' = true /\ (awaits_left k' < awaits_left k)%nat
  | (w', Return _) => isListening w' = false
  | (_, Throw _) => False
  end.
Proof.
  intros Hk. destruct k as [| | | |kd|ks| |]; try discriminate.
  - destruct kd; unfold_voice; cbn;
      repeat case_match; simplify_eq; cbn; auto with lia.
  - destruct ks as [|[[]|[]]]; unfold_voice; cbn;
      repeat case_match; simplify_eq; cbn; auto with lia.
Qed.

(** The order after a match: the task leaves the dispatch only into
    [stopListening], and the loop only from [stopListening]. *)
Lemma dispatch_then_stop loc kd v w :
  match startListening_resume loc (KL_trigger kd) v w with
  | (_, Await _ (KL_trigger kd')) => (left_dispatch kd' < left_dispatch kd)%nat
  | (w', Await op (KL_stop ks)) =>
      ks = KSL_wait /\ op = Timeout 500 /\ listeningLoopRef w' = false
  | _ => False
  end.
Proof.
  cbn [startListening_resume].
  unfold triggerEmergencyAlert_resume, triggerEmergencyAlert_catch.
  destruct kd, v as [[]|]; cbn [await_call afterTrigger stopListening];
    try (cbn; auto with lia; fail).
  - destruct (parseGuardians _); cbn; auto with lia.
  - destruct (parseAlerts _); cbn; auto with lia.
Qed.

Lemma stop_then_exit loc ks v w :
  match startListening_resume loc (KL_stop ks) v w with
  | (_, Await _ (KL_stop ks')) =>
      (left_stopListening ks' < left_stopListening ks)%nat
  | (w', Return _) => isListening w' = false
  | _ => False
  end.
Proof.
  destruct w as [[r ir ii lk cr] ? ? ? ? ? ? ? ? ? ? ? ?].
  unfold_voice.
  destruct ks as [|[[]|[]]], v as [[]|]; cbn;
    repeat match goal with
    | |- context [match ?x with _ => _ end] => is_var x; destruct x
    | |- context [orb ?x _] => is_var x; destruct x; cbn [orb]
    end; cbn; auto with lia.
Qed.

(** C3, as amended: when the transcription result has [success],
    [hasVoice] and [containsKeyword] all true AND a non-empty transcript,
    the loop reports the match and calls [triggerEmergencyAlert] (which
    suspends on its first storage read, or, without a location, returns
    at once so that the loop goes on into [stopListening]).  From then on
    every resumption of the task, whatever its await settled to and
    whatever else ran in between, leaves it inside the dispatch or inside
    [stopListening] with fewer awaits left, or ends it with
    [isListening] false: the task never throws, never comes back to the
    head of the loop, hence never records again, and ends after at
    most 10 resumptions.  The order is fixed: when the dispatch returns,
    the task enters [stopListening], which clears [listeningLoopRef]
    and waits its 500 ms; the task never ends from inside the dispatch,
    and it leaves the loop only when [stopListening] has returned. *)
Theorem keyword_match_stops_loop (loc : option LocationData)
    (r : TranscriptionResult) (k : KStartListening) (v : Settled)
    (w : World) :
  success r = true ->
  hasVoice r = true ->
  containsKeyword r = true ->
  transcript r <> EmptyString ->
  post_keyword k = true ->
  let w1 :=
    emit (ToastShow toast_error "EMERGENCY ALERT")
      (emit (ConsoleLog "ASTRA DETECTED! Triggering SOS...")
         (emit (ConsoleLog "You said:") w)) in
  (forall w0 v0,
     transcribeAudio_resume KT_post v0 w0 = (w, Return r) ->
     startListening_resume loc (KL_transcribe KT_post) v0 w0 =
       afterTranscribe loc r w)
  /\ afterTranscribe loc r w =
       match loc with
       | Some l =>
           (w1, Await (GetItem "demo_guardians") (KL_trigger (KD_guardians l)))
       | None =>
           (set_listeningLoopRef false
              (emit (ConsoleLog "Stopping voice detection...")
                 (emit (ToastShow toast_error "Location not available") w1)),
            Await (Timeout 500) (KL_stop KSL_wait))
       end
  /\ match startListening_resume loc k v w with
     | (_, Await _ k') =>
         post_keyword k' = true /\ (awaits_left k' < awaits_left k)%nat
     | (w', Return _) => isListening w' = false
     | (_, Throw _) => False
     end
  /\ (forall kd w',
        triggerEmergencyAlert_resume kd v w = (w', Return ()) ->
        startListening_resume loc (KL_trigger kd) v w =
          (set_listeningLoopRef false
             (emit (ConsoleLog "Stopping voice detection...") w'),
           Await (Timeout 500) (KL_stop KSL_wait)))
  /\ (forall kd,
        match startListening_resume loc (KL_trigger kd) v w with
        | (_, Await _ (KL_trigger kd')) =>
            (left_dispatch kd' < left_dispatch kd)%nat
        | (w', Await op (KL_stop ks)) =>
            ks = KSL_wait /\ op = Timeout 500
            /\ listeningLoopRef w' = false
        | _ => False
        end)
  /\ (forall ks,
        match startListening_resume loc (KL_stop ks) v w with
        | (_, Await _ (KL_stop ks')) =>
            (left_stopListening ks' < left_stopListening ks)%nat
        | (w', Return _) => isListening w' = false
        | _ => False
        end).
Proof.
  intros Hs Hv Hk Ht Hpost w1. split; [|split; [|split; [|split; [|split]]]].
  - intros w0 v0 H. unfold startListening_resume, await_call.
    rewrite H. reflexivity.
  - unfold afterTranscribe. rewrite Hs, Hv, Hk.
    destruct (String.eqb_spec (transcript r) EmptyString) as [E|_];
      [contradiction|].
    destruct loc; reflexivity.
  - apply post_keyword_step, Hpost.
  - intros kd w' H. cbn [startListening_resume]. rewrite H. reflexivity.
  - intros kd. apply dispatch_then_stop.
  - intros ks. apply stop_then_exit.
Qed.

Lemma listenAlone_app loc l1 : forall l2 w op k,
  listenAlone loc (l1 ++ l2) w op k =
  match listenAlone loc l1 w op k with
  | (w', Await op' k') => listenAlone loc l2 w' op' k'
  | r => r
  end.
Proof.
  induction l1 as [|a l1 IH]; intros l2 w op k; [reflexivity|].
  cbn [app listenAlone].
  destruct (settle op a w) as [w1 v].
  destruct (startListening_resume loc k v w1) as [w2 [op' k'| |]];
    [apply IH|reflexivity..].
Qed.

Lemma listenAlone_cons loc a rest w op k :
  listenAlone loc (a :: rest) w op k =
  match startListening_resume loc k (snd (settle op a w)) (fst (settle op a w)) with
  | (w2, Await op' k') => listenAlone loc rest w2 op' k'
  | r => r
  end.
Proof. cbn [listenAlone]. destruct (settle op a w); reflexivity. Qed.

(** The turn of the loop, await by await. *)

Lemma turn_head loc w :
  listeningLoopRef w = true ->
  recordingLock (voice w) = false ->
  recording (voice w) = None ->
  startListening_resume loc KL_delay (Fulfilled VUnit) w =
    (set_isRecording false (set_recordingLock true w),
     Await (Timeout 50) (KL_record (KR_forceCleanup 3000 KF_delay))).
Proof.
  intros Hflag Hlock Hrec.
  unfold startListening_resume, loop. rewrite Hflag.
  unfold recordChunk. rewrite Hlock.
  unfold recordChunk_try, forceCleanup.
  change (recording (voice (set_recordingLock true w)))
    with (recording (voice w)).
  rewrite Hrec. reflexivity.
Qed.

Lemma turn_create loc w :
  startListening_resume loc (KL_record (KR_forceCleanup 3000 KF_delay))
    (Fulfilled VUnit) w =
    (new_recording w,
     Await (PrepareToRecordAsync (created (voice w)))
       (KL_record (KR_prepare 3000))).
Proof. reflexivity. Qed.

Lemma turn_prepare loc w r :
  recording (voice w) = Some r ->
  startListening_resume loc (KL_record (KR_prepare 3000)) (Fulfilled VUnit) w
    = (set_isRecording true w,
       Await (StartAsync r) (KL_record (KR_start 3000))).
Proof.
  intros Hrec. unfold startListening_resume, recordChunk_resume.
  change (recording (voice (set_isRecording true w)))
    with (recording (voice w)).
  rewrite Hrec. reflexivity.
Qed.

Lemma turn_start loc w :
  startListening_resume loc (KL_record (KR_start 3000)) (Fulfilled VUnit) w
    = (w, Await (Timeout 3000) (KL_record KR_wait)).
Proof. reflexivity. Qed.

Lemma turn_wait loc w r :
  recording (voice w) = Some r ->
  startListening_resume loc (KL_record KR_wait) (Fulfilled VUnit) w
    = (w, Await (StopAndUnloadAsync r) (KL_record KR_stop)).
Proof.
  intros Hrec. unfold startListening_resume, recordChunk_resume.
  rewrite Hrec. reflexivity.
Qed.

Lemma turn_stop loc w r :
  recording (voice w) = Some r ->
  startListening_resume loc (KL_record KR_stop) (Fulfilled VUnit) w
    = (set_isRecording false (set_recording None w),
       Await (Timeout 100) (KL_record (KR_release r))).
Proof.
  intros Hrec. unfold startListening_resume, recordChunk_resume.
  rewrite Hrec. reflexivity.
Qed.

Lemma turn_release loc w r :
  listeningLoopRef w = true ->
  startListening_resume loc (KL_record (KR_release r)) (Fulfilled VUnit) w
    = (set_recordingLock false w,
       Await (GetItem "token") (KL_transcribe (KT_token r))).
Proof.
  intros Hflag. unfold startListening_resume, recordChunk_resume.
  cbn [recordChunk_finally await_call afterRecord].
  change (listeningLoopRef (set_recordingLock false w))
    with (listeningLoopRef w).
  rewrite Hflag. reflexivity.
Qed.

Lemma turn_token loc w r token :
  truthy token = true ->
  startListening_resume loc (KL_transcribe (KT_token r))
    (Fulfilled (VItem token)) w
    = (w, Await (Post r) (KL_transcribe KT_post)).
Proof.
  intros Htok. unfold startListening_resume, transcribeAudio_resume.
  rewrite Htok. reflexivity.
Qed.

Lemma turn_failed loc w e :
  startListening_resume loc (KL_transcribe KT_post) (Rejected e) w
    = (emit (ConsoleLog "Transcription failed")
         (fst (transcribeAudio_catch e w)),
       Await (Timeout 300) KL_delay).
Proof. destruct e; reflexivity. Qed.

(** The world after a turn whose transcription failed with [e]. *)
Lemma failing_turn loc e w :
  can_capture w ->
  exists w',
    listenAlone loc (failingTurn e) w (Timeout 300) KL_delay
      = (w', Await (Timeout 300) KL_delay)
    /\ can_capture w'
    /\ isListening w' = isListening w
    /\ storage w' = storage w.
Proof.
  intros (Hflag & Hlock & Hrec & Htok).
  unfold failingTurn.
  rewrite listenAlone_cons. cbn [settle fst snd].
  rewrite (turn_head loc w Hflag Hlock Hrec).
  set (w1 := set_isRecording false (set_recordingLock true w)).
  rewrite listenAlone_cons. cbn [settle fst snd].
  rewrite turn_create.
  set (w2 := new_recording w1).
  set (r := created (voice w1)).
  assert (Hr2 : recording (voice w2) = Some r) by reflexivity.
  rewrite listenAlone_cons. cbn [settle fst snd].
  rewrite (turn_prepare loc w2 r Hr2).
  set (w3 := set_isRecording true w2).
  assert (Hr3 : recording (voice w3) = Some r) by reflexivity.
  rewrite listenAlone_cons. cbn [settle fst snd].
  rewrite turn_start.
  rewrite listenAlone_cons. cbn [settle fst snd].
  rewrite (turn_wait loc w3 r Hr3).
  rewrite listenAlone_cons. cbn [settle fst snd].
  rewrite (turn_stop loc w3 r Hr3).
  set (w4 := set_isRecording false (set_recording None w3)).
  assert (Hf4 : listeningLoopRef w4 = true) by exact Hflag.
  rewrite listenAlone_cons. cbn [settle fst snd].
  rewrite (turn_release loc w4 r Hf4).
  set (w5 := set_recordingLock false w4).
  rewrite listenAlone_cons. cbn [settle fst snd].
  change (storage w5) with (storage w).
  rewrite (turn_token loc w5 r _ Htok).
  rewrite listenAlone_cons. cbn [settle fst snd].
  rewrite turn_failed. cbn [listenAlone].
  eexists. split; [reflexivity|].
  unfold can_capture.
  destruct e; repeat split; first [exact Hflag | exact Htok | reflexivity].
Qed.

Lemma failing_turns loc errs : forall w,
  can_capture w ->
  exists w',
    listenAlone loc (concat (map failingTurn errs)) w (Timeout 300) KL_delay
      = (w', Await (Timeout 300) KL_delay)
    /\ can_capture w'
    /\ isListening w' = isListening w
    /\ storage w' = storage w.
Proof.
  induction errs as [|e errs IH]; intros w Hw.
  - exists w. cbn. auto.
  - destruct (failing_turn loc e w Hw) as (w1 & Hrun & Hw1 & Hl1 & Hs1).
    destruct (IH w1 Hw1) as (w2 & Hrun2 & Hw2 & Hl2 & Hs2).
    exists w2. cbn [map concat]. rewrite listenAlone_app, Hrun, Hrun2.
    split; [reflexivity|]. split; [assumption|]. split; congruence.
Qed.

(** C4, as amended: when the transcription request fails (a timeout, a
    network error, an error status), [transcribeAudio] logs the failure
    and returns its failure result; the loop logs that the transcription
    failed, waits its ordinary 300 MS inter-chunk delay (the 2000 ms wait
    belongs to the loop's [catch], which a failed transcription does not
    reach) and goes on.  Any number of consecutive turns whose
    transcription fails leaves the task at that delay, still asked to
    listen, with [isListening] and AsyncStorage as they were: no alert
    was saved, the task neither ended nor threw. *)
Theorem transcription_failure_keeps_listening (loc : option LocationData)
    (e : Error) (errs : list Error) (w : World) :
  can_capture w ->
  startListening_resume loc (KL_transcribe KT_post) (Rejected e) w
    = (emit (ConsoleLog "Transcription failed")
         (fst (transcribeAudio_catch e w)),
       Await (Timeout 300) KL_delay)
  /\ (exists msg, last (log (fst (transcribeAudio_catch e w)))
                    = Some (ConsoleError msg))
  /\ exists w',
       listenAlone loc (concat (map failingTurn errs)) w (Timeout 300)
         KL_delay
         = (w', Await (Timeout 300) KL_delay)
       /\ listeningLoopRef w' = true
       /\ isListening w' = isListening w
       /\ storage w' = storage w.
Proof.
  intros Hw. split; [destruct e; reflexivity|]. split.
  - destruct e; cbn; rewrite ?last_snoc; eauto.
  - destruct (failing_turns loc errs w Hw) as (w' & Hrun & Hw' & Hl & Hs).
    exists w'. destruct Hw' as (Hflag & _). auto.
Qed.

End VoiceLoopFacts.

Module VoiceLoopExamples.

Import VoiceService VoiceContext App Runs VoiceLoopFacts.

(** C3 as stated fails: the endpoint answers [success] and
    [containsKeyword] without a transcript; the result then has
    [success], [hasVoice] and [containsKeyword] all true, and the loop
    neither reports a match nor stops: it goes on to its 300 ms delay. *)
Lemma keyword_without_transcript_counterexample :
  snd (transcribeAudio_resume KT_post
         (Fulfilled (VResponse (Some keywordNoTranscript))) listeningWorld)
    = Return {| success := true; transcript := EmptyString;
                containsKeyword := true; hasVoice := true |}
  /\ startListening_resume (Some home) (KL_transcribe KT_post)
       (Fulfilled (VResponse (Some keywordNoTranscript))) listeningWorld
     = (emit (ConsoleLog "Transcription response received") listeningWorld,
        Await (Timeout 300) KL_delay).
Proof. split; reflexivity. Qed.

(** [keyword_match_stops_loop] at a result that reports the keyword in the
    transcript [Astra], and at the last await of the dispatch: the task
    goes on into [stopListening] with [listeningLoopRef] cleared. *)
Lemma keyword_match_stops_loop_witness :
  snd (afterTranscribe (Some home) heardAstra listeningWorld)
    = Await (GetItem "demo_guardians") (KL_trigger (KD_guardians home))
  /\ startListening_resume (Some home) (KL_trigger (KD_sms home []))
       (Fulfilled VUnit) listeningWorld
     = (set_listeningLoopRef false
          (emit (ConsoleLog "Stopping voice detection...")
             (emit (ConsoleLog "Emergency alert sent via voice activation")
                (emit (ToastShow toast_info "No Guardians")
                   listeningWorld))),
        Await (Timeout 500) (KL_stop KSL_wait)).
Proof.
  destruct (keyword_match_stops_loop (Some home) heardAstra
              (KL_trigger (KD_sms home [])) (Fulfilled VUnit) listeningWorld)
    as (_ & H & _ & H4 & _); try reflexivity; [discriminate|].
  rewrite H. split; [reflexivity|].
  apply H4. reflexivity.
Defined.

(** C4 as stated fails: after a transcription request that timed out
    the loop waits 300 ms, not 2000 ms. *)
Lemma failure_backoff_counterexample :
  snd (startListening_resume (Some home) (KL_transcribe KT_post)
         (Rejected ECONNABORTED) listeningWorld)
    = Await (Timeout 300) KL_delay
  /\ Timeout 300 <> Timeout 2000.
Proof. split; [reflexivity|discriminate]. Qed.

(** Three timeouts in a row, as in the end-to-end scenario. *)
Lemma transcription_failure_keeps_listening_witness :
  exists w',
    listenAlone (Some home)
      (concat (map failingTurn [ECONNABORTED; ECONNABORTED; ECONNABORTED]))
      listeningWorld (Timeout 300) KL_delay
      = (w', Await (Timeout 300) KL_delay)
    /\ listeningLoopRef w' = true
    /\ isListening w' = isListening listeningWorld
    /\ storage w' = storage listeningWorld.
Proof.
  apply (transcription_failure_keeps_listening (Some home) ECONNABORTED
           [ECONNABORTED; ECONNABORTED; ECONNABORTED] listeningWorld).
  repeat split; reflexivity.
Defined.

End VoiceLoopExamples.

(** ** Which location a dispatch sees

    The handlers read [currentLocation] from the closure they were created
    in.  The location provider only ever publishes locations, so while it
    has none no closure has one. *)

Module ClosureFacts.

Import VoiceService VoiceContext App Runs.

Lemma keeps_await_call {K1 K2 R1 R2 : Type} (callee : World * Step K1 R1)
    (wrap : K1 -> K2) onReturn onThrow c :
  closures (fst callee) = c ->
  (forall r w, closures (fst (onReturn r w)) = closures w) ->
  (forall e w, closures (fst (onThrow e w)) = closures w) ->
  closures (fst (@await_call K1 K2 R1 R2 callee wrap onReturn onThrow)) = c.
Proof.
  intros Hc Hr Ht. destruct callee as [w' [op k|r|e]]; cbn in *;
    [assumption|rewrite Hr|rewrite Ht]; assumption.
Qed.

Ltac leaf := repeat case_match; reflexivity.
Ltac via lem := etransitivity; [apply lem | reflexivity].
Ltac keeps lem :=
  repeat first
    [ reflexivity
    | apply keeps_await_call; intros
    | apply lem
    | case_match ].

Lemma keeps_initialize w : closures (fst (initialize w)) = closures w.
Proof. unfold initialize. leaf. Qed.
Lemma keeps_initialize_resume k v w :
  closures (fst (initialize_resume k v w)) = closures w.
Proof. unfold initialize_resume. leaf. Qed.
Lemma keeps_forceCleanup w : closures (fst (forceCleanup w)) = closures w.
Proof. unfold forceCleanup. leaf. Qed.
Lemma keeps_forceCleanup_resume k v w :
  closures (fst (forceCleanup_resume k v w)) = closures w.
Proof. unfold forceCleanup_resume. leaf. Qed.
Lemma keeps_recordChunk_finally {K R} (r : World * Step K R) c :
  closures (fst r) = c -> closures (fst (recordChunk_finally r)) = c.
Proof. destruct r as [w []]; intros <-; reflexivity. Qed.
Lemma keeps_recordChunk_catch e w :
  closures (fst (recordChunk_catch e w)) = closures w.
Proof. unfold recordChunk_catch. leaf. Qed.
Lemma keeps_recordChunk d w : closures (fst (recordChunk d w)) = closures w.
Proof.
  unfold recordChunk. case_match; [reflexivity|].
  apply keeps_recordChunk_finally. unfold recordChunk_try.
  apply keeps_await_call; intros;
    [via keeps_forceCleanup|reflexivity|via keeps_recordChunk_catch].
Qed.
Lemma keeps_recordChunk_resume k v w :
  closures (fst (recordChunk_resume k v w)) = closures w.
Proof.
  unfold recordChunk_resume. apply keeps_recordChunk_finally.
  repeat case_match; subst; try reflexivity;
    try via keeps_recordChunk_catch.
  all: apply keeps_await_call; intros;
    [via keeps_forceCleanup_resume|reflexivity|via keeps_recordChunk_catch].
Qed.
Lemma keeps_transcribeAudio_catch e w :
  closures (fst (transcribeAudio_catch e w)) = closures w.
Proof. unfold transcribeAudio_catch. leaf. Qed.
Lemma keeps_transcribeAudio_resume k v w :
  closures (fst (transcribeAudio_resume k v w)) = closures w.
Proof.
  unfold transcribeAudio_resume.
  repeat case_match; subst; try reflexivity; via keeps_transcribeAudio_catch.
Qed.
Lemma keeps_stopRecording w : closures (fst (stopRecording w)) = closures w.
Proof. unfold stopRecording. leaf. Qed.
Lemma keeps_stopRecording_resume k v w :
  closures (fst (stopRecording_resume k v w)) = closures w.
Proof. unfold stopRecording_resume, stopRecording_retry. leaf. Qed.
Lemma keeps_cleanup_force w : closures (fst (cleanup_force w)) = closures w.
Proof.
  unfold cleanup_force. apply keeps_await_call; intros;
    [via keeps_forceCleanup|reflexivity..].
Qed.
Lemma keeps_cleanup w : closures (fst (cleanup w)) = closures w.
Proof.
  unfold cleanup. apply keeps_await_call; intros;
    [via keeps_stopRecording|via keeps_cleanup_force|reflexivity].
Qed.
Lemma keeps_cleanup_resume k v w :
  closures (fst (cleanup_resume k v w)) = closures w.
Proof.
  unfold cleanup_resume. destruct k; apply keeps_await_call; intros;
    first [via keeps_stopRecording_resume| via keeps_forceCleanup_resume| via keeps_cleanup_force| reflexivity].
Qed.
Lemma keeps_stopListening_resume k v w :
  closures (fst (stopListening_resume k v w)) = closures w.
Proof.
  unfold stopListening_resume.
  repeat case_match; subst; try reflexivity;
    apply keeps_await_call; intros;
    first [via keeps_cleanup| via keeps_cleanup_resume| reflexivity].
Qed.
Lemma keeps_triggerEmergencyAlert loc w :
  closures (fst (triggerEmergencyAlert loc w)) = closures w.
Proof. unfold triggerEmergencyAlert. leaf. Qed.
Lemma keeps_triggerEmergencyAlert_resume k v w :
  closures (fst (triggerEmergencyAlert_resume k v w)) = closures w.
Proof. unfold triggerEmergencyAlert_resume. leaf. Qed.
Lemma keeps_handleShakeDetected_resume k v w :
  closures (fst (ShakeContext.handleShakeDetected_resume k v w)) = closures w.
Proof. unfold ShakeContext.handleShakeDetected_resume. leaf. Qed.

Lemma keeps_afterTrigger r w : closures (fst (afterTrigger r w)) = closures w.
Proof.
  unfold afterTrigger. apply keeps_await_call; intros; reflexivity.
Qed.
Lemma keeps_afterTranscribe loc r w :
  closures (fst (afterTranscribe loc r w)) = closures w.
Proof.
  unfold afterTranscribe. repeat case_match; try reflexivity.
  apply keeps_await_call; intros;
    [via keeps_triggerEmergencyAlert|via keeps_afterTrigger|reflexivity].
Qed.
Lemma keeps_afterRecord loc r w :
  closures (fst (afterRecord loc r w)) = closures w.
Proof.
  unfold afterRecord. leaf.
Qed.
Lemma keeps_loop loc w : closures (fst (loop loc w)) = closures w.
Proof.
  unfold loop. case_match; [|reflexivity].
  apply keeps_await_call; intros;
    [via keeps_recordChunk|via keeps_afterRecord|reflexivity].
Qed.
Lemma keeps_afterInitialize loc b w :
  closures (fst (afterInitialize loc b w)) = closures w.
Proof.
  unfold afterInitialize. case_match; [reflexivity|].
  via keeps_loop.
Qed.
Lemma keeps_startListening loc w :
  closures (fst (startListening loc w)) = closures w.
Proof.
  unfold startListening. case_match; [reflexivity|].
  apply keeps_await_call; intros;
    [via keeps_initialize|via keeps_afterInitialize|reflexivity].
Qed.
Lemma keeps_startListening_resume loc k v w :
  closures (fst (startListening_resume loc k v w)) = closures w.
Proof.
  unfold startListening_resume.
  destruct k; repeat case_match; subst; try reflexivity;
    try via keeps_loop;
    apply keeps_await_call; intros;
    first [ via keeps_initialize_resume| via keeps_recordChunk_resume| via keeps_transcribeAudio_resume| via keeps_triggerEmergencyAlert_resume| via keeps_stopListening_resume| via keeps_afterInitialize| via keeps_afterRecord| via keeps_afterTranscribe| via keeps_afterTrigger| reflexivity ].
Qed.
Lemma keeps_toggle_resume loc k v w :
  closures (fst (toggleVoiceDetection_resume loc k v w)) = closures w.
Proof.
  unfold toggleVoiceDetection_resume.
  destruct k; repeat case_match; subst; try reflexivity;
    apply keeps_await_call; intros;
    first [ via keeps_stopListening_resume| via keeps_startListening| via keeps_startListening_resume| reflexivity ].
Qed.

Lemma keeps_handleShakeDetected loc w :
  closures (fst (ShakeContext.handleShakeDetected loc w)) = closures w.
Proof. unfold ShakeContext.handleShakeDetected. leaf. Qed.

Lemma keeps_toggleVoiceDetection isEnabled w :
  closures (fst (toggleVoiceDetection isEnabled w)) = closures w.
Proof. unfold toggleVoiceDetection. leaf. Qed.

Lemma keeps_as_task {K R} (wrap : K -> Task) (r : World * Step K R) :
  fst (as_task wrap r) = fst r.
Proof. destruct r as [w []]; reflexivity. Qed.

Lemma keeps_resumeTask t v w :
  closures (fst (resumeTask t v w)) = closures w.
Proof.
  destruct t; cbn [resumeTask]; rewrite keeps_as_task.
  - apply keeps_initialize_resume.
  - apply keeps_toggle_resume.
  - apply keeps_startListening_resume.
  - apply keeps_stopListening_resume.
  - apply keeps_handleShakeDetected_resume.
Qed.

Lemma location_as_task {K R} (wrap : K -> Task) (r : World * Step K R) l :
  (forall k, taskLocation (wrap k) = l) ->
  forall op t', snd (as_task wrap r) = Await op t' -> taskLocation t' = l.
Proof.
  intros Hw op t'. destruct r as [w [op0 k| |]]; cbn; [|discriminate..].
  intros [= _ <-]. apply Hw.
Qed.

Lemma location_resumeTask t v w op t' :
  snd (resumeTask t v w) = Await op t' -> taskLocation t' = taskLocation t.
Proof.
  destruct t; cbn [resumeTask]; apply location_as_task; reflexivity.
Qed.

Lemma keeps_settle op a w : closures (fst (settle op a w)) = closures w.
Proof. destruct a, op; reflexivity. Qed.

Lemma closures_inv w w' :
  closures w' = closures w ->
  currentLocation w' = currentLocation w
  /\ shakeClosure w' = shakeClosure w
  /\ ShakeService.onShakeCallback (shake w')
     = ShakeService.onShakeCallback (shake w).
Proof. unfold closures. intros [= -> -> ->]. auto. Qed.

(** [no_location_seen] reads the world through its closures only. *)
Lemma no_location_seen_closures w ps w' ps' :
  closures w' = closures w ->
  no_location_seen (mkState w ps) ->
  (forall p loc, p ∈ ps' -> taskLocation (task p) = Some loc -> loc = None) ->
  no_location_seen (mkState w' ps').
Proof.
  intros Hcl (H1 & H2 & H3) Hps.
  assert (Hs : shakeClosure w' = shakeClosure w)
    by (unfold closures in Hcl; congruence).
  assert (Hsh : ShakeService.onShakeCallback (shake w')
                = ShakeService.onShakeCallback (shake w))
    by (unfold closures in Hcl; congruence).
  unfold no_location_seen. cbn [world pending] in *.
  split; [congruence|]. split; [rewrite Hsh; exact H2|exact Hps].
Qed.

Lemma elem_of_insert_inv {A} (l : list A) i x y :
  y ∈ <[i := x]> l -> y = x \/ y ∈ l.
Proof.
  intros [j Hj]%list_elem_of_lookup.
  apply list_lookup_insert_Some in Hj as [(-> & -> & _)|(_ & Hj)];
    [left; reflexivity|right; eapply list_elem_of_lookup_2, Hj].
Qed.

Lemma deliver_callback {CB} hs now d (s : ShakeService.t CB) :
  ShakeService.onShakeCallback (fst (ShakeService.deliver hs now d s))
    = ShakeService.onShakeCallback s.
Proof.
  revert s. induction hs as [|h hs IH]; intros s; [reflexivity|].
  cbn [ShakeService.deliver].
  destruct (ShakeService.listener now d s) as [s1 fired] eqn:E1.
  specialize (IH s1).
  destruct (ShakeService.deliver hs now d s1) as [s2 rest].
  cbn [fst] in *. rewrite IH.
  unfold ShakeService.listener in E1.
  repeat case_match; injection E1 as <- _; reflexivity.
Qed.

Lemma invoke_keeps cbs : forall s,
  closures (world (invoke cbs s)) = closures (world s)
  /\ (forall p loc, p ∈ pending (invoke cbs s) ->
        taskLocation (task p) = Some loc -> p ∈ pending s).
Proof.
  induction cbs as [|cb cbs IH]; intros s; [auto|].
  cbn [invoke].
  set (r := as_task THandleShake
              (ShakeContext.handleShakeDetected (cb_currentLocation cb) (world s))).
  assert (Hr : closures (fst r) = closures (world s))
    by (unfold r; rewrite keeps_as_task; apply keeps_handleShakeDetected).
  assert (Hl : forall op t', snd r = Await op t' -> taskLocation t' = None)
    by (unfold r; apply location_as_task; reflexivity).
  destruct (IH (spawn r (pending s))) as [Hc Hp].
  destruct r as [w1 [op t| |]]; cbn [spawn fst snd] in *.
  - split; [rewrite Hc; exact Hr|].
    intros p loc Hin Hloc. specialize (Hp p loc Hin Hloc).
    cbn [pending] in Hp. apply elem_of_app in Hp as [Hp|Hp]; [exact Hp|].
    apply list_elem_of_singleton in Hp. subst p. cbn [task] in Hloc.
    rewrite (Hl op t eq_refl) in Hloc. discriminate.
  - split; [rewrite Hc; exact Hr|]. exact Hp.
  - split; [rewrite Hc; exact Hr|]. exact Hp.
Qed.

(** What the functions of ShakeProvider, run in a render whose
    [currentLocation] is [loc], do to the closures. *)
Definition shake_moves (loc : option LocationData) (w w' : World) : Prop :=
  currentLocation w' = currentLocation w
  /\ (shakeClosure w' = shakeClosure w \/ shakeClosure w' = loc)
  /\ (ShakeService.onShakeCallback (shake w')
       = ShakeService.onShakeCallback (shake w)
      \/ ShakeService.onShakeCallback (shake w') = None
      \/ ShakeService.onShakeCallback (shake w')
         = Some (mkShakeCallback loc)).

Lemma shake_moves_trans loc w1 w2 w3 :
  shake_moves loc w1 w2 -> shake_moves loc w2 w3 -> shake_moves loc w1 w3.
Proof.
  intros (A1 & B1 & C1) (A2 & B2 & C2). split; [congruence|]. split.
  - destruct B1, B2; [left|right|right|right]; congruence.
  - destruct C2 as [C2|[C2|C2]]; [|auto..].
    rewrite C2. exact C1.
Qed.

Lemma moves_start loc sens w :
  shake_moves loc w (ShakeContext.startShakeDetection loc sens w).
Proof.
  unfold ShakeContext.startShakeDetection, shake_moves.
  case_match; cbn; auto.
Qed.

Lemma moves_stop loc w : shake_moves loc w (ShakeContext.stopShakeDetection w).
Proof.
  unfold ShakeContext.stopShakeDetection, ShakeService.stop, shake_moves.
  case_match; cbn; auto.
Qed.

Lemma moves_handleAppStateChange loc en sens next w :
  shake_moves loc w (ShakeContext.handleAppStateChange loc en sens next w).
Proof.
  unfold ShakeContext.handleAppStateChange.
  repeat case_match; first [apply moves_start | apply moves_stop | idtac];
    unfold shake_moves; auto.
Qed.

Lemma moves_rerun w :
  shake_moves (currentLocation w) w (rerunShakeEffect w).
Proof.
  unfold rerunShakeEffect, ShakeContext.effect_cleanup, ShakeContext.effect.
  eapply shake_moves_trans; [apply (moves_stop (currentLocation w))|].
  set (w1 := ShakeContext.stopShakeDetection w).
  assert (E : currentLocation w1 = currentLocation w)
    by apply (moves_stop None w).
  rewrite E.
  eapply shake_moves_trans with (w2 := set_shakeClosure (currentLocation w) w1).
  - unfold shake_moves; cbn; auto.
  - change (currentLocation (set_shakeClosure (currentLocation w) w1))
      with (currentLocation w1). rewrite E.
    case_match; [apply moves_start|unfold shake_moves; auto].
Qed.

Lemma moves_no_location loc w ps w' :
  shake_moves loc w w' ->
  loc = None ->
  no_location_seen (mkState w ps) ->
  no_location_seen (mkState w' ps).
Proof.
  intros (A & B & C) -> (H1 & H2 & H3).
  unfold no_location_seen. cbn [world pending] in *.
  split; [destruct B; congruence|]. split; [|exact H3].
  intros cb Hcb. destruct C as [C|[C|C]]; rewrite C in Hcb.
  - apply H2, Hcb.
  - discriminate.
  - injection Hcb as <-. reflexivity.
Qed.

Lemma keeps_voice_handleAppStateChange loc en next w :
  closures (fst (VoiceContext.handleAppStateChange loc en next w)) = closures w.
Proof.
  unfold VoiceContext.handleAppStateChange.
  case_match.
  - pose proof (keeps_startListening loc w) as Hk.
    destruct (startListening loc w) as [w' []]; exact Hk.
  - destruct next; reflexivity.
Qed.

Lemma moves_toggle loc en sens w :
  shake_moves loc w (ShakeContext.toggleShakeDetection loc en sens w).
Proof.
  unfold ShakeContext.toggleShakeDetection. destruct en; cbn [negb].
  - exact (moves_stop loc (setShakeEnabled false w)).
  - exact (moves_start loc sens (setShakeEnabled true w)).
Qed.

Lemma moves_setSensitivity loc sens w :
  shake_moves loc w (ShakeContext.setSensitivity sens w).
Proof. unfold shake_moves. cbn. auto. Qed.

(** One step of the app keeps the invariant: while the provider has no
    location, no closure has one. *)
Lemma step_no_location a s :
  (currentLocation (world s) = None -> no_location_seen s) ->
  currentLocation (world (step a s)) = None -> no_location_seen (step a s).
Proof.
  destruct s as [w ps]. cbn [world]. intros IH.
  destruct a as [ms|i ans|d|next| | |sens|loc]; cbn [step world pending].
  - (* time passes *)
    case_match; [exact IH|]. cbn [world]. intros Hn.
    destruct (IH Hn) as (H1 & H2 & H3).
    apply (no_location_seen_closures w ps); [reflexivity|auto|exact H3].
  - (* an await settles *)
    destruct (ps !! i) as [p|] eqn:Ei; [|exact IH].
    case_match; [|exact IH].
    pose proof (keeps_settle (awaiting p) ans w) as Hs.
    destruct (settle (awaiting p) ans w) as [w1 v]. cbn [fst] in Hs.
    pose proof (keeps_resumeTask (task p) v w1) as Hr.
    pose proof (location_resumeTask (task p) v w1) as Hl.
    destruct (resumeTask (task p) v w1) as [w2 [op t| |]];
      cbn [fst snd world] in *; intros Hn;
      (assert (Hw : closures w2 = closures w) by (rewrite Hr; exact Hs));
      (assert (Hn' : currentLocation w = None)
         by (rewrite <- (proj1 (closures_inv _ _ Hw)); exact Hn));
      destruct (IH Hn') as (H1 & H2 & H3);
      (apply (no_location_seen_closures w ps); [exact Hw|auto|]).
    + intros q loc [->|Hq]%elem_of_insert_inv Hloc.
      * cbn [task] in Hloc. rewrite (Hl op t eq_refl) in Hloc.
        eapply H3; [eapply list_elem_of_lookup_2, Ei|exact Hloc].
      * eapply H3; eassumption.
    + intros q loc Hq%list_elem_of_delete_inv Hloc. eapply H3; eassumption.
    + intros q loc Hq%list_elem_of_delete_inv Hloc. eapply H3; eassumption.
  - (* the accelerometer delivers a sample *)
    pose proof (deliver_callback
                  (ShakeService.listeners (accelerometer w)) (clock w) d
                  (shake w)) as Hd.
    destruct (ShakeService.deliver _ _ d _) as [sh cbs]. cbn [fst] in Hd.
    set (s0 := mkState (set_shake (accelerometer w, sh) w) ps).
    destruct (invoke_keeps cbs s0) as [Hc Hp].
    destruct (invoke cbs s0) as [w' ps']. cbn [world pending] in *.
    assert (Hw : closures w' = closures w)
      by (rewrite Hc; unfold closures; cbn; rewrite Hd; reflexivity).
    intros Hn.
    assert (Hn' : currentLocation w = None)
      by (rewrite <- (proj1 (closures_inv _ _ Hw)); exact Hn).
    destruct (IH Hn') as (H1 & H2 & H3).
    apply (no_location_seen_closures w ps); [exact Hw|auto|].
    intros q loc Hq Hloc. eapply H3; [eapply Hp; eassumption|exact Hloc].
  - (* the app state changes *)
    pose proof (keeps_voice_handleAppStateChange None false next w) as Hv.
    destruct (VoiceContext.handleAppStateChange None false next w)
      as [w1 sp]. cbn [fst world pending] in *.
    set (w2 := ShakeContext.handleAppStateChange _ _ _ next w1).
    pose proof (moves_handleAppStateChange (shakeClosure w1)
                  (shakeEnabled w1) (sensitivity w1) next w1) as Hm.
    fold w2 in Hm. intros Hn.
    destruct (closures_inv _ _ Hv) as (Hv1 & Hv2 & _).
    assert (Hn' : currentLocation w = None).
    { destruct Hm as (A & _). rewrite <- Hv1, <- A. exact Hn. }
    destruct (IH Hn') as (H1 & H2 & H3).
    apply (moves_no_location (shakeClosure w1) w1); [exact Hm| |].
    { rewrite Hv2. exact H1. }
    apply (no_location_seen_closures w ps); [exact Hv|auto|].
    intros q loc Hq Hloc.
    destruct sp; [eapply H3; eassumption| |];
      apply elem_of_app in Hq as [Hq|Hq%list_elem_of_singleton];
      try (eapply H3; eassumption); subst q; cbn in Hloc;
      [injection Hloc as <-; reflexivity|discriminate].
  - (* the voice toggle is pressed *)
    set (r := as_task (TToggleVoice (currentLocation w))
                (toggleVoiceDetection (voiceEnabled w) w)).
    assert (Hr : closures (fst r) = closures w)
      by (unfold r; rewrite keeps_as_task; apply keeps_toggleVoiceDetection).
    assert (Hl : forall op t', snd r = Await op t' ->
                 taskLocation t' = Some (currentLocation w))
      by (unfold r; apply location_as_task; reflexivity).
    destruct r as [w1 [op t| |]]; cbn [spawn fst snd world] in *; intros Hn;
      (assert (Hn' : currentLocation w = None)
         by (rewrite <- (proj1 (closures_inv _ _ Hr)); exact Hn));
      destruct (IH Hn') as (H1 & H2 & H3);
      (apply (no_location_seen_closures w ps); [exact Hr|auto|]);
      try exact H3.
    intros q loc [Hq|Hq%list_elem_of_singleton]%elem_of_app Hloc;
      [eapply H3; eassumption|].
    subst q. cbn [task] in Hloc. rewrite (Hl op t eq_refl) in Hloc.
    congruence.
  - (* the shake toggle is pressed *)
    set (w1 := ShakeContext.toggleShakeDetection _ _ _ w).
    pose proof (moves_toggle (currentLocation w) (shakeEnabled w)
                  (sensitivity w) w) as Hm1. fold w1 in Hm1.
    pose proof (moves_rerun w1) as Hm2.
    assert (E : currentLocation w1 = currentLocation w) by apply Hm1.
    rewrite E in Hm2. intros Hn.
    assert (Hn' : currentLocation w = None)
      by (destruct Hm2 as (A & _); rewrite <- E, <- A; exact Hn).
    apply (moves_no_location (currentLocation w) w);
      [eapply shake_moves_trans; eassumption|exact Hn'|auto].
  - (* a sensitivity is picked *)
    set (w1 := ShakeContext.setSensitivity sens w).
    pose proof (moves_setSensitivity (currentLocation w) sens w) as Hm1.
    fold w1 in Hm1.
    pose proof (moves_rerun w1) as Hm2.
    assert (E : currentLocation w1 = currentLocation w) by apply Hm1.
    rewrite E in Hm2. intros Hn.
    assert (Hn' : currentLocation w = None).
    { revert Hn. case_match; [rewrite E; auto|].
      destruct Hm2 as (A & _). rewrite A, E. auto. }
    apply (moves_no_location (currentLocation w) w); [|exact Hn'|auto].
    case_match; [exact Hm1|exact (shake_moves_trans _ _ _ _ Hm1 Hm2)].
  - (* the provider publishes a location *)
    cbn. discriminate.
Qed.

Lemma run_snoc acts a s : run (acts ++ [a]) s = step a (run acts s).
Proof. unfold run. rewrite foldl_app. reflexivity. Qed.

(** While the location provider has published no location, no closure
    holds one: the handlers that would dispatch all see [null]. *)
Lemma no_location_before_provider now store acts :
  currentLocation (world (run acts (mounted now store))) = None ->
  no_location_seen (run acts (mounted now store)).
Proof.
  induction acts as [|a acts IH] using rev_ind.
  - intros _. unfold no_location_seen. cbn. split; [reflexivity|]. split.
    + intros cb [= <-]. reflexivity.
    + intros p loc [->|[]%elem_of_nil]%elem_of_cons; discriminate.
  - rewrite run_snoc. apply step_no_location, IH.
Qed.

End ClosureFacts.

(** ** Alert dispatch *)

Module DispatchFacts.

Import VoiceService VoiceContext App Runs ClosureFacts.
Import ShakeService.

(** What one accelerometer update does to the app when a single listener
    is registered. *)
Lemma update_single_listener (s : State) d h :
  listeners (accelerometer (world s)) = [h] ->
  step (AccelerometerUpdate d) s =
    invoke
      (match snd (listener (clock (world s)) d (shake (world s))) with
       | Some cb => [cb]
       | None => []
       end)
      (mkState
         (set_shake (accelerometer (world s),
                     fst (listener (clock (world s)) d (shake (world s))))
            (world s))
         (pending s)).
Proof.
  intros Hl. unfold step. rewrite Hl. cbn [deliver].
  destruct (listener _ d _) as [s1 [cb|]]; reflexivity.
Qed.

Lemma outstanding_app which ps qs w1 w2 w3 :
  outstanding which (mkState w1 (ps ++ qs)) =
  (outstanding which (mkState w2 ps) + outstanding which (mkState w3 qs))%nat.
Proof. unfold outstanding. cbn. rewrite filter_app, length_app. reflexivity. Qed.

(** C1, as amended: there is no dispatch guard.  An accelerometer update
    starts a dispatch exactly when the detector takes it for a shake
    (above the threshold, more than [shakeTimeout] after the last shake),
    and then it does so whatever dispatches are in flight: they all stay
    pending and one more is added.  An update that is not taken for a
    shake is dropped: nothing is added, nothing is queued. *)
Theorem no_dispatch_guard (s : State) (d : AccelerometerData) (h : nat)
    (cb : ShakeCallback) (loc : LocationData) :
  listeners (accelerometer (world s)) = [h] ->
  onShakeCallback (shake (world s)) = Some cb ->
  cb_currentLocation cb = Some loc ->
  let fires :=
    PrimFloat.ltb (shakeThreshold (shake (world s))) (acceleration d)
    && (shakeTimeout (shake (world s)) <?
          clock (world s) - lastShakeTime (shake (world s))) in
  let s' := step (AccelerometerUpdate d) s in
  pending s' =
    (if fires
     then pending s ++
          [mkPending (THandleShake (KD_guardians loc))
             (GetItem "demo_guardians") (clock (world s))]
     else pending s)
  /\ outstanding dispatching s' =
     (outstanding dispatching s + (if fires then 1 else 0))%nat
  /\ storage (world s') = storage (world s).
Proof.
  intros Hl Hcb Hloc fires s'. subst s'.
  rewrite (update_single_listener s d h Hl).
  subst fires. unfold listener.
  destruct (PrimFloat.ltb _ _); cbn [andb snd fst invoke];
    [destruct (_ <? _); cbn [andb snd fst invoke]|].
  - rewrite Hcb. cbn [invoke]. unfold ShakeContext.handleShakeDetected.
    rewrite Hloc. cbn [as_task spawn pending world].
    split; [reflexivity|]. split; [|reflexivity].
    destruct s as [w ps]. cbn [pending world].
    rewrite (outstanding_app _ ps _ _ w w). reflexivity.
  - destruct s as [w ps]. cbn. rewrite Nat.add_0_r. auto.
  - destruct s as [w ps]. cbn. rewrite Nat.add_0_r. auto.
Qed.

Import Dispatches.

(** Resuming a task that is in a dispatch runs its handler; while the
    handler suspends, the task stays in the dispatch, with the same
    handler. *)
Lemma resume_in_dispatch t kd v w :
  dispatchOf t = Some kd ->
  match handlerOf t kd v w with
  | (w', Await op kd') =>
      exists t', resumeTask t v w = (w', Await op t')
                 /\ dispatchOf t' = Some kd'
                 /\ handlerOf t' = handlerOf t
  | _ => True
  end.
Proof.
  destruct t as [k|l [ks| |[]]|l []|k|k]; cbn [dispatchOf loopOf];
    intros [= <-]; cbn [handlerOf resumeTask toggleVoiceDetection_resume
                          startListening_resume].
  - destruct (triggerEmergencyAlert_resume _ v w) as [w' [op kd'| |]];
      [|exact I..].
    eexists. cbn. repeat split.
  - destruct (triggerEmergencyAlert_resume _ v w) as [w' [op kd'| |]];
      [|exact I..].
    eexists. cbn. repeat split.
  - destruct (ShakeContext.handleShakeDetected_resume _ v w)
      as [w' [op kd'| |]]; [|exact I..].
    eexists. cbn. repeat split.
Qed.

(** One await of a dispatch settles, in the running app. *)
Lemma settle_in_dispatch (s : State) (i : nat) t op since kd
    w1 v w2 op' kd' :
  pending s !! i = Some (mkPending t op since) ->
  dispatchOf t = Some kd ->
  ready (mkPending t op since) (clock (world s)) = true ->
  settle op Resolves (world s) = (w1, v) ->
  handlerOf t kd v w1 = (w2, Await op' kd') ->
  exists t',
    step (Settle i Resolves) s
      = mkState w2 (<[i := mkPending t' op' (clock w2)]> (pending s))
    /\ dispatchOf t' = Some kd'
    /\ handlerOf t' = handlerOf t.
Proof.
  intros Hi Hd Hr Hs Hh.
  pose proof (resume_in_dispatch t kd v w1 Hd) as H. rewrite Hh in H.
  destruct H as (t' & Hres & Hd' & Hh').
  exists t'. split; [|auto].
  unfold step. rewrite Hi, Hr. cbn [awaiting task]. rewrite Hs, Hres.
  reflexivity.
Qed.

(** Both handlers ask for the write of their alert in front of the
    alerts they have just read, and after the write for their timer. *)
Lemma handler_reads_alerts t l g a item old w :
  dispatchOf t = Some (KD_alerts l g a) ->
  parseAlerts item = Some old ->
  handlerOf t (KD_alerts l g a) (Fulfilled (VItem item)) w
    = (w, Await (SetItem "demo_alerts" (SAlerts (a :: old))) (KD_save l g)).
Proof.
  intros _ Hp. destruct t; cbn [handlerOf];
    unfold ShakeContext.handleShakeDetected_resume,
      triggerEmergencyAlert_resume; rewrite Hp; reflexivity.
Qed.

Lemma handler_has_written t l g w :
  handlerOf t (KD_save l g) (Fulfilled VUnit) w
    = (w, Await (Timeout 1000) (KD_sms l g)).
Proof. destruct t; reflexivity. Qed.

(** A dispatch whose read and write of the history settle one after the
    other, in any state of the app. *)
Lemma read_then_write (s : State) (i : nat) t since l g a old :
  pending s !! i = Some (mkPending t (GetItem "demo_alerts") since) ->
  dispatchOf t = Some (KD_alerts l g a) ->
  parseAlerts (storage (world s) !! "demo_alerts") = Some old ->
  exists t',
    run [Settle i Resolves; Settle i Resolves] s
      = mkState
          (set_storage (<["demo_alerts" := SAlerts (a :: old)]>
                          (storage (world s))) (world s))
          (<[i := mkPending t' (Timeout 1000) (clock (world s))]>
             (pending s))
    /\ dispatchOf t' = Some (KD_sms l g).
Proof.
  intros Hi Hd Hp.
  destruct (settle_in_dispatch s i t _ since _ _ _ _ _ _ Hi Hd eq_refl
              eq_refl (handler_reads_alerts t l g a _ old _ Hd Hp))
    as (t1 & E1 & Hd1 & Hh1).
  unfold run. cbn [foldl]. rewrite E1.
  set (s1 := mkState _ _).
  assert (Hi1 : pending s1 !! i
                = Some (mkPending t1
                          (SetItem "demo_alerts" (SAlerts (a :: old)))
                          (clock (world s))))
    by (apply list_lookup_insert_eq; eapply lookup_lt_Some, Hi).
  destruct (settle_in_dispatch s1 i t1 _ _ _ _ _ _ _ _ Hi1 Hd1 eq_refl
              eq_refl (handler_has_written t1 l g _))
    as (t2 & E2 & Hd2 & _).
  exists t2. split; [|exact Hd2].
  rewrite E2. unfold s1. cbn [world pending clock set_storage].
  rewrite list_insert_insert_eq. reflexivity.
Qed.

(** C9, as amended: a dispatch whose storage operations succeed writes
    the alert history exactly once: its own alert, put in front of the
    alerts it has just read.  The alert of [triggerEmergencyAlert] has
    [triggerType] ['voice']; the alert of [handleShakeDetected] has
    [triggerType] ['manual'] (the alert types of the app have no kind for
    shakes) and names the shake only in its message.  Both carry the
    location of the closure and the time of their creation.  This holds
    whatever else runs between the awaits: the handler builds the alert
    when it has the guardians, asks for the write only after the read of
    the history, with that alert in front of what the read returned,
    never writes the storage itself, and never comes back to an earlier
    await.  When the read and the write settle with no other write of
    the history in between (as when the dispatch runs alone), the alert
    is saved in front of the alerts already saved. *)
Theorem dispatch_saves_one_alert (loc : LocationData) (w : World)
    (gs : list Guardian) (als : list AlertRecord) :
  parseGuardians (storage w !! "demo_guardians") = Some gs ->
  parseAlerts (storage w !! "demo_alerts") = Some als ->
  let alert kind msg :=
    {| a_id := clock w; a_triggerType := kind; a_status := "ACTIVE";
       a_latitude := latitude loc; a_longitude := longitude loc;
       a_address := address loc; a_message := msg;
       a_createdAt := clock w |} in
  let shakeAlert :=
    alert "manual" "Emergency alert triggered by shake detection" in
  let voiceAlert :=
    alert "voice"
      (String.append "Emergency alert triggered by voice command "
         (String.append dquote (String.append "Astra" dquote))) in
  let writes_once
        (resume : KDispatch -> Settled -> World
                  -> World * Step KDispatch unit) k v :=
    storage (fst (resume k v w)) = storage w
    /\ match snd (resume k v w) with
       | Await op k' =>
           (left_dispatch k' < left_dispatch k)%nat
           /\ match op with
              | SetItem key val =>
                  exists l g a old,
                    k = KD_alerts l g a /\ key = "demo_alerts"
                    /\ val = SAlerts (a :: old)
              | _ => True
              end
       | Return _ => True
       | Throw _ => False
       end in
  (exists w',
     dispatchAlone ShakeContext.handleShakeDetected_resume
       [Resolves; Resolves; Resolves; Resolves]
       (ShakeContext.handleShakeDetected (Some loc) w) = (w', Return ())
     /\ storage w' =
        <["demo_alerts" := SAlerts (shakeAlert :: als)]> (storage w))
  /\ (exists w',
       dispatchAlone triggerEmergencyAlert_resume
         [Resolves; Resolves; Resolves; Resolves]
         (triggerEmergencyAlert (Some loc) w) = (w', Return ())
       /\ storage w' =
          <["demo_alerts" := SAlerts (voiceAlert :: als)]> (storage w))
  /\ (forall item gs',
        parseGuardians item = Some gs' ->
        ShakeContext.handleShakeDetected_resume (KD_guardians loc)
          (Fulfilled (VItem item)) w
          = (w, Await (GetItem "demo_alerts")
                  (KD_alerts loc gs' shakeAlert))
        /\ triggerEmergencyAlert_resume (KD_guardians loc)
             (Fulfilled (VItem item)) w
           = (w, Await (GetItem "demo_alerts")
                   (KD_alerts loc gs' voiceAlert)))
  /\ (forall l g a item old,
        parseAlerts item = Some old ->
        ShakeContext.handleShakeDetected_resume (KD_alerts l g a)
          (Fulfilled (VItem item)) w
          = (w, Await (SetItem "demo_alerts" (SAlerts (a :: old)))
                  (KD_save l g))
        /\ triggerEmergencyAlert_resume (KD_alerts l g a)
             (Fulfilled (VItem item)) w
           = (w, Await (SetItem "demo_alerts" (SAlerts (a :: old)))
                   (KD_save l g)))
  /\ (forall k v,
        writes_once ShakeContext.handleShakeDetected_resume k v
        /\ writes_once triggerEmergencyAlert_resume k v)
  /\ (forall (s : State) (i : nat) t since l g a old,
        pending s !! i
          = Some (mkPending t (GetItem "demo_alerts") since) ->
        dispatchOf t = Some (KD_alerts l g a) ->
        parseAlerts (storage (world s) !! "demo_alerts") = Some old ->
        let s' := run [Settle i Resolves; Settle i Resolves] s in
        savedAlerts s' = a :: old
        /\ length (pending s') = length (pending s)).
Proof.
  intros Hg Ha alert shakeAlert voiceAlert writes_once.
  split; [|split; [|split; [|split; [|split]]]].
  - unfold ShakeContext.handleShakeDetected.
    cbn [dispatchAlone settle].
    unfold ShakeContext.handleShakeDetected_resume at 1.
    cbn [storage emit]. rewrite Hg.
    cbn [dispatchAlone settle].
    unfold ShakeContext.handleShakeDetected_resume at 1.
    cbn [storage emit]. rewrite Ha.
    cbn [dispatchAlone settle].
    unfold ShakeContext.handleShakeDetected_resume at 1.
    cbn [dispatchAlone settle].
    unfold ShakeContext.handleShakeDetected_resume.
    eexists. split; [reflexivity|].
    destruct gs; reflexivity.
  - unfold triggerEmergencyAlert.
    cbn [dispatchAlone settle].
    unfold triggerEmergencyAlert_resume at 1.
    rewrite Hg.
    cbn [dispatchAlone settle].
    unfold triggerEmergencyAlert_resume at 1.
    rewrite Ha.
    cbn [dispatchAlone settle].
    unfold triggerEmergencyAlert_resume at 1.
    cbn [dispatchAlone settle].
    unfold triggerEmergencyAlert_resume.
    eexists. split; [reflexivity|].
    destruct gs; reflexivity.
  - intros item gs' Hp.
    unfold ShakeContext.handleShakeDetected_resume,
      triggerEmergencyAlert_resume. rewrite Hp. split; reflexivity.
  - intros l g a item old Hp.
    unfold ShakeContext.handleShakeDetected_resume,
      triggerEmergencyAlert_resume. rewrite Hp. split; reflexivity.
  - intros k v. unfold writes_once.
    unfold ShakeContext.handleShakeDetected_resume,
      ShakeContext.handleShakeDetected_catch,
      triggerEmergencyAlert_resume, triggerEmergencyAlert_catch.
    destruct k as [l|l g a|l g|l g], v as [[| | |item|]|]; cbn;
      try destruct (parseGuardians item);
      try destruct (parseAlerts item);
      try destruct g; cbn; repeat split; eauto 10 with lia.
  - intros s i t since l g a old Hi Hd Hp s'.
    destruct (read_then_write s i t since l g a old Hi Hd Hp)
      as (t' & E & _).
    unfold s'. rewrite E. split.
    + unfold savedAlerts. cbn [world storage set_storage].
      rewrite lookup_insert_eq. reflexivity.
    + cbn [pending]. apply length_insert.
Qed.

(** The three entries a shake without a location leaves in the log. *)
Lemma handleShakeDetected_no_location w :
  ShakeContext.handleShakeDetected None w =
    (emit (ToastShow toast_error "Location not available")
       (emit (ToastShow toast_error "Shake Detected!")
          (emit (ConsoleLog "SHAKE DETECTED! Triggering emergency alert...")
             w)),
     Return ()).
Proof. reflexivity. Qed.

Lemma update_no_location (s : State) d h cb :
  listeners (accelerometer (world s)) = [h] ->
  onShakeCallback (shake (world s)) = Some cb ->
  cb_currentLocation cb = None ->
  PrimFloat.ltb (shakeThreshold (shake (world s))) (acceleration d) = true ->
  shakeTimeout (shake (world s))
    < clock (world s) - lastShakeTime (shake (world s)) ->
  step (AccelerometerUpdate d) s =
    mkState
      (emit (ToastShow toast_error "Location not available")
         (emit (ToastShow toast_error "Shake Detected!")
            (emit (ConsoleLog "SHAKE DETECTED! Triggering emergency alert...")
               (set_shake
                  (accelerometer (world s),
                   ShakeService.mk (subscription (shake (world s)))
                     (clock (world s))
                     (shakeThreshold (shake (world s)))
                     (shakeTimeout (shake (world s)))
                     (onShakeCallback (shake (world s))))
                  (world s)))))
      (pending s).
Proof.
  intros Hl Hcb Hloc Hth Hdeb. apply Z.ltb_lt in Hdeb.
  rewrite (update_single_listener s d h Hl).
  unfold listener. rewrite Hth, Hdeb. cbn [fst snd].
  rewrite Hcb. cbn [invoke]. rewrite Hloc.
  rewrite handleShakeDetected_no_location. reflexivity.
Qed.


End DispatchFacts.

Module DispatchExamples.

Import VoiceService VoiceContext App Runs Schedules ClosureFacts DispatchFacts.
Import ShakeService.

(** C1 as stated fails.  A shake at 1000000 starts a dispatch whose
    1000 ms timer, set at 1000005, is still running when a second shake
    arrives at 1001001: the second shake is not dropped, two dispatches
    are in flight, and the second one saves a second alert. *)
Lemma overlapping_dispatch_counterexample :
  outstanding dispatching (run untilSecondShake start0) = 1%nat
  /\ outstanding dispatching (run twoShakes start0) = 2%nat
  /\ map awaiting (pending (run twoShakes start0))
     = [RequestPermissionsAsync; Timeout 1000; GetItem "demo_guardians"]
  /\ map since (pending (run twoShakes start0))
     = [1000000; 1000005; 1001001]
  /\ clock (world (run twoShakes start0)) = 1001001
  /\ map a_id (savedAlerts (run twoShakes start0)) = [1000002]
  /\ map a_id (savedAlerts (run (twoShakes ++ secondDispatchSaves) start0))
     = [1001001; 1000002].
Proof. vm_compute. repeat split. Qed.

(** [no_dispatch_guard] at the second shake of [twoShakes]. *)
Lemma no_dispatch_guard_witness :
  outstanding dispatching (run twoShakes start0)
    = (outstanding dispatching (run untilSecondShake start0) + 1)%nat.
Proof.
  assert (H1 : listeners (accelerometer (world (run untilSecondShake start0)))
               = [1%nat]) by (vm_compute; reflexivity).
  assert (H2 : onShakeCallback (shake (world (run untilSecondShake start0)))
               = Some (mkShakeCallback (Some home)))
    by (vm_compute; reflexivity).
  destruct (no_dispatch_guard (run untilSecondShake start0) strongSample
              1%nat (mkShakeCallback (Some home)) home H1 H2 eq_refl)
    as (_ & H & _).
  unfold twoShakes. rewrite run_snoc, H.
  vm_compute. reflexivity.
Defined.

(** C9 as stated fails: the alert saved for a shake has the trigger type
    ['manual']; only its message names the shake. *)
Lemma shake_alert_kind_counterexample :
  map a_triggerType (savedAlerts (run shakeAlertSaved start0)) = ["manual"]
  /\ map a_message (savedAlerts (run shakeAlertSaved start0))
     = ["Emergency alert triggered by shake detection"]
  /\ String.eqb "manual" "shake" = false.
Proof. vm_compute. repeat split. Qed.

(** [dispatch_saves_one_alert] at an empty alert list. *)
Lemma dispatch_saves_one_alert_witness :
  exists w',
    dispatchAlone triggerEmergencyAlert_resume
      [Resolves; Resolves; Resolves; Resolves]
      (triggerEmergencyAlert (Some home) listeningWorld) = (w', Return ())
    /\ map a_triggerType
         match storage w' !! "demo_alerts" with
         | Some (SAlerts als) => als
         | _ => []
         end = ["voice"].
Proof.
  destruct (dispatch_saves_one_alert home listeningWorld [] [] eq_refl eq_refl)
    as (_ & (w' & Hrun & Hst) & _).
  exists w'. split; [exact Hrun|].
  rewrite Hst, lookup_insert_eq. reflexivity.
Defined.

End DispatchExamples.

(** ** App-state changes and the single-flight guards *)

Module LifecycleFacts.

Import VoiceService VoiceContext App Runs Schedules.
Import ShakeService.

(** The part of the lifecycle that ShakeProvider implements: going to
    the background stops the detector; coming back starts it exactly when
    shake detection is enabled, and does nothing when it is already
    active. *)
Lemma shake_lifecycle (loc : option LocationData) (isEnabled : bool)
    (sens : Sensitivity) (w : World) :
  isActive (shake (ShakeContext.handleAppStateChange loc isEnabled sens
                     background w)) = false
  /\ isActive (shake (ShakeContext.handleAppStateChange loc isEnabled sens
                        inactive w)) = false
  /\ isActive (shake (ShakeContext.handleAppStateChange loc isEnabled sens
                        active w)) = isEnabled || isActive (shake w)
  /\ (isActive (shake w) = true \/ isEnabled = false ->
      ShakeContext.handleAppStateChange loc isEnabled sens active w = w).
Proof.
  destruct w as [v flag lst ven [sub last th to cb] acc sen ss scl cloc st
                   clk lg].
  destruct sub, isEnabled; cbn; repeat split; auto;
    intros [H|H]; discriminate.
Qed.

(** The two guards that do hold: [recordChunk] called while the lock is
    held returns null without touching the recording, and
    [startListening] called while [listeningLoopRef] is set returns at
    once. *)
Lemma guards_reject (loc : option LocationData) (durationMs : Z)
    (w : World) :
  (recordingLock (voice w) = true ->
   recordChunk durationMs w =
     (emit (ConsoleLog "Recording locked, waiting...") w, Return None))
  /\ (listeningLoopRef w = true ->
      startListening loc w =
        (emit (ConsoleLog "Already listening, skipping...") w, Return ())).
Proof.
  split; intros H.
  - unfold recordChunk. rewrite H. reflexivity.
  - unfold startListening. rewrite H. reflexivity.
Qed.

(** C6, at the defect: VoiceProvider's app-state listener never resumes
    listening.  Whatever [isEnabled] and [currentLocation] its closure
    holds and whatever the state, on ['active'] it starts no task and
    leaves [listeningLoopRef] as it is: when the flag is clear its
    condition fails, and when the flag is set [startListening] returns at
    once.  In the run [foregrounded] the loop records when the app goes
    to the background; both detectors are stopped; back in the
    foreground the shake detector is active again, while voice detection,
    still enabled, has no task and is not listening. *)
Theorem voice_not_resumed_on_foreground (loc : option LocationData)
    (isEnabled : bool) (w : World) :
  snd (VoiceContext.handleAppStateChange loc isEnabled active w) = SpawnNone
  /\ listeningLoopRef
       (fst (VoiceContext.handleAppStateChange loc isEnabled active w))
     = listeningLoopRef w
  /\ (outstanding capturing (run listeningUp start0) = 1%nat
      /\ isActive (shake (world (run listeningUp start0))) = true)
  /\ (listeningLoopRef (world (run backgrounded start0)) = false
      /\ isActive (shake (world (run backgrounded start0))) = false)
  /\ (pending (run foregrounded start0) = []
      /\ voiceEnabled (world (run foregrounded start0)) = true
      /\ listeningLoopRef (world (run foregrounded start0)) = false
      /\ isListening (world (run foregrounded start0)) = false
      /\ isActive (shake (world (run foregrounded start0))) = true).
Proof.
  split; [|split].
  - unfold VoiceContext.handleAppStateChange, startListening. cbn [andb].
    destruct isEnabled; cbn [andb]; [|reflexivity].
    destruct (listeningLoopRef w) eqn:E; reflexivity.
  - unfold VoiceContext.handleAppStateChange, startListening. cbn [andb].
    destruct isEnabled; cbn [andb]; [|reflexivity].
    destruct (listeningLoopRef w) eqn:E; exact E.
  - vm_compute. repeat split.
Qed.

(** C8, at the defect: [cleanup] clears [recordingLock] whoever holds it,
    and a new [startListening] sets [listeningLoopRef] again before the
    old loop has looked at it.  In the run [stopThenStart] the first
    [recordChunk] call is in its 3000 ms (from 1000550) when, at 1002100,
    a second call passes the lock: two captures are outstanding.  In
    [firstLoopGoesOn] the first call returns and releases the lock while
    the second call is in its own 3000 ms, and the first loop, which
    finds [listeningLoopRef] set, transcribes while the second
    records. *)
Theorem stop_start_admits_second_capture :
  (outstanding capturing (run listeningUp start0) = 1%nat
   /\ recordingLock (voice (world (run listeningUp start0))) = true)
  /\ (outstanding capturing (run stopThenStart start0) = 2%nat
      /\ map (fun p => (awaiting p, since p)) (pending (run stopThenStart start0))
         = [(Timeout 3000, 1000550); (Timeout 50, 1002100)]
      /\ clock (world (run stopThenStart start0)) = 1002100)
  /\ (outstanding capturing (run firstLoopGoesOn start0) = 1%nat
      /\ outstanding transcribing (run firstLoopGoesOn start0) = 1%nat
      /\ recordingLock (voice (world (run firstLoopGoesOn start0))) = false
      /\ map (fun p => (awaiting p, since p))
           (pending (run firstLoopGoesOn start0))
         = [(GetItem "token", 1003650); (Timeout 3000, 1002150)]).
Proof. vm_compute. repeat split. Qed.

End LifecycleFacts.


(** * More properties of the code *)

(** ** shakeDetectionService.ts *)

Module ShakeServiceMore.

Import ShakeService ShakeFacts.

(** Comparison with a finite positive binary64 value, on the
    specification of the comparison. *)
Lemma SFltb_finite_pos_trans m1 e1 m2 e2 y :
  (e1 < e2 \/ (e1 = e2 /\ (m1 <= m2)%positive)) ->
  SpecFloat.SFltb (SpecFloat.S754_finite false m2 e2) y = true ->
  SpecFloat.SFltb (SpecFloat.S754_finite false m1 e1) y = true.
Proof.
  intros Hle. unfold SpecFloat.SFltb, SpecFloat.SFcompare.
  destruct y as [[]|[]| |[] m e]; try discriminate; try reflexivity.
  destruct (Z.compare_spec e2 e) as [->|Hlt|Hgt]; [| |discriminate].
  - intros Hm. destruct Hle as [Hlt|[-> Hm12]].
    + rewrite (proj2 (Z.compare_lt_iff _ _) Hlt). reflexivity.
    + rewrite Z.compare_refl.
      fold (Pos.compare m2 m) in Hm. fold (Pos.compare m1 m).
      destruct (Pos.compare m2 m) eqn:E2; try discriminate.
      apply Pos.compare_lt_iff in E2.
      rewrite (proj2 (Pos.compare_lt_iff m1 m)); [reflexivity|].
      eapply Pos.le_lt_trans; eassumption.
  - intros _.
    rewrite (proj2 (Z.compare_lt_iff e1 e)); [reflexivity|].
    destruct Hle as [?|[-> _]]; lia.
Qed.

Lemma threshold_order (x : float) :
  (PrimFloat.ltb (thresholdOf low) x = true ->
   PrimFloat.ltb (thresholdOf medium) x = true)
  /\ (PrimFloat.ltb (thresholdOf medium) x = true ->
      PrimFloat.ltb (thresholdOf high) x = true).
Proof.
  rewrite !FloatAxioms.ltb_spec.
  split; apply SFltb_finite_pos_trans; vm_compute.
  - right. split; [reflexivity|discriminate].
  - left. reflexivity.
Qed.

Section WithCallback.

Context {CB : Type}.
Implicit Types (s : ShakeService.t CB) (d : AccelerometerData).

Lemma filter_other (l : list nat) (h : nat) :
  h ∉ l -> filter (fun h' => h' ≠ h) l = l.
Proof.
  induction l as [|x l IH]; intros Hh; [reflexivity|].
  apply not_elem_of_cons in Hh as [Hx Hl].
  rewrite filter_cons_True by auto. rewrite IH by exact Hl. reflexivity.
Qed.

(** X1: [stop] undoes [start] and is idempotent.  When the handle [start]
    takes is fresh, stopping after starting leaves the accelerometer with
    the listeners it had, the service inactive and without callback, and
    the debounce state ([lastShakeTime], [shakeTimeout]) as it was; a
    second [stop] changes nothing. *)
Theorem stop_undoes_start (cb : CB) (sens : option Sensitivity)
    (a : Accelerometer) s :
  nextHandle a ∉ listeners a ->
  let started := start cb sens a s in
  let stopped := stop (fst started) (snd started) in
  isActive (snd started) = true
  /\ listeners (fst stopped) = listeners a
  /\ isActive (snd stopped) = false
  /\ onShakeCallback (snd stopped) = None
  /\ lastShakeTime (snd stopped) = lastShakeTime s
  /\ shakeTimeout (snd stopped) = shakeTimeout s
  /\ stop (fst stopped) (snd stopped) = stopped.
Proof.
  intros Hfresh started stopped. cbn.
  repeat split.
  rewrite filter_app, filter_cons_False, filter_nil, app_nil_r by auto.
  apply filter_other. exact Hfresh.
Qed.

(** X2: restarting the detector or changing its sensitivity does not
    reset the debounce.  After a shake at [now], a sample that comes no
    more than [shakeTimeout] later invokes no callback, also when the
    service was stopped and started again (with any callback and
    sensitivity) or its sensitivity was set in between. *)
Theorem restart_keeps_debounce (cb cb' : CB) (sens : option Sensitivity)
    (sens' : Sensitivity) (a : Accelerometer) s (now now' : Z) d d' :
  onShakeCallback s = Some cb ->
  snd (listener now d s) = Some cb ->
  now' - now <= shakeTimeout s ->
  let s1 := fst (listener now d s) in
  let stopped := stop a s1 in
  let restarted := start cb' sens (fst stopped) (snd stopped) in
  snd (listener now' d' s1) = None
  /\ snd (listener now' d' (snd restarted)) = None
  /\ snd (listener now' d' (setSensitivity sens' s1)) = None.
Proof.
  intros Hcb Hfire Hnear s1 stopped restarted.
  apply (listener_fires s now d cb Hcb) in Hfire as [Hth Hdeb].
  destruct (listener_state s now d) as (_ & _ & Hto & _ & Hlast).
  fold s1 in Hto, Hlast.
  rewrite Hth in Hlast. apply Z.ltb_lt in Hdeb. rewrite Hdeb in Hlast.
  cbn [andb] in Hlast.
  assert (Hoff : forall s', lastShakeTime s' = lastShakeTime s1 ->
                 shakeTimeout s' = shakeTimeout s1 ->
                 snd (listener now' d' s') = None).
  { intros s' El Et. unfold listener. rewrite El, Et, Hlast, Hto.
    destruct (PrimFloat.ltb (shakeThreshold s') _); [|reflexivity].
    destruct (Z.ltb_spec (shakeTimeout s) (now' - now)); [lia|reflexivity]. }
  split; [apply Hoff; reflexivity|].
  split; [|apply Hoff; reflexivity].
  apply Hoff; unfold restarted, stopped, stop;
    destruct (subscription s1); reflexivity.
Qed.

(** X3: a lower threshold is more sensitive.  In the same state, a sample
    that invokes the callback under [low] invokes it under [medium], and a
    sample that invokes it under [medium] invokes it under [high]. *)
Theorem more_sensitive_fires_more (cb : CB) s (now : Z) d :
  (snd (listener now d (setSensitivity low s)) = Some cb ->
   snd (listener now d (setSensitivity medium s)) = Some cb)
  /\ (snd (listener now d (setSensitivity medium s)) = Some cb ->
      snd (listener now d (setSensitivity high s)) = Some cb).
Proof.
  destruct (threshold_order (acceleration d)) as [Hlm Hmh].
  unfold listener, setSensitivity.
  cbn [shakeThreshold shakeTimeout lastShakeTime onShakeCallback].
  split.
  - destruct (PrimFloat.ltb (thresholdOf low) _) eqn:E; [|discriminate].
    rewrite (Hlm eq_refl). destruct (_ <? _); intros H; exact H.
  - destruct (PrimFloat.ltb (thresholdOf medium) _) eqn:E; [|discriminate].
    rewrite (Hmh eq_refl). destruct (_ <? _); intros H; exact H.
Qed.

Lemma deliver_debounced hs : forall s now d,
  0 <= shakeTimeout s ->
  lastShakeTime s = now ->
  deliver hs now d s = (s, []).
Proof.
  induction hs as [|h hs IH]; intros s now d Hto Hlast; [reflexivity|].
  cbn [deliver]. unfold listener. rewrite Hlast, Z.sub_diag.
  destruct (PrimFloat.ltb _ _);
    [destruct (Z.ltb_spec (shakeTimeout s) 0); [lia|]|];
    rewrite (IH s now d Hto Hlast); reflexivity.
Qed.

(** X4: one accelerometer update invokes at most one callback, however
    many listeners are registered (as after [start] called twice): they
    share the service's [lastShakeTime], which the first one to fire sets
    to the time of the update. *)
Theorem one_callback_per_update (hs : list nat) s (now : Z) d :
  0 <= shakeTimeout s ->
  (length (snd (deliver hs now d s)) <= 1)%nat.
Proof.
  revert s. induction hs as [|h hs IH]; intros s Hto; [cbn; lia|].
  cbn [deliver].
  destruct (listener_state s now d) as (_ & _ & Hto' & _ & Hlast).
  destruct (listener now d s) as [s1 fired] eqn:E. cbn [fst] in *.
  assert (Hf : fired = None \/ lastShakeTime s1 = now).
  { unfold listener in E.
    destruct (PrimFloat.ltb _ _); [|injection E as <- <-; auto].
    destruct (_ <? _); injection E as <- <-; auto. }
  destruct Hf as [->|Hl].
  - specialize (IH s1). rewrite Hto' in IH. specialize (IH Hto).
    destruct (deliver hs now d s1). exact IH.
  - rewrite (deliver_debounced hs s1 now d); [|lia|exact Hl].
    destruct fired; cbn; lia.
Qed.

Lemma feed_without_callback samples : forall s i,
  onShakeCallback s = None -> feed samples s !! i ≠ Some true.
Proof.
  induction samples as [|[now d] rest IH]; intros s i Hcb; [discriminate|].
  rewrite feed_cons.
  destruct (listener_state s now d) as (_ & _ & _ & Hcb' & _).
  destruct i as [|i].
  - cbn. unfold listener.
    destruct (PrimFloat.ltb _ _); [|discriminate].
    destruct (_ <? _); [|discriminate]. cbn. rewrite Hcb. discriminate.
  - change ((?x :: ?l) !! S i) with (l !! i).
    apply IH. congruence.
Qed.

Lemma lastFired_lower t0 (samples : list (Z * AccelerometerData)) :
  forall flags t,
  t <= t0 ->
  (forall k tk dk, samples !! k = Some (tk, dk) -> t <= tk) ->
  t <= lastFired t0 samples flags.
Proof.
  revert t0.
  induction samples as [|[now d] rest IH]; intros t0 flags t Ht Hall;
    [destruct flags; exact Ht|].
  destruct flags as [|f flags]; [exact Ht|].
  cbn [lastFired]. apply IH.
  - destruct f; [apply (Hall 0%nat now d); reflexivity|exact Ht].
  - intros k tk dk Hk. apply (Hall (S k) tk dk). exact Hk.
Qed.

Lemma lastFired_after (samples : list (Z * AccelerometerData)) :
  forall flags t0 i ti di,
  (forall a b ta da tb db, (a <= b)%nat ->
     samples !! a = Some (ta, da) -> samples !! b = Some (tb, db) ->
     ta <= tb) ->
  samples !! i = Some (ti, di) ->
  flags !! i = Some true ->
  ti <= lastFired t0 samples flags.
Proof.
  induction samples as [|[now d] rest IH];
    intros flags t0 i ti di Hasc Hi Hf; [discriminate|].
  destruct flags as [|f flags]; [discriminate|].
  cbn [lastFired].
  destruct i as [|i].
  - injection Hi as -> ->. injection Hf as ->.
    apply lastFired_lower; [lia|].
    intros k tk dk Hk.
    apply (Hasc 0%nat (S k) ti di tk dk); [lia|reflexivity|exact Hk].
  - apply (IH flags _ i ti di); [|exact Hi|exact Hf].
    intros a b ta da tb db Hab Ha Hb.
    apply (Hasc (S a) (S b) ta da tb db); [lia|exact Ha|exact Hb].
Qed.

(** X5: shakes are spaced.  Over samples whose clock readings do not
    decrease, any two samples that invoke the callback are more than
    [shakeTimeout] apart, whatever the samples between them. *)
Theorem fired_shakes_are_spaced (samples : list (Z * AccelerometerData)) s
    (i j : nat) (ti tj : Z) di dj :
  (forall a b ta da tb db, (a <= b)%nat ->
     samples !! a = Some (ta, da) -> samples !! b = Some (tb, db) ->
     ta <= tb) ->
  (i < j)%nat ->
  samples !! i = Some (ti, di) ->
  samples !! j = Some (tj, dj) ->
  feed samples s !! i = Some true ->
  feed samples s !! j = Some true ->
  shakeTimeout s < tj - ti.
Proof.
  intros Hasc Hij Hi Hj Hfi Hfj.
  destruct (onShakeCallback s) as [cb|] eqn:Hcb;
    [|exfalso; exact (feed_without_callback samples s i Hcb Hfi)].
  rewrite (feed_lookup samples s j tj dj cb Hcb Hj) in Hfj.
  injection Hfj as Hfj. apply andb_true_iff in Hfj as [_ Hdeb].
  apply Z.ltb_lt in Hdeb.
  assert (Hge : ti <= lastFired (lastShakeTime s) (take j samples)
                        (take j (feed samples s))).
  { apply (lastFired_after _ _ _ i ti di).
    - intros a b ta da tb db Hab Ha Hb.
      apply lookup_take_Some in Ha as [Ha _].
      apply lookup_take_Some in Hb as [Hb _].
      exact (Hasc a b ta da tb db Hab Ha Hb).
    - rewrite lookup_take_lt by exact Hij. exact Hi.
    - rewrite lookup_take_lt by exact Hij. exact Hfi. }
  lia.
Qed.

End WithCallback.

End ShakeServiceMore.

Module ShakeServiceExamples.

Import ShakeService ShakeServiceMore.

Lemma stop_undoes_start_witness :
  let started := start tt (Some high) noListeners (initial (CB:=unit)) in
  let stopped := stop (fst started) (snd started) in
  isActive (snd started) = true
  /\ listeners (fst stopped) = []
  /\ isActive (snd stopped) = false
  /\ onShakeCallback (snd stopped) = None
  /\ lastShakeTime (snd stopped) = 0
  /\ shakeTimeout (snd stopped) = 1000
  /\ stop (fst stopped) (snd stopped) = stopped.
Proof.
  apply (stop_undoes_start tt (Some high) noListeners initial).
  cbn. apply not_elem_of_nil.
Defined.

(** [restart_keeps_debounce]: a shake at 5000, then a strong sample at
    5400. *)
Lemma restart_keeps_debounce_witness :
  let s1 := fst (listener 5000 strongSample startedMedium) in
  let stopped := stop noListeners s1 in
  let restarted := start () (Some high) (fst stopped) (snd stopped) in
  snd (listener 5400 strongSample s1) = None
  /\ snd (listener 5400 strongSample (snd restarted)) = None
  /\ snd (listener 5400 strongSample (setSensitivity high s1)) = None.
Proof.
  apply (restart_keeps_debounce () () (Some high) high noListeners
           startedMedium 5000 5400 strongSample strongSample);
    first [reflexivity | cbn; lia].
Defined.

(** [more_sensitive_fires_more] at a sample of magnitude 4. *)
Lemma more_sensitive_fires_more_witness :
  snd (listener 5000 strongSample (setSensitivity high startedMedium))
    = Some ().
Proof.
  destruct (more_sensitive_fires_more () startedMedium 5000 strongSample)
    as [Hlm Hmh].
  apply Hmh, Hlm. reflexivity.
Defined.

(** [one_callback_per_update] with two listeners registered. *)
Lemma one_callback_per_update_witness :
  (length (snd (deliver [0%nat; 1%nat] 5000 strongSample startedMedium))
     <= 1)%nat.
Proof.
  apply (one_callback_per_update [0%nat; 1%nat] startedMedium 5000
           strongSample).
  cbn. lia.
Defined.

(** [fired_shakes_are_spaced]: shakes at 5000 and 6100, with a strong
    sample at 5500 between them. *)
Lemma fired_shakes_are_spaced_witness :
  shakeTimeout startedMedium < 6100 - 5000.
Proof.
  apply (fired_shakes_are_spaced
           [(5000, strongSample); (5500, strongSample); (6100, strongSample)]
           startedMedium 0 2 5000 6100 strongSample strongSample);
    try reflexivity; try lia.
  intros a b ta da tb db Hab Ha Hb.
  destruct a as [|[|[|a]]]; destruct b as [|[|[|b]]];
    cbn in Ha, Hb; try discriminate; try lia;
    injection Ha as <- _; injection Hb as <- _; lia.
Defined.

End ShakeServiceExamples.

(** ** voiceRecognitionService.ts *)

Module VoiceServiceMore.

Import VoiceService VoiceContext App Runs Progress.

(** Case analysis on the variables the code branches on. *)
Ltac branches :=
  repeat match goal with
  | |- context [match ?x with _ => _ end] => is_var x; destruct x
  | |- context [orb ?x _] => is_var x; destruct x; cbn [orb]
  | |- context [andb ?x _] => is_var x; destruct x; cbn [andb]
  | |- context [negb ?x] => is_var x; destruct x; cbn [negb]
  end.

Ltac unfold_service :=
  unfold recordChunk_resume, recordChunk, recordChunk_try,
    recordChunk_create, recordChunk_catch, recordChunk_catchEnd,
    recordChunk_finally, cleanup_resume, cleanup, cleanup_force,
    cleanup_end, stopRecording_resume, stopRecording, stopRecording_retry,
    stopRecording_end, forceCleanup_resume, forceCleanup,
    forceCleanup_rest, initialize_resume, initialize, initialize_catch,
    await_call, advances, never in *.

(** X6: [initialize] never throws and reports the state it leaves.  It
    returns true only with [isInitialized] set, and false (permission
    denied, or a rejected call) with the service as it was; it ends
    within two awaits, and with none when already initialized. *)
Theorem initialize_reports_state (k : KInitialize) (v : Settled)
    (w : World) :
  let reports (w' : World) (b : bool) :=
    if b then isInitialized (voice w') = true else voice w' = voice w in
  advances left_initialize 3 reports never (initialize w)
  /\ advances left_initialize (left_initialize k) reports never
       (initialize_resume k v w)
  /\ (if isInitialized (voice w) then initialize w = (w, Return true)
      else snd (initialize w) = Await RequestPermissionsAsync KI_permissions).
Proof.
  destruct w as [[r ir ii lk cr] ? ? ? ? ? ? ? ? ? ? ? ?].
  repeat split.
  - unfold_service. cbn. destruct ii; cbn; auto.
  - unfold_service.
    destruct k, v as [[]|]; cbn; branches; cbn; auto.
  - unfold_service. cbn. destruct ii; reflexivity.
Qed.

(** X7: the lock of [recordChunk].  A call that finds the lock taken
    returns null at once and leaves the service as it is.  A call that
    finds it free takes it and suspends.  From then on the call never
    throws, has fewer awaits ahead after each one (at most eight in all,
    however they settle), and whenever it ends the lock is free. *)
Theorem recordChunk_releases_lock (durationMs : Z) (k : KRecordChunk)
    (v : Settled) (w : World) :
  (if recordingLock (voice w)
   then snd (recordChunk durationMs w) = Return None
        /\ voice (fst (recordChunk durationMs w)) = voice w
   else advances left_recordChunk 9 never never (recordChunk durationMs w)
        /\ recordingLock (voice (fst (recordChunk durationMs w))) = true)
  /\ advances left_recordChunk (left_recordChunk k)
       (fun w' _ => recordingLock (voice w') = false) never
       (recordChunk_resume k v w).
Proof.
  destruct w as [[r ir ii lk cr] ? ? ? ? ? ? ? ? ? ? ? ?].
  split.
  - unfold_service. cbn. destruct lk; cbn; [auto|].
    destruct r; cbn; auto with lia.
  - unfold_service.
    destruct k as [d [|]| | | | | |], v as [[]|]; cbn;
      branches; cbn; auto with lia.
Qed.

(** X8: [stopRecording] never throws; it has fewer awaits ahead after
    each one, however they settle (a failed status request or a failed
    [stopAndUnloadAsync] included), and whenever it ends the service has
    no recording and [isRecording] is false. *)
Theorem stopRecording_clears_recording (k : KStopRecording) (v : Settled)
    (w : World) :
  let cleared (w' : World) (_ : unit) :=
    recording (voice w') = None /\ isRecording (voice w') = false in
  advances left_stopRecording 6 cleared never (stopRecording w)
  /\ advances left_stopRecording (left_stopRecording k) cleared never
       (stopRecording_resume k v w).
Proof.
  destruct w as [[r ir ii lk cr] ? ? ? ? ? ? ? ? ? ? ? ?].
  split.
  - unfold_service. cbn. destruct r; cbn; auto with lia.
  - unfold_service.
    destruct k, v as [[]|]; cbn;
      branches; cbn; auto with lia.
Qed.

(** X9: [cleanup] frees the recording lock at once, whoever holds it,
    and suspends.  It has fewer awaits ahead after each one (at most five
    in all); a rejected [stopAndUnloadAsync] or status request does not
    make it fail: it throws only what its last 50 ms timer rejects with;
    and when it returns, [isInitialized] is false. *)
Theorem cleanup_resets_service (k : KCleanup) (v : Settled) (w : World) :
  (advances left_cleanup 6 never never (cleanup w)
   /\ recordingLock (voice (fst (cleanup w))) = false)
  /\ advances left_cleanup (left_cleanup k)
       (fun w' _ => isInitialized (voice w') = false)
       (fun _ e => k = KC_forceCleanup KF_delay /\ v = Rejected e)
       (cleanup_resume k v w).
Proof.
  destruct w as [[r ir ii lk cr] ? ? ? ? ? ? ? ? ? ? ? ?].
  split.
  - unfold_service. cbn. destruct r; cbn; auto with lia.
  - unfold_service.
    destruct k as [[]|[]], v as [[]|]; cbn;
      branches; cbn; auto with lia.
Qed.

(** X10: [transcribeAudio] changes neither the service nor the storage,
    and it reports success only for a fulfilled request whose response
    has [success] true; the result then carries the response's transcript
    and keyword flag (absent ones as the empty string and false), and
    [hasVoice] unless the response says false. *)
Theorem transcribeAudio_success_from_response (k : KTranscribe)
    (v : Settled) (w : World) :
  voice (fst (transcribeAudio_resume k v w)) = voice w
  /\ storage (fst (transcribeAudio_resume k v w)) = storage w
  /\ match snd (transcribeAudio_resume k v w) with
     | Return r =>
         if success r then
           exists data,
             k = KT_post /\ v = Fulfilled (VResponse (Some data))
             /\ d_success data = true
             /\ transcript r = default EmptyString (d_transcript data)
             /\ containsKeyword r = default false (d_containsKeyword data)
             /\ hasVoice r
                = negb (bool_decide (d_hasVoice data = Some false))
         else True
     | Await op _ => exists uri, k = KT_token uri /\ op = Post uri
     | Throw _ => False
     end.
Proof.
  unfold transcribeAudio_resume, transcribeAudio_catch.
  destruct k, v as [[| | |item|[data|]]|err]; cbn;
    try destruct (truthy item); try destruct err; cbn;
    repeat split; eauto.
  destruct (d_success data) eqn:E; [|exact I].
  exists data. repeat split; auto.
  destruct (d_hasVoice data) as [[]|]; reflexivity.
Qed.

End VoiceServiceMore.

(** ** VoiceContext.tsx *)

Module VoiceContextMore.

Import VoiceService VoiceContext App Runs Progress VoiceServiceMore.

(** An awaited call throws only what its two continuations throw. *)
Lemma await_call_throws_only {K1 K2 R1 R2 : Type}
    (callee : World * Step K1 R1) (wrap : K1 -> K2) onReturn onThrow
    (allowed : Error -> Prop) :
  (forall r w, throws_only allowed (onReturn r w)) ->
  (forall e w, throws_only allowed (onThrow e w)) ->
  throws_only allowed
    (@await_call K1 K2 R1 R2 callee wrap onReturn onThrow).
Proof.
  intros Hr Ht. destruct callee as [w' [op k|r|e]]; cbn;
    [exact I|apply Hr|apply Ht].
Qed.

(** When the callee does not throw, the handler of its exceptions does
    not matter. *)
Lemma await_call_quiet_callee {K1 K2 R1 R2 : Type}
    (callee : World * Step K1 R1) (wrap : K1 -> K2) onReturn onThrow
    (allowed : Error -> Prop) :
  throws_only (fun _ => False) callee ->
  (forall r w, throws_only allowed (onReturn r w)) ->
  throws_only allowed
    (@await_call K1 K2 R1 R2 callee wrap onReturn onThrow).
Proof.
  intros Hc Hr. destruct callee as [w' [op k|r|e]]; cbn in *;
    [exact I|apply Hr|contradiction].
Qed.

(** X11: [stopListening] clears [listeningLoopRef] before its first
    await.  It never throws, also when [cleanup] does; it has fewer
    awaits ahead after each one (at most six in all), and whenever it
    ends [isListening] is false. *)
Theorem stopListening_always_ends (k : KStopListening) (v : Settled)
    (w : World) :
  (snd (stopListening w) = Await (Timeout 500) KSL_wait
   /\ listeningLoopRef (fst (stopListening w)) = false)
  /\ advances left_stopListening (left_stopListening k)
       (fun w' _ => isListening w' = false) never
       (stopListening_resume k v w).
Proof.
  split; [split; reflexivity|].
  destruct w as [[r ir ii lk cr] ? ? ? ? ? ? ? ? ? ? ? ?].
  unfold stopListening_resume, stopListening_end, stopListening_catch.
  unfold_service.
  destruct k as [|[[]|[]]], v as [[]|]; cbn;
    branches; cbn; auto with lia.
Qed.

Section Quiet.

Variable loc : option LocationData.

Local Abbreviation quiet := (throws_only (fun _ => False)).

Lemma quiet_stopListening_resume k v w : quiet (stopListening_resume k v w).
Proof.
  unfold stopListening_resume.
  destruct k, v; try exact I; apply await_call_throws_only; intros; exact I.
Qed.

Lemma quiet_afterTrigger r w : quiet (afterTrigger r w).
Proof.
  unfold afterTrigger. apply await_call_throws_only; intros; exact I.
Qed.

Lemma quiet_afterTranscribe r w : quiet (afterTranscribe loc r w).
Proof.
  unfold afterTranscribe.
  destruct (success r); [|exact I].
  destruct (_ && _); [|exact I].
  destruct (containsKeyword r); [|exact I].
  apply await_call_throws_only; intros;
    [apply quiet_afterTrigger|exact I].
Qed.

Lemma quiet_afterRecord r w : quiet (afterRecord loc r w).
Proof.
  unfold afterRecord. destruct r as [uri|]; [|exact I].
  destruct (negb _); [exact I|].
  apply await_call_throws_only; intros;
    [apply quiet_afterTranscribe|exact I].
Qed.

Lemma quiet_loop w : quiet (loop loc w).
Proof.
  unfold loop. destruct (listeningLoopRef w); [|exact I].
  apply await_call_throws_only; intros; [apply quiet_afterRecord|exact I].
Qed.

Lemma quiet_afterInitialize b w : quiet (afterInitialize loc b w).
Proof.
  unfold afterInitialize. destruct (negb b); [exact I|apply quiet_loop].
Qed.

Lemma quiet_startListening w : quiet (startListening loc w).
Proof.
  unfold startListening. destruct (listeningLoopRef w); [exact I|].
  apply await_call_throws_only; intros;
    [apply quiet_afterInitialize|exact I].
Qed.

Lemma quiet_startListening_resume k v w :
  quiet (startListening_resume loc k v w).
Proof.
  unfold startListening_resume.
  destruct k; try (destruct v; first [exact I|apply quiet_loop]);
    apply await_call_throws_only; intros;
    first [ exact I
          | apply quiet_afterInitialize | apply quiet_afterRecord
          | apply quiet_afterTranscribe | apply quiet_afterTrigger ].
Qed.

Lemma quiet_initialize_resume k v w : quiet (initialize_resume k v w).
Proof.
  unfold initialize_resume, initialize_catch.
  destruct k, v as [[]|]; cbn; branches; exact I.
Qed.

Lemma quiet_handleShakeDetected_resume k v w :
  quiet (ShakeContext.handleShakeDetected_resume k v w).
Proof.
  unfold ShakeContext.handleShakeDetected_resume,
    ShakeContext.handleShakeDetected_catch.
  destruct k, v as [[]|]; cbn; try exact I.
  - destruct (parseGuardians _); exact I.
  - destruct (parseAlerts _); exact I.
Qed.

End Quiet.

(** X12: no task of the app ends in an unhandled rejection.  Whatever an
    await of [init], of the listening loop, of [stopListening] or of the
    shake handler settles to, the task suspends again or returns; a
    press of the voice toggle throws only what its own 500 ms timer
    rejects with.  [startListening] and the shake handler do not throw
    before their first await either. *)
Theorem tasks_never_throw (t : Task) (v : Settled)
    (loc : option LocationData) (w : World) :
  throws_only
    (fun e => exists l, t = TToggleVoice l KG_wait /\ v = Rejected e)
    (resumeTask t v w)
  /\ throws_only (fun _ => False) (startListening loc w)
  /\ throws_only (fun _ => False) (ShakeContext.handleShakeDetected loc w).
Proof.
  split; [|split].
  - assert (Has : forall {K R} (wrap : K -> Task) (r : World * Step K R)
                    (allowed : Error -> Prop),
              throws_only allowed r -> throws_only allowed (as_task wrap r))
      by (intros K R wrap [w' []] allowed H; exact H).
    assert (Hweak : forall {K R} (r : World * Step K R)
                      (allowed : Error -> Prop),
              throws_only (fun _ => False) r -> throws_only allowed r)
      by (intros K R [w' []] allowed H; cbn in *; [exact I..|contradiction]).
    destruct t as [k|l k|l k|k|k]; cbn [resumeTask]; apply Has.
    + apply Hweak, quiet_initialize_resume.
    + unfold toggleVoiceDetection_resume.
      destruct k as [ks| |kl].
      * apply await_call_quiet_callee;
          [apply quiet_stopListening_resume|intros; exact I].
      * destruct v; [|cbn; eauto].
        apply await_call_quiet_callee;
          [apply quiet_startListening|intros; exact I].
      * apply await_call_quiet_callee;
          [apply quiet_startListening_resume|intros; exact I].
    + apply Hweak, quiet_startListening_resume.
    + apply Hweak, quiet_stopListening_resume.
    + apply Hweak, quiet_handleShakeDetected_resume.
  - apply quiet_startListening.
  - unfold ShakeContext.handleShakeDetected. destruct loc; exact I.
Qed.

Lemma recordChunk_resume_flag k v w :
  listeningLoopRef (fst (recordChunk_resume k v w)) = listeningLoopRef w.
Proof.
  destruct w as [[r ir ii lk cr] ? ? ? ? ? ? ? ? ? ? ? ?].
  unfold_service.
  destruct k as [d [|]| | | | | |], v as [[]|]; cbn;
    branches; reflexivity.
Qed.

Import Stopping.

Lemma left_stopped_pos k : past_initialize k = true -> (0 < left_stopped k)%nat.
Proof.
  destruct k as [|kr| |[]|[]|[|[[]|[]]]| |]; cbn; intros; try lia;
    discriminate.
Qed.

(** One resumption of the loop while [listeningLoopRef] is clear. *)
Lemma stopped_step loc k v w :
  listeningLoopRef w = false ->
  past_initialize k = true ->
  match startListening_resume loc k v w with
  | (w', Await _ k') =>
      past_initialize k' = true
      /\ (left_stopped k' < left_stopped k)%nat
      /\ listeningLoopRef w' = false
  | (w', Return _) => isListening w' = false /\ listeningLoopRef w' = false
  | (_, Throw _) => False
  end.
Proof.
  destruct w as [[r ir ii lk cr] flag ? ? ? ? ? ? ? ? ? ? ?].
  cbn [listeningLoopRef]. intros -> Hk.
  destruct k as [ki|kr| |kt|kd|ks| |]; try discriminate;
    cbn [startListening_resume].
  - (* inside recordChunk *)
    unfold afterRecord, loop_exit, loop_catch. unfold_service.
    destruct kr as [d [|]| | | | | |], v as [[]|]; cbn;
      branches; cbn; auto with lia.
  - (* the retry delay *)
    destruct v; cbn; auto with lia.
  - (* inside transcribeAudio *)
    unfold transcribeAudio_resume, transcribeAudio_catch, afterTranscribe,
      afterTrigger, triggerEmergencyAlert, stopListening, loop_delay,
      loop_catch, await_call.
    destruct kt, v as [[| | |item|[data|]]|err]; cbn;
      try destruct (truthy item); try destruct err; cbn; auto with lia.
    destruct (d_success data); cbn; [|auto with lia].
    destruct (d_hasVoice data) as [[]|]; cbn; try auto with lia;
      destruct (negb _); cbn; try auto with lia;
      destruct (default false (d_containsKeyword data)); cbn;
      try auto with lia; destruct loc; cbn; auto with lia.
  - (* inside the dispatch *)
    unfold triggerEmergencyAlert_resume, triggerEmergencyAlert_catch,
      afterTrigger, stopListening, loop_catch, await_call.
    destruct kd, v as [[| | |item|]|]; cbn;
      try destruct (parseGuardians item);
      try destruct (parseAlerts item);
      try destruct guardians; cbn; auto with lia.
  - (* inside stopListening *)
    unfold stopListening_resume, stopListening_end, stopListening_catch,
      afterStop, loop_exit, loop_catch.
    unfold_service.
    destruct ks as [|[[]|[]]], v as [[]|]; cbn;
      branches; cbn; auto with lia.
  - (* the delay between chunks *)
    destruct v; cbn; auto with lia.
  - (* the delay after an error *)
    destruct v; cbn; auto with lia.
Qed.

Lemma settle_flag op a w :
  listeningLoopRef (fst (settle op a w)) = listeningLoopRef w.
Proof. destruct a, op; reflexivity. Qed.

(** The loop run alone from there, with enough answers to reach its
    end. *)
Lemma stopped_run loc answers : forall k w op,
  listeningLoopRef w = false ->
  past_initialize k = true ->
  (left_stopped k <= length answers)%nat ->
  match listenAlone loc answers w op k with
  | (w', Return _) => isListening w' = false /\ listeningLoopRef w' = false
  | _ => False
  end.
Proof.
  induction answers as [|a rest IH]; intros k w op Hflag Hk Hlen.
  - pose proof (left_stopped_pos k Hk). cbn in Hlen. lia.
  - cbn [listenAlone].
    pose proof (settle_flag op a w) as Hs.
    destruct (settle op a w) as [w1 v]. cbn [fst] in Hs.
    rewrite Hflag in Hs.
    pose proof (stopped_step loc k v w1 Hs Hk) as Hstep.
    destruct (startListening_resume loc k v w1) as [w2 [op' k'|[]|e]].
    + destruct Hstep as (Hk' & Hlt & Hf').
      apply IH; [exact Hf'|exact Hk'|]. cbn [length] in Hlen. lia.
    + exact Hstep.
    + exact Hstep.
Qed.

(** X13: what a stop request does to the listening loop.  While
    [listeningLoopRef] is clear, every resumption of the loop (past its
    call of [initialize]) keeps it clear, never throws, and leaves the
    task with fewer awaits ahead or ends it with [isListening] false;
    run with nothing else in between, the loop therefore ends, however
    its awaits settle.  The flag is read at the head of the loop and
    after [recordChunk] only.  So a capture in progress is finished
    and not sent: from inside [recordChunk] the task stays there, waits
    to retry or to back off, or ends.  But a transcription under way
    is not cancelled: once the token is read the audio is posted, and a
    keyword in the response still starts the dispatch. *)
Theorem stop_request_ends_loop (loc : option LocationData)
    (k : KStartListening) (kr : KRecordChunk) (v : Settled)
    (answers : list Answer) (op : Op) (w : World) :
  listeningLoopRef w = false ->
  past_initialize k = true ->
  (left_stopped k <= length answers)%nat ->
  match listenAlone loc answers w op k with
  | (w', Return _) => isListening w' = false /\ listeningLoopRef w' = false
  | _ => False
  end
  /\ match startListening_resume loc k v w with
     | (w', Await _ k') =>
         past_initialize k' = true
         /\ (left_stopped k' < left_stopped k)%nat
         /\ listeningLoopRef w' = false
     | (w', Return _) =>
         isListening w' = false /\ listeningLoopRef w' = false
     | (_, Throw _) => False
     end
  /\ match startListening_resume loc (KL_record kr) v w with
     | (_, Await _ (KL_record _)) => True
     | (_, Await op' KL_retry) => op' = Timeout 1000
     | (_, Await op' KL_backoff) => op' = Timeout 2000
     | (_, Await _ _) => False
     | (w', Return _) => isListening w' = false
     | (_, Throw _) => False
     end
  /\ (forall uri token,
        truthy token = true ->
        snd (startListening_resume loc (KL_transcribe (KT_token uri))
               (Fulfilled (VItem token)) w)
          = Await (Post uri) (KL_transcribe KT_post))
  /\ (forall l data t,
        loc = Some l ->
        d_success data = true ->
        d_transcript data = Some t ->
        t <> EmptyString ->
        d_containsKeyword data = Some true ->
        d_hasVoice data <> Some false ->
        snd (startListening_resume loc (KL_transcribe KT_post)
               (Fulfilled (VResponse (Some data))) w)
          = Await (GetItem "demo_guardians")
              (KL_trigger (KD_guardians l))).
Proof.
  intros Hflag Hk Hlen. split; [|split; [|split; [|split]]].
  - apply stopped_run; assumption.
  - apply stopped_step; assumption.
  - cbn [startListening_resume].
    pose proof (recordChunk_resume_flag kr v w) as Hf. rewrite Hflag in Hf.
    destruct (recordChunk_resume kr v w) as [w' [op' k'|[uri|]|e]];
      cbn [await_call afterRecord fst] in *.
    + exact I.
    + rewrite Hf. reflexivity.
    + reflexivity.
    + reflexivity.
  - intros uri token Ht. cbn. rewrite Ht. reflexivity.
  - intros l data t -> Hs Htr Hne Hkw Hv. cbn.
    unfold afterTranscribe. cbn [success hasVoice transcript containsKeyword].
    rewrite Hs, Htr, Hkw. cbn [default].
    assert (Hh : match d_hasVoice data with Some false => false | _ => true end
                 = true)
      by (destruct (d_hasVoice data) as [[]|]; congruence).
    rewrite Hh. unfold id.
    destruct (String.eqb_spec t EmptyString) as [E|_]; [contradiction|].
    reflexivity.
Qed.

Lemma delete_last_inserted {A} (l : list A) (x y : A) :
  delete (length l) (<[length l := x]> (l ++ [y])) = l.
Proof. induction l as [|a l IH]; cbn; [reflexivity|f_equal; exact IH]. Qed.

(** X14: enabling voice detection without the microphone.  From a state
    where voice detection is off and the audio is not initialized, the
    toggle sets [isEnabled] at once; when the permission request made
    500 ms later is denied, the call ends after the permission dialog
    and the error toast: [isEnabled] stays true although nothing
    listens, and nothing is left pending that would try again. *)
Theorem enabling_without_microphone (s : State) :
  voiceEnabled (world s) = false ->
  listeningLoopRef (world s) = false ->
  isInitialized (voice (world s)) = false ->
  let n := length (pending s) in
  let s' :=
    run [PressToggleVoice; Tick 500; Settle n Resolves;
         Settle n (Permission false)] s in
  pending s' = pending s
  /\ voiceEnabled (world s') = true
  /\ isListening (world s') = isListening (world s)
  /\ listeningLoopRef (world s') = false
  /\ log (world s')
     = log (world s)
       ++ [AlertAlert "Microphone Permission Required";
           ToastShow toast_error "Microphone Access Required"].
Proof.
  intros Hen Hflag Hinit n s'. destruct s as [w ps].
  cbn [world pending] in Hen, Hflag, Hinit, n, s' |- *.
  assert (E : s' =
    mkState
      (emit (ToastShow toast_error "Microphone Access Required")
         (emit (AlertAlert "Microphone Permission Required")
            (set_clock (clock w + 500) (setVoiceEnabled true w))))
      ps).
  { unfold s', run. cbn [foldl].
    (* the press *)
    unfold step at 4. cbn [world pending].
    unfold toggleVoiceDetection. rewrite Hen.
    cbn [negb as_task spawn].
    (* 500 ms pass *)
    unfold step at 3. cbn [world pending]. cbn [Z.ltb Z.compare].
    (* the timer of the toggle fires *)
    unfold step at 2. cbn [world pending]. fold n.
    rewrite list_lookup_middle by reflexivity.
    cbn [ready awaiting since task clock set_clock setVoiceEnabled].
    rewrite Z.leb_refl.
    cbn [settle resumeTask toggleVoiceDetection_resume].
    unfold startListening.
    cbn [listeningLoopRef set_clock setVoiceEnabled]. rewrite Hflag.
    unfold initialize.
    cbn [voice set_clock setVoiceEnabled]. rewrite Hinit.
    cbn [await_call as_task].
    (* the permission is denied *)
    unfold step. cbn [world pending].
    unfold n. rewrite list_lookup_insert_eq
      by (rewrite length_app; cbn; lia).
    cbn [ready awaiting task settle resumeTask toggleVoiceDetection_resume
         startListening_resume initialize_resume await_call afterInitialize
         negb as_task].
    rewrite delete_last_inserted. reflexivity. }
  rewrite E. cbn [world pending voiceEnabled isListening listeningLoopRef
                  log emit set_clock setVoiceEnabled].
  rewrite <- app_assoc. auto.
Qed.

End VoiceContextMore.

Module VoiceContextExamples.

Import VoiceService VoiceContext App Runs VoiceContextMore.

(** [stop_request_ends_loop] for a loop that has just sent its audio
    when the stop is requested: whatever comes back, the loop ends. *)
Lemma stop_request_ends_loop_witness :
  isListening
    (fst (listenAlone None (Response None :: repeat Resolves 10) blank
            (Post 0) (KL_transcribe KT_post))) = false.
Proof.
  destruct (stop_request_ends_loop None (KL_transcribe KT_post)
              (KR_release 0) (Fulfilled VUnit)
              (Response None :: repeat Resolves 10) (Post 0) blank
              eq_refl eq_refl) as [H _]; [cbn; lia|].
  destruct (listenAlone None (Response None :: repeat Resolves 10) blank
              (Post 0) (KL_transcribe KT_post)) as [w' [? ?|[]|?]];
    [contradiction|exact (proj1 H)|contradiction].
Defined.

(** [enabling_without_microphone] right after the providers mounted,
    while the permission request of [init()] is still pending. *)
Lemma enabling_without_microphone_witness :
  let s' :=
    run [PressToggleVoice; Tick 500; Settle 1 Resolves;
         Settle 1 (Permission false)] Schedules.start0 in
  pending s' = pending Schedules.start0
  /\ voiceEnabled (world s') = true
  /\ isListening (world s') = false
  /\ listeningLoopRef (world s') = false.
Proof.
  destruct (enabling_without_microphone Schedules.start0
              eq_refl eq_refl eq_refl) as (H1 & H2 & H3 & H4 & _).
  repeat split; assumption.
Defined.

End VoiceContextExamples.

(** ** ShakeContext.tsx and the running app *)

Module ShakeProviderMore.

Import VoiceService VoiceContext App Runs Progress ClosureFacts.

(** The functions of the voice provider and of the voice service, and the
    two dispatch handlers, leave the shake service, the accelerometer
    module and the state of ShakeProvider alone. *)
Lemma side_await_call {K1 K2 R1 R2 : Type} (callee : World * Step K1 R1)
    (wrap : K1 -> K2) onReturn onThrow c :
  shakeSide (fst callee) = c ->
  (forall r w, shakeSide (fst (onReturn r w)) = shakeSide w) ->
  (forall e w, shakeSide (fst (onThrow e w)) = shakeSide w) ->
  shakeSide (fst (@await_call K1 K2 R1 R2 callee wrap onReturn onThrow)) = c.
Proof.
  intros Hc Hr Ht. destruct callee as [w' [op k|r|e]]; cbn in *;
    [assumption|rewrite Hr|rewrite Ht]; assumption.
Qed.

Lemma side_initialize w : shakeSide (fst (initialize w)) = shakeSide w.
Proof. unfold initialize. leaf. Qed.
Lemma side_initialize_resume k v w :
  shakeSide (fst (initialize_resume k v w)) = shakeSide w.
Proof. unfold initialize_resume. leaf. Qed.
Lemma side_forceCleanup w : shakeSide (fst (forceCleanup w)) = shakeSide w.
Proof. unfold forceCleanup. leaf. Qed.
Lemma side_forceCleanup_resume k v w :
  shakeSide (fst (forceCleanup_resume k v w)) = shakeSide w.
Proof. unfold forceCleanup_resume. leaf. Qed.
Lemma side_recordChunk_finally {K R} (r : World * Step K R) c :
  shakeSide (fst r) = c -> shakeSide (fst (recordChunk_finally r)) = c.
Proof. destruct r as [w []]; intros <-; reflexivity. Qed.
Lemma side_recordChunk_catch e w :
  shakeSide (fst (recordChunk_catch e w)) = shakeSide w.
Proof. unfold recordChunk_catch. leaf. Qed.
Lemma side_recordChunk d w : shakeSide (fst (recordChunk d w)) = shakeSide w.
Proof.
  unfold recordChunk. case_match; [reflexivity|].
  apply side_recordChunk_finally. unfold recordChunk_try.
  apply side_await_call; intros;
    [via side_forceCleanup|reflexivity|via side_recordChunk_catch].
Qed.
Lemma side_recordChunk_resume k v w :
  shakeSide (fst (recordChunk_resume k v w)) = shakeSide w.
Proof.
  unfold recordChunk_resume. apply side_recordChunk_finally.
  repeat case_match; subst; try reflexivity;
    try via side_recordChunk_catch.
  all: apply side_await_call; intros;
    [via side_forceCleanup_resume|reflexivity|via side_recordChunk_catch].
Qed.
Lemma side_transcribeAudio_catch e w :
  shakeSide (fst (transcribeAudio_catch e w)) = shakeSide w.
Proof. unfold transcribeAudio_catch. leaf. Qed.
Lemma side_transcribeAudio_resume k v w :
  shakeSide (fst (transcribeAudio_resume k v w)) = shakeSide w.
Proof.
  unfold transcribeAudio_resume.
  repeat case_match; subst; try reflexivity; via side_transcribeAudio_catch.
Qed.
Lemma side_stopRecording w : shakeSide (fst (stopRecording w)) = shakeSide w.
Proof. unfold stopRecording. leaf. Qed.
Lemma side_stopRecording_resume k v w :
  shakeSide (fst (stopRecording_resume k v w)) = shakeSide w.
Proof. unfold stopRecording_resume, stopRecording_retry. leaf. Qed.
Lemma side_cleanup_force w : shakeSide (fst (cleanup_force w)) = shakeSide w.
Proof.
  unfold cleanup_force. apply side_await_call; intros;
    [via side_forceCleanup|reflexivity..].
Qed.
Lemma side_cleanup w : shakeSide (fst (cleanup w)) = shakeSide w.
Proof.
  unfold cleanup. apply side_await_call; intros;
    [via side_stopRecording|via side_cleanup_force|reflexivity].
Qed.
Lemma side_cleanup_resume k v w :
  shakeSide (fst (cleanup_resume k v w)) = shakeSide w.
Proof.
  unfold cleanup_resume. destruct k; apply side_await_call; intros;
    first [via side_stopRecording_resume| via side_forceCleanup_resume| via side_cleanup_force| reflexivity].
Qed.
Lemma side_stopListening_resume k v w :
  shakeSide (fst (stopListening_resume k v w)) = shakeSide w.
Proof.
  unfold stopListening_resume.
  repeat case_match; subst; try reflexivity;
    apply side_await_call; intros;
    first [via side_cleanup| via side_cleanup_resume| reflexivity].
Qed.
Lemma side_triggerEmergencyAlert loc w :
  shakeSide (fst (triggerEmergencyAlert loc w)) = shakeSide w.
Proof. unfold triggerEmergencyAlert. leaf. Qed.
Lemma side_triggerEmergencyAlert_resume k v w :
  shakeSide (fst (triggerEmergencyAlert_resume k v w)) = shakeSide w.
Proof. unfold triggerEmergencyAlert_resume. leaf. Qed.
Lemma side_handleShakeDetected_resume k v w :
  shakeSide (fst (ShakeContext.handleShakeDetected_resume k v w)) = shakeSide w.
Proof. unfold ShakeContext.handleShakeDetected_resume. leaf. Qed.

Lemma side_afterTrigger r w : shakeSide (fst (afterTrigger r w)) = shakeSide w.
Proof.
  unfold afterTrigger. apply side_await_call; intros; reflexivity.
Qed.
Lemma side_afterTranscribe loc r w :
  shakeSide (fst (afterTranscribe loc r w)) = shakeSide w.
Proof.
  unfold afterTranscribe. repeat case_match; try reflexivity.
  apply side_await_call; intros;
    [via side_triggerEmergencyAlert|via side_afterTrigger|reflexivity].
Qed.
Lemma side_afterRecord loc r w :
  shakeSide (fst (afterRecord loc r w)) = shakeSide w.
Proof.
  unfold afterRecord. leaf.
Qed.
Lemma side_loop loc w : shakeSide (fst (loop loc w)) = shakeSide w.
Proof.
  unfold loop. case_match; [|reflexivity].
  apply side_await_call; intros;
    [via side_recordChunk|via side_afterRecord|reflexivity].
Qed.
Lemma side_afterInitialize loc b w :
  shakeSide (fst (afterInitialize loc b w)) = shakeSide w.
Proof.
  unfold afterInitialize. case_match; [reflexivity|].
  via side_loop.
Qed.
Lemma side_startListening loc w :
  shakeSide (fst (startListening loc w)) = shakeSide w.
Proof.
  unfold startListening. case_match; [reflexivity|].
  apply side_await_call; intros;
    [via side_initialize|via side_afterInitialize|reflexivity].
Qed.
Lemma side_startListening_resume loc k v w :
  shakeSide (fst (startListening_resume loc k v w)) = shakeSide w.
Proof.
  unfold startListening_resume.
  destruct k; repeat case_match; subst; try reflexivity;
    try via side_loop;
    apply side_await_call; intros;
    first [ via side_initialize_resume| via side_recordChunk_resume| via side_transcribeAudio_resume| via side_triggerEmergencyAlert_resume| via side_stopListening_resume| via side_afterInitialize| via side_afterRecord| via side_afterTranscribe| via side_afterTrigger| reflexivity ].
Qed.
Lemma side_toggle_resume loc k v w :
  shakeSide (fst (toggleVoiceDetection_resume loc k v w)) = shakeSide w.
Proof.
  unfold toggleVoiceDetection_resume.
  destruct k; repeat case_match; subst; try reflexivity;
    apply side_await_call; intros;
    first [ via side_stopListening_resume| via side_startListening| via side_startListening_resume| reflexivity ].
Qed.

Lemma side_handleShakeDetected loc w :
  shakeSide (fst (ShakeContext.handleShakeDetected loc w)) = shakeSide w.
Proof. unfold ShakeContext.handleShakeDetected. leaf. Qed.

Lemma side_toggleVoiceDetection isEnabled w :
  shakeSide (fst (toggleVoiceDetection isEnabled w)) = shakeSide w.
Proof. unfold toggleVoiceDetection. leaf. Qed.

Lemma side_resumeTask t v w :
  shakeSide (fst (resumeTask t v w)) = shakeSide w.
Proof.
  destruct t; cbn [resumeTask]; rewrite keeps_as_task.
  - apply side_initialize_resume.
  - apply side_toggle_resume.
  - apply side_startListening_resume.
  - apply side_stopListening_resume.
  - apply side_handleShakeDetected_resume.
Qed.

Lemma side_settle op a w : shakeSide (fst (settle op a w)) = shakeSide w.
Proof. destruct a, op; reflexivity. Qed.

Lemma side_voice_handleAppStateChange loc en next w :
  shakeSide (fst (VoiceContext.handleAppStateChange loc en next w)) = shakeSide w.
Proof.
  unfold VoiceContext.handleAppStateChange.
  case_match.
  - pose proof (side_startListening loc w) as Hk.
    destruct (startListening loc w) as [w' []]; exact Hk.
  - destruct next; reflexivity.
Qed.

Import ShakeService DispatchFacts.

Lemma consistent_side w w' :
  shakeSide w' = shakeSide w -> shake_consistent w -> shake_consistent w'.
Proof.
  unfold shakeSide, shake_consistent. intros [= -> -> -> ->]. auto.
Qed.

Lemma invoke_side cbs : forall s,
  shakeSide (world (invoke cbs s)) = shakeSide (world s).
Proof.
  induction cbs as [|cb cbs IH]; intros s; [reflexivity|].
  cbn [invoke]. rewrite IH.
  pose proof (side_handleShakeDetected (cb_currentLocation cb) (world s))
    as Hr.
  destruct (ShakeContext.handleShakeDetected _ _) as [w1 [op t| |]];
    exact Hr.
Qed.

Lemma consistent_start loc w :
  shake_consistent w -> shakeEnabled w = true ->
  shake_consistent (ShakeContext.startShakeDetection loc (sensitivity w) w).
Proof.
  unfold ShakeContext.startShakeDetection, shake_consistent, isActive.
  intros (Hto & Hth & Hsub) Hen.
  destruct (subscription (shake w)) as [h|] eqn:E.
  - rewrite E. auto.
  - destruct Hsub as [Hl _]. cbn. rewrite Hl. repeat split; eauto.
Qed.

Lemma stop_consistent w :
  shakeTimeout (shake w) = 1000 ->
  shakeThreshold (shake w) = thresholdOf (sensitivity w) ->
  match subscription (shake w) with
  | Some h => listeners (accelerometer w) = [h]
  | None => listeners (accelerometer w) = []
            /\ onShakeCallback (shake w) = None
  end ->
  shake_consistent (ShakeContext.stopShakeDetection w).
Proof.
  unfold ShakeContext.stopShakeDetection, shake_consistent, stop.
  intros Hto Hth Hsub.
  destruct (subscription (shake w)) as [h|] eqn:E; cbn.
  - rewrite Hsub. cbn. rewrite decide_False by auto. cbn. auto.
  - rewrite E. auto.
Qed.

Lemma consistent_stop w :
  shake_consistent w -> shake_consistent (ShakeContext.stopShakeDetection w).
Proof.
  intros (Hto & Hth & Hsub). apply stop_consistent; auto.
  destruct (subscription (shake w)); [apply Hsub|exact Hsub].
Qed.

Lemma stop_keeps_state w :
  shakeEnabled (ShakeContext.stopShakeDetection w) = shakeEnabled w
  /\ sensitivity (ShakeContext.stopShakeDetection w) = sensitivity w
  /\ subscription (shake (ShakeContext.stopShakeDetection w)) = None.
Proof.
  unfold ShakeContext.stopShakeDetection, stop.
  destruct (subscription (shake w)) eqn:E; cbn; auto.
Qed.

Lemma consistent_rerun w :
  shake_consistent w -> shake_consistent (rerunShakeEffect w).
Proof.
  intros H. unfold rerunShakeEffect, ShakeContext.effect_cleanup,
    ShakeContext.effect.
  apply consistent_stop in H.
  destruct (stop_keeps_state w) as (He & Hs & _).
  set (w1 := ShakeContext.stopShakeDetection w) in *.
  set (w2 := set_shakeClosure (currentLocation w1) w1).
  assert (H2 : shake_consistent w2) by exact H.
  change (shakeEnabled w2) with (shakeEnabled w1).
  change (sensitivity w2) with (sensitivity w1).
  change (currentLocation w2) with (currentLocation w1).
  destruct (shakeEnabled w1) eqn:E; [|exact H2].
  change (sensitivity w1) with (sensitivity w2).
  apply consistent_start; [exact H2|exact E].
Qed.

Lemma step_consistent a s :
  shake_consistent (world s) -> shake_consistent (world (step a s)).
Proof.
  destruct s as [w ps]. cbn [world]. intros H.
  destruct a as [ms|i ans|d|next| | |sens|loc]; cbn [step world pending].
  - case_match; exact H.
  - destruct (ps !! i) as [p|]; [|exact H].
    case_match; [|exact H].
    pose proof (side_settle (awaiting p) ans w) as Hs.
    destruct (settle (awaiting p) ans w) as [w1 v]. cbn [fst] in Hs.
    pose proof (side_resumeTask (task p) v w1) as Hr.
    destruct (resumeTask (task p) v w1) as [w2 [op t| |]];
      cbn [fst world] in *;
      apply (consistent_side w); try exact H; rewrite <- Hs, <- Hr;
      reflexivity.
  - destruct (deliver _ _ d _) as [sh cbs] eqn:Ed.
    apply (consistent_side (set_shake (accelerometer w, sh) w)).
    { apply (invoke_side cbs (mkState _ ps)). }
    destruct H as (Hto & Hth & Hsub).
    unfold shake_consistent. cbn [set_shake shake accelerometer fst snd
      shakeEnabled sensitivity].
    destruct (subscription (shake w)) as [h|] eqn:E.
    + destruct Hsub as (Hl & Hcb & Hen). rewrite Hl in Ed. cbn in Ed.
      destruct (ShakeFacts.listener_state (shake w) (clock w) d)
        as (Hs1 & Hs2 & Hs3 & Hs4 & _).
      destruct (listener (clock w) d (shake w)) as [s1 fired].
      injection Ed as <- _. cbn [fst] in *.
      rewrite Hs1, Hs2, Hs3, Hs4, E. auto.
    + destruct Hsub as (Hl & Hcb). rewrite Hl in Ed. injection Ed as <- _.
      rewrite E. auto.
  - pose proof (side_voice_handleAppStateChange None false next w) as Hv.
    destruct (VoiceContext.handleAppStateChange None false next w)
      as [w1 sp]. cbn [fst world] in *.
    assert (H1 : shake_consistent w1) by (apply (consistent_side w); auto).
    unfold ShakeContext.handleAppStateChange.
    destruct next; try exact H1; try (apply consistent_stop; exact H1).
    destruct (shakeEnabled w1) eqn:E; [|exact H1].
    apply consistent_start; auto.
  - pose proof (side_toggleVoiceDetection (voiceEnabled w) w) as Hr.
    rewrite <- (keeps_as_task (TToggleVoice (currentLocation w))) in Hr.
    destruct (as_task _ _) as [w1 [op t| |]]; cbn [spawn fst world] in *;
      apply (consistent_side w); auto.
  - apply consistent_rerun.
    unfold ShakeContext.toggleShakeDetection.
    destruct (shakeEnabled w) eqn:E; cbn [negb].
    + destruct H as (Hto & Hth & Hsub).
      apply (stop_consistent (setShakeEnabled false w)); auto.
      cbn [setShakeEnabled shake accelerometer].
      destruct (subscription (shake w)); [apply Hsub|exact Hsub].
    + apply (consistent_start (currentLocation w) (setShakeEnabled true w));
        [|reflexivity].
      destruct H as (Hto & Hth & Hsub). unfold shake_consistent.
      cbn [setShakeEnabled shake accelerometer shakeEnabled sensitivity].
      repeat split; auto.
      destruct (subscription (shake w)); [|exact Hsub].
      destruct Hsub as (Hl & Hcb & _). auto.
  - set (w1 := ShakeContext.setSensitivity sens w).
    assert (H1 : shake_consistent w1).
    { destruct H as (Hto & Hth & Hsub). unfold shake_consistent, w1. cbn.
      auto. }
    case_match; [exact H1|apply consistent_rerun, H1].
  - exact H.
Qed.

(** ShakeProvider keeps the shake service consistent from the moment it
    mounts. *)
Lemma reachable_consistent (now : Z) (store : gmap string Stored)
    (acts : list Action) :
  shake_consistent (world (run acts (mounted now store))).
Proof.
  induction acts as [|a acts IH] using rev_ind.
  - unfold shake_consistent. cbn. repeat split; eauto.
  - rewrite run_snoc. apply step_consistent, IH.
Qed.

(** X15: what ShakeProvider keeps of the shake service, in every state the
    app can reach: the debounce is 1000 ms; the threshold of the service
    is that of the sensitivity the provider shows; and the accelerometer
    has exactly one listener while the service has a subscription (then
    the callback is set and shake detection is enabled) and no listener
    and no callback otherwise. *)
Theorem shake_service_consistent (now : Z) (store : gmap string Stored)
    (acts : list Action) :
  let w := world (run acts (mounted now store)) in
  shakeTimeout (shake w) = 1000
  /\ shakeThreshold (shake w) = thresholdOf (sensitivity w)
  /\ listeners (accelerometer w)
     = match subscription (shake w) with Some h => [h] | None => [] end
  /\ (if isActive (shake w)
      then shakeEnabled w = true /\ is_Some (onShakeCallback (shake w))
      else onShakeCallback (shake w) = None).
Proof.
  intros w.
  destruct (reachable_consistent now store acts) as (Hto & Hth & Hsub).
  fold w in Hto, Hth, Hsub. unfold isActive.
  destruct (subscription (shake w)); repeat split; tauto.
Qed.

Lemma inactive_update_ignored (s : State) d :
  shake_consistent (world s) ->
  subscription (shake (world s)) = None ->
  step (AccelerometerUpdate d) s = s.
Proof.
  destruct s as [w ps]. cbn [world]. intros (_ & _ & Hsub) E.
  rewrite E in Hsub. destruct Hsub as [Hl _].
  unfold step. cbn [world pending]. rewrite Hl. cbn [deliver invoke].
  destruct w. reflexivity.
Qed.

(** X16: while shake detection is disabled, and from the moment the app
    goes to the background or becomes inactive, an accelerometer update
    changes nothing: it is not compared with the threshold, it does not
    move the debounce, and no handler runs. *)
Theorem no_shake_when_disabled_or_in_background (now : Z)
    (store : gmap string Stored) (acts : list Action)
    (d : AccelerometerData) :
  let s := run acts (mounted now store) in
  let hidden := step (AppStateChanged background) s in
  let paused := step (AppStateChanged inactive) s in
  (if shakeEnabled (world s) then True
   else step (AccelerometerUpdate d) s = s)
  /\ step (AccelerometerUpdate d) hidden = hidden
  /\ step (AccelerometerUpdate d) paused = paused.
Proof.
  intros s hidden paused.
  pose proof (reachable_consistent now store acts) as H. fold s in H.
  split; [|split].
  - destruct (shakeEnabled (world s)) eqn:E; [exact I|].
    apply inactive_update_ignored; [exact H|].
    destruct H as (_ & _ & Hsub).
    destruct (subscription (shake (world s))); [|reflexivity].
    destruct Hsub as (_ & _ & Hen). congruence.
  - apply inactive_update_ignored; [apply step_consistent, H|].
    unfold hidden. destruct s as [w ps]. cbn [step world].
    destruct (VoiceContext.handleAppStateChange None false background w)
      as [w1 sp]. cbn [world ShakeContext.handleAppStateChange].
    apply stop_keeps_state.
  - apply inactive_update_ignored; [apply step_consistent, H|].
    unfold paused. destruct s as [w ps]. cbn [step world].
    destruct (VoiceContext.handleAppStateChange None false inactive w)
      as [w1 sp]. cbn [world ShakeContext.handleAppStateChange].
    apply stop_keeps_state.
Qed.

(** X17: the shake handler sees the location of the render whose effect
    registered it.  In a reachable state where the location provider has
    no location yet, a location published now is not seen by a shake
    that follows: the handler still reports that the location is not
    available, saves nothing and leaves nothing pending. *)
Theorem location_not_seen_until_effect_reruns (now : Z)
    (store : gmap string Stored) (acts : list Action) (loc : LocationData)
    (d : AccelerometerData) :
  let s := run acts (mounted now store) in
  let s1 := step (LocationChanged loc) s in
  let s2 := step (AccelerometerUpdate d) s1 in
  currentLocation (world s) = None ->
  isActive (shake (world s)) = true ->
  PrimFloat.ltb (thresholdOf (sensitivity (world s))) (acceleration d)
    = true ->
  1000 < clock (world s) - lastShakeTime (shake (world s)) ->
  currentLocation (world s1) = Some loc
  /\ pending s2 = pending s1
  /\ storage (world s2) = storage (world s1)
  /\ log (world s2) =
       log (world s1)
       ++ [ConsoleLog "SHAKE DETECTED! Triggering emergency alert...";
           ToastShow toast_error "Shake Detected!";
           ToastShow toast_error "Location not available"].
Proof.
  intros s s1 s2 Hnone Hact Hth Hdeb.
  destruct (no_location_before_provider now store acts Hnone)
    as (_ & Hcbs & _).
  destruct (reachable_consistent now store acts) as (Hto & Hthr & Hsub).
  fold s in Hcbs, Hto, Hthr, Hsub.
  unfold isActive in Hact.
  destruct (subscription (shake (world s))) as [h|]; [|discriminate].
  destruct Hsub as (Hl & [cb Hcb] & _).
  split; [reflexivity|].
  assert (H1 : listeners (accelerometer (world s1)) = [h]) by exact Hl.
  assert (H2 : onShakeCallback (shake (world s1)) = Some cb) by exact Hcb.
  assert (H3 : PrimFloat.ltb (shakeThreshold (shake (world s1)))
                 (acceleration d) = true).
  { change (shake (world s1)) with (shake (world s)).
    rewrite Hthr. exact Hth. }
  assert (H4 : shakeTimeout (shake (world s1))
               < clock (world s1) - lastShakeTime (shake (world s1))).
  { change (shake (world s1)) with (shake (world s)).
    change (clock (world s1)) with (clock (world s)).
    rewrite Hto. exact Hdeb. }
  pose proof (update_no_location s1 d h cb H1 H2 (Hcbs cb Hcb) H3 H4) as E.
  fold s2 in E. rewrite E.
  cbn [pending world storage log emit set_shake].
  rewrite <- !app_assoc. auto.
Qed.

(** X18: picking a sensitivity, in every state the app can reach, sets
    it in the provider and in the service and keeps the debounce.  When it differs from the one selected, the
    effect runs again: detection is active exactly when it is enabled,
    and the handler registered is the one of the current render, with
    the current location.  Picking the sensitivity that is selected
    leaves the registered handler, and the location it holds, as they
    were. *)
Theorem sensitivity_change_reruns_effect (now : Z)
    (store : gmap string Stored) (acts : list Action)
    (sens : Sensitivity) :
  let s := run acts (mounted now store) in
  let w := world s in
  let s1 := step (SelectSensitivity sens) s in
  let w1 := world s1 in
  pending s1 = pending s
  /\ sensitivity w1 = sens
  /\ shakeThreshold (shake w1) = thresholdOf sens
  /\ lastShakeTime (shake w1) = lastShakeTime (shake w)
  /\ (if bool_decide (sens = sensitivity w)
      then onShakeCallback (shake w1) = onShakeCallback (shake w)
           /\ subscription (shake w1) = subscription (shake w)
           /\ shakeClosure w1 = shakeClosure w
      else isActive (shake w1) = shakeEnabled w
           /\ shakeClosure w1 = currentLocation w
           /\ onShakeCallback (shake w1)
              = if shakeEnabled w
                then Some (mkShakeCallback (currentLocation w))
                else None).
Proof.
  intros s w s1 w1.
  pose proof (reachable_consistent now store acts) as H.
  fold s in H. fold w in H. subst w1 s1 w. revert H.
  generalize s. clear s.
  intros [[v flag lst ven [sub last th to cb] acc sen ss scl cloc st
             clk lg] ps] (_ & _ & Hsub).
  cbn [world step pending sensitivity] in *.
  destruct (bool_decide (sens = ss)).
  - cbn. repeat split; reflexivity.
  - destruct sub, sen; cbn in *; repeat split; try reflexivity;
      apply Hsub.
Qed.

(** X19: pressing the shake toggle, in every state the app can reach,
    flips [isEnabled] and keeps the debounce.  After disabling, the
    service is inactive, has no callback, and the accelerometer has no
    listener; after enabling, it is active with one listener (the
    second of two that were registered: the toggle starts the service,
    and the effect that runs again stops and starts it), and the
    handler registered holds the current location. *)
Theorem toggle_shake_detection (now : Z) (store : gmap string Stored)
    (acts : list Action) :
  let s := run acts (mounted now store) in
  let w := world s in
  let s1 := step PressToggleShake s in
  let w1 := world s1 in
  pending s1 = pending s
  /\ shakeEnabled w1 = negb (shakeEnabled w)
  /\ isActive (shake w1) = negb (shakeEnabled w)
  /\ lastShakeTime (shake w1) = lastShakeTime (shake w)
  /\ shakeClosure w1 = currentLocation w
  /\ onShakeCallback (shake w1)
     = (if shakeEnabled w then None
        else Some (mkShakeCallback (currentLocation w)))
  /\ listeners (accelerometer w1)
     = (if shakeEnabled w then []
        else [S (nextHandle (accelerometer w))]).
Proof.
  intros s w s1 w1.
  pose proof (reachable_consistent now store acts) as H.
  fold s in H. fold w in H. subst w1 s1 w. revert H.
  generalize s. clear s.
  intros [[v flag lst ven [sub last th to cb] [ls nh ui] sen ss scl cloc st
             clk lg] ps] (_ & _ & Hsub).
  cbn [world step pending] in *.
  destruct sub as [h|], sen; cbn in Hsub.
  - destruct Hsub as (-> & _ & _). cbn.
    rewrite decide_False by auto. cbn. repeat split; reflexivity.
  - destruct Hsub as (_ & _ & Hen). discriminate.
  - destruct Hsub as (-> & ->). cbn. repeat split; reflexivity.
  - destruct Hsub as (-> & ->). cbn.
    rewrite decide_False by auto. cbn. repeat split; reflexivity.
Qed.

(** X20: coming back to the foreground, in every state the app can
    reach, leaves shake detection active exactly when it is enabled and
    keeps the debounce; a handler registered now holds the location of
    the render whose effect ran last.  Nothing is started for the voice
    provider. *)
Theorem foreground_restores_shake_detection (now : Z)
    (store : gmap string Stored) (acts : list Action) :
  let s := run acts (mounted now store) in
  let w := world s in
  let s1 := step (AppStateChanged active) s in
  let w1 := world s1 in
  pending s1 = pending s
  /\ isActive (shake w1) = shakeEnabled w
  /\ lastShakeTime (shake w1) = lastShakeTime (shake w)
  /\ onShakeCallback (shake w1)
     = (if isActive (shake w) then onShakeCallback (shake w)
        else if shakeEnabled w
             then Some (mkShakeCallback (shakeClosure w))
             else None)
  /\ listeningLoopRef w1 = listeningLoopRef w
  /\ isListening w1 = isListening w.
Proof.
  intros s w s1 w1.
  pose proof (reachable_consistent now store acts) as H.
  fold s in H. fold w in H. subst w1 s1 w. revert H.
  generalize s. clear s.
  intros [[v flag lst ven [sub last th to cb] [ls nh ui] sen ss scl cloc st
             clk lg] ps] (_ & _ & Hsub).
  cbn [world step pending] in *.
  destruct sub as [h|], sen; cbn in Hsub |- *.
  - repeat split; reflexivity.
  - destruct Hsub as (_ & _ & Hen). discriminate.
  - repeat split; reflexivity.
  - destruct Hsub as (_ & ->). repeat split; reflexivity.
Qed.

End ShakeProviderMore.

Module ShakeProviderExamples.

Import VoiceService VoiceContext App Runs Progress ShakeService Schedules.
Import ShakeProviderMore.

(** [location_not_seen_until_effect_reruns] right after the providers
    mounted: the location [home] arrives, then a shake. *)
Lemma location_not_seen_until_effect_reruns_witness :
  let s1 := step (LocationChanged home) start0 in
  let s2 := step (AccelerometerUpdate strongSample) s1 in
  currentLocation (world s1) = Some home
  /\ pending s2 = pending s1
  /\ storage (world s2) = storage (world s1)
  /\ log (world s2) =
       log (world s1)
       ++ [ConsoleLog "SHAKE DETECTED! Triggering emergency alert...";
           ToastShow toast_error "Shake Detected!";
           ToastShow toast_error "Location not available"].
Proof.
  apply (location_not_seen_until_effect_reruns 1000000 tokenOnly [] home
           strongSample); first [reflexivity | cbn; lia].
Defined.

End ShakeProviderExamples.

(** ** The two dispatch handlers *)

Module DispatchMore.

Import VoiceService VoiceContext App Runs Progress ClosureFacts.
Import ShakeService ShakeProviderMore Dispatches DispatchFacts.

(** X21: the alert history is read, extended and written back without
    protection.  When two dispatches, of a shake handler or of the
    listening loop, have both asked for the saved alerts before either
    has written, the two writes follow each other and the second
    replaces the first: of the two alerts only the one written last is
    saved, while both handlers go on to their confirmation. *)
Theorem overlapping_dispatches_lose_an_alert (s : State) (i j : nat)
    (t1 t2 : Task) (since1 since2 : Z) (l1 l2 : LocationData)
    (g1 g2 : list Guardian) (a1 a2 : AlertRecord)
    (als : list AlertRecord) :
  i <> j ->
  pending s !! i = Some (mkPending t1 (GetItem "demo_alerts") since1) ->
  dispatchOf t1 = Some (KD_alerts l1 g1 a1) ->
  pending s !! j = Some (mkPending t2 (GetItem "demo_alerts") since2) ->
  dispatchOf t2 = Some (KD_alerts l2 g2 a2) ->
  parseAlerts (storage (world s) !! "demo_alerts") = Some als ->
  let s' :=
    run [Settle i Resolves; Settle j Resolves;
         Settle i Resolves; Settle j Resolves] s in
  savedAlerts s' = a2 :: als
  /\ (exists t1',
        pending s' !! i
          = Some (mkPending t1' (Timeout 1000) (clock (world s)))
        /\ dispatchOf t1' = Some (KD_sms l1 g1))
  /\ (exists t2',
        pending s' !! j
          = Some (mkPending t2' (Timeout 1000) (clock (world s)))
        /\ dispatchOf t2' = Some (KD_sms l2 g2)).
Proof.
  intros Hij Hi Hd1 Hj Hd2 Hals s'.
  assert (Hli : (i < length (pending s))%nat) by (eapply lookup_lt_Some, Hi).
  assert (Hlj : (j < length (pending s))%nat) by (eapply lookup_lt_Some, Hj).
  (* the first reads *)
  destruct (settle_in_dispatch s i t1 _ since1 _ _ _ _ _ _ Hi Hd1 eq_refl
              eq_refl (handler_reads_alerts t1 l1 g1 a1 _ als _ Hd1 Hals))
    as (u1 & E1 & Hu1 & _).
  set (s1 := step (Settle i Resolves) s) in *.
  (* the second reads *)
  assert (Hj1 : pending s1 !! j
                = Some (mkPending t2 (GetItem "demo_alerts") since2))
    by (rewrite E1; cbn [pending];
        rewrite list_lookup_insert_ne by exact Hij; exact Hj).
  assert (Hals1 : parseAlerts (storage (world s1) !! "demo_alerts")
                  = Some als) by (rewrite E1; exact Hals).
  destruct (settle_in_dispatch s1 j t2 _ since2 _ _ _ _ _ _ Hj1 Hd2 eq_refl
              eq_refl (handler_reads_alerts t2 l2 g2 a2 _ als _ Hd2 Hals1))
    as (u2 & E2 & Hu2 & _).
  set (s2 := step (Settle j Resolves) s1) in *.
  (* the first writes *)
  assert (Hi2 : pending s2 !! i
                = Some (mkPending u1
                          (SetItem "demo_alerts" (SAlerts (a1 :: als)))
                          (clock (world s)))).
  { rewrite E2, E1. cbn [pending world].
    rewrite list_lookup_insert_ne by auto.
    apply list_lookup_insert_eq, Hli. }
  destruct (settle_in_dispatch s2 i u1 _ _ _ _ _ _ _ _ Hi2 Hu1 eq_refl
              eq_refl (handler_has_written u1 l1 g1 _))
    as (v1 & E3 & Hv1 & _).
  set (s3 := step (Settle i Resolves) s2) in *.
  (* the second writes *)
  assert (Hj3 : pending s3 !! j
                = Some (mkPending u2
                          (SetItem "demo_alerts" (SAlerts (a2 :: als)))
                          (clock (world s)))).
  { rewrite E3, E2, E1. cbn [pending world].
    rewrite list_lookup_insert_ne by exact Hij.
    apply list_lookup_insert_eq. rewrite length_insert. exact Hlj. }
  destruct (settle_in_dispatch s3 j u2 _ _ _ _ _ _ _ _ Hj3 Hu2 eq_refl
              eq_refl (handler_has_written u2 l2 g2 _))
    as (v2 & E4 & Hv2 & _).
  assert (E : s' = step (Settle j Resolves) s3) by reflexivity.
  rewrite E, E4, E3, E2, E1.
  cbn [world pending storage clock set_storage].
  split; [|split].
  - unfold savedAlerts. cbn [world storage set_storage].
    rewrite lookup_insert_eq. reflexivity.
  - exists v1. split; [|exact Hv1].
    rewrite list_lookup_insert_ne by auto.
    apply list_lookup_insert_eq. rewrite !length_insert. exact Hli.
  - exists v2. split; [|exact Hv2].
    apply list_lookup_insert_eq. rewrite !length_insert. exact Hlj.
Qed.

(** X22: what a dispatch tells the user.  When the storage answers, the
    handler saves the alert and then, with no guardian stored, shows the
    info toast [No Guardians]; with guardians it shows its alert dialog
    and the success toast.  When an await rejects, whichever it is, the
    handler logs the error, shows [Failed to send alert] and returns,
    without writing. *)
Theorem dispatch_tells_the_user (loc : LocationData) (w : World)
    (gs : list Guardian) (als : list AlertRecord) (k : KDispatch)
    (e : Error) :
  parseGuardians (storage w !! "demo_guardians") = Some gs ->
  parseAlerts (storage w !! "demo_alerts") = Some als ->
  let told title :=
    match gs with
    | [] => [ToastShow toast_info "No Guardians"]
    | _ :: _ => [AlertAlert title;
                 ToastShow toast_success "DEMO: Emergency Alert Sent!"]
    end in
  let failed :=
    [ConsoleError "Error sending emergency alert";
     ToastShow toast_error "Failed to send alert"] in
  let answers := [Resolves; Resolves; Resolves; Resolves] in
  log (fst (dispatchAlone ShakeContext.handleShakeDetected_resume answers
              (ShakeContext.handleShakeDetected (Some loc) w)))
    = log w
      ++ [ConsoleLog "SHAKE DETECTED! Triggering emergency alert...";
          ToastShow toast_error "Shake Detected!"]
      ++ told "DEMO: Shake Alert Sent!"
      ++ [ConsoleLog "Emergency alert sent via shake detection"]
  /\ log (fst (dispatchAlone triggerEmergencyAlert_resume answers
                 (triggerEmergencyAlert (Some loc) w)))
     = log w ++ told "DEMO: Voice Alert Sent!"
       ++ [ConsoleLog "Emergency alert sent via voice activation"]
  /\ (let r := ShakeContext.handleShakeDetected_resume k (Rejected e) w in
      snd r = Return () /\ log (fst r) = log w ++ failed
      /\ storage (fst r) = storage w)
  /\ (let r := triggerEmergencyAlert_resume k (Rejected e) w in
      snd r = Return () /\ log (fst r) = log w ++ failed
      /\ storage (fst r) = storage w).
Proof.
  intros Hg Ha told failed answers. subst told failed answers.
  split; [|split; [|split]].
  - unfold ShakeContext.handleShakeDetected.
    cbn [dispatchAlone settle].
    unfold ShakeContext.handleShakeDetected_resume at 1.
    cbn [storage emit]. rewrite Hg.
    cbn [dispatchAlone settle].
    unfold ShakeContext.handleShakeDetected_resume at 1.
    cbn [storage emit]. rewrite Ha.
    cbn [dispatchAlone settle].
    unfold ShakeContext.handleShakeDetected_resume at 1.
    cbn [dispatchAlone settle].
    unfold ShakeContext.handleShakeDetected_resume.
    destruct gs; cbn [fst log emit set_storage];
      rewrite <- !app_assoc; reflexivity.
  - unfold triggerEmergencyAlert.
    cbn [dispatchAlone settle].
    unfold triggerEmergencyAlert_resume at 1.
    rewrite Hg.
    cbn [dispatchAlone settle].
    unfold triggerEmergencyAlert_resume at 1.
    rewrite Ha.
    cbn [dispatchAlone settle].
    unfold triggerEmergencyAlert_resume at 1.
    cbn [dispatchAlone settle].
    unfold triggerEmergencyAlert_resume.
    destruct gs; cbn [fst log emit set_storage];
      rewrite <- ?app_assoc; reflexivity.
  - destruct k; cbn; rewrite <- ?app_assoc; auto.
  - destruct k; cbn; rewrite <- ?app_assoc; auto.
Qed.

End DispatchMore.

Module DispatchMoreExamples.

Import VoiceService VoiceContext App Runs Dispatches DispatchMore.

(** [overlapping_dispatches_lose_an_alert] in the run [keywordAndShake]:
    the keyword is heard and the phone is shaken at 1003650; the alert
    of the voice command is not in the history. *)
Lemma overlapping_dispatches_lose_an_alert_witness :
  savedAlerts
    (run [Settle 0 Resolves; Settle 1 Resolves;
          Settle 0 Resolves; Settle 1 Resolves]
       (run Schedules2.keywordAndShake Schedules.start0))
  = [shakeAlertAt 1003650].
Proof.
  apply (overlapping_dispatches_lose_an_alert
           (run Schedules2.keywordAndShake Schedules.start0) 0 1
           (TToggleVoice (Some home)
              (KG_start (KL_trigger
                           (KD_alerts home [] (voiceAlertAt 1003650)))))
           (THandleShake (KD_alerts home [] (shakeAlertAt 1003650)))
           1003650 1003650 home home [] [] (voiceAlertAt 1003650)
           (shakeAlertAt 1003650) []);
    first [discriminate | vm_compute; reflexivity].
Defined.

(** [dispatch_tells_the_user] with nothing stored: no guardians. *)
Lemma dispatch_tells_the_user_witness :
  log (fst (dispatchAlone triggerEmergencyAlert_resume
              [Resolves; Resolves; Resolves; Resolves]
              (triggerEmergencyAlert (Some home) listeningWorld)))
  = [ToastShow toast_info "No Guardians";
     ConsoleLog "Emergency alert sent via voice activation"].
Proof.
  apply (dispatch_tells_the_user home listeningWorld [] [] (KD_save home [])
           OtherError eq_refl eq_refl).
Defined.

End DispatchMoreExamples.

(** ** A dispatch without a location, and the triggers after it *)

Module LocationFacts.

Import VoiceService VoiceContext App Runs Progress ClosureFacts.
Import ShakeService DispatchFacts ShakeProviderMore.






End LocationFacts.

Module LocationExamples.

Import VoiceService VoiceContext App Runs Dispatches Schedules Schedules2.
Import ShakeService LocationFacts.



End LocationExamples.
